(** * k8s-net-attach-def-controller: a shallow embedding of the controller

    The development follows [pkg/controller/utils.go] and
    [pkg/controller/controller.go]:

    - the Go library functions the code calls on strings ([strings.Split],
      [strings.TrimSpace], the compiled [validNameRegex]) are written out on
      byte strings;
    - the network selection parser ([parsePodNetworkSelectionElement],
      [parsePodNetworkSelections]);
    - the reconciler ([sync], [processNextWorkItem]) and the deletion
      recovery handler ([handleNetAttachDefDeleteEvent]) as functions that
      return their result together with the trace of calls they make on
      their collaborators (listers, API clients, event recorder, klog).

    What lives outside the repository is a parameter: the listers, the
    API clients and the work queue are the fields of [NetworkController],
    the JSON decoder and [podutil.FindPort] are Section variables, so every
    general theorem holds whatever they answer. The closed examples run on
    the executable stand-ins of the modules [json], [podutil] and
    [fake]. *)

From Stdlib Require Import String Ascii List ZArith Bool Lia.
From stdpp Require Import gmap strings.
Import ListNotations.

Local Open Scope string_scope.
Local Open Scope list_scope.

(** ** Errors and results *)

(** A Go [error], identified with the text of its [Error()] method. *)
Inductive error : Type :=
| mkError (msg : string).

Definition Error (e : error) : string :=
  match e with mkError m => m end.

(** [errors.New] and [errors.Errorf] of github.com/pkg/errors (the format
    is rendered by the caller); [errors.Wrap err msg] prints as
    [msg: cause]. *)
Definition errors_New (msg : string) : error := mkError msg.
Definition errors_Wrap (err : error) (msg : string) : error :=
  mkError (String.append msg (String.append ": " (Error err))).

(** The outcome of a Go function of type [(T, error)]: it returns a value
    and a nil error, returns a non-nil error (the value is then nil), or
    panics on a nil pointer dereference. *)
Inductive result (A : Type) : Type :=
| Ok (a : A)
| Err (e : error)
| Panic.
Arguments Ok {A} a.
Arguments Err {A} e.
Arguments Panic {A}.

Definition isErr {A} (r : result A) : bool :=
  match r with Err _ => true | _ => false end.

(** ** klog *)

Inductive Severity : Type := Info | Warning | ErrorLevel.

(** One klog call: its severity, the verbosity of a [klog.V(n)] guard
    ([None] for an unguarded call) and the rendered text. *)
Record LogEntry : Type := mkLog {
  logSeverity : Severity;
  logVerbosity : option nat;
  logText : string
}.

Definition klog_Error (e : error) : LogEntry := mkLog ErrorLevel None (Error e).
Definition klog_Errorf (s : string) : LogEntry := mkLog ErrorLevel None s.
Definition klog_Warningf (s : string) : LogEntry := mkLog Warning None s.
Definition klog_Infof (s : string) : LogEntry := mkLog Info None s.
Definition klog_V (n : nat) (s : string) : LogEntry := mkLog Info (Some n) s.

(** ** Go string functions used by the parser *)

Module strings.

(** [strings.Split(s, sep)] for a separator of one byte, which is all the
    source uses ([","], ["/"], ["@"]): the substrings between the
    separators; never the empty list. *)
Fixpoint Split (s : string) (sep : ascii) : list string :=
  match s with
  | EmptyString => [EmptyString]
  | String c rest =>
      if Ascii.eqb c sep then EmptyString :: Split rest sep
      else match Split rest sep with
           | [] => [String c EmptyString]
           | u :: us => String c u :: us
           end
  end.

(** Number of occurrences of a byte, [strings.Count(s, string(c))]. *)
Fixpoint Count (s : string) (c : ascii) : nat :=
  match s with
  | EmptyString => 0
  | String d rest => (if Ascii.eqb d c then 1 else 0) + Count rest c
  end.

(** The UTF-8 encodings of the code points for which [unicode.IsSpace]
    holds: the six ASCII ones, U+0085, U+00A0, U+1680, U+2000..U+200A,
    U+2028, U+2029, U+202F, U+205F, U+3000. *)
Definition bytes (l : list nat) : string :=
  string_of_list_ascii (map ascii_of_nat l).

Definition spaces : list string :=
  map bytes
    [ [9]; [10]; [11]; [12]; [13]; [32];
      [194; 133]; [194; 160]; [225; 154; 128];
      [226; 128; 128]; [226; 128; 129]; [226; 128; 130]; [226; 128; 131];
      [226; 128; 132]; [226; 128; 133]; [226; 128; 134]; [226; 128; 135];
      [226; 128; 136]; [226; 128; 137]; [226; 128; 138];
      [226; 128; 168]; [226; 128; 169]; [226; 128; 175];
      [226; 129; 159]; [227; 128; 128] ].

Fixpoint stripPrefix (p s : string) : option string :=
  match p, s with
  | EmptyString, _ => Some s
  | String a p', String b s' =>
      if Ascii.eqb a b then stripPrefix p' s' else None
  | String _ _, EmptyString => None
  end.

(** The rest of [s] after one leading white space rune, if it has one. *)
Fixpoint dropSpace (sps : list string) (s : string) : option string :=
  match sps with
  | [] => None
  | p :: sps' =>
      match stripPrefix p s with
      | Some s' => Some s'
      | None => dropSpace sps' s
      end
  end.

Fixpoint trimLeftFuel (fuel : nat) (sps : list string) (s : string) : string :=
  match fuel with
  | O => s
  | S fuel' =>
      match dropSpace sps s with
      | Some s' => trimLeftFuel fuel' sps s'
      | None => s
      end
  end.

Definition TrimLeft (sps : list string) (s : string) : string :=
  trimLeftFuel (String.length s) sps s.

Definition rev (s : string) : string :=
  string_of_list_ascii (List.rev (list_ascii_of_string s)).

(** [strings.TrimSpace]: white space runes removed at both ends (the right
    end is trimmed on the reversed bytes). *)
Definition TrimSpace (s : string) : string :=
  rev (TrimLeft (map rev spaces) (rev (TrimLeft spaces s))).

End strings.

(** ** The label pattern *)

Module regexp.

Definition inRange (lo hi c : ascii) : bool :=
  (nat_of_ascii lo <=? nat_of_ascii c)%nat && (nat_of_ascii c <=? nat_of_ascii hi)%nat.

(** The class [[a-z0-9]]. *)
Definition alnum (c : ascii) : bool :=
  inRange "a" "z" c || inRange "0" "9" c.

(** The class [[-a-z0-9]]. *)
Definition alnumDash (c : ascii) : bool :=
  Ascii.eqb c "-" || alnum c.

(** [[-a-z0-9]*[a-z0-9]] up to the end of the text. *)
Fixpoint body (s : string) : bool :=
  match s with
  | EmptyString => false
  | String c EmptyString => alnum c
  | String c rest => alnumDash c && body rest
  end.

(** [MatchString] of the pattern [^[a-z0-9]([-a-z0-9]*[a-z0-9])?$]
    compiled in [parsePodNetworkSelectionElement]: a first byte in
    [[a-z0-9]], then nothing or the optional group. A byte outside ASCII
    belongs to no class, so matching bytes and matching runes agree. *)
Definition MatchString (s : string) : bool :=
  match s with
  | EmptyString => false
  | String c rest =>
      alnum c && match rest with EmptyString => true | _ => body rest end
  end.

End regexp.

(** ** multus types *)

(** Modelled from the spec: [types.NetworkSelectionElement] of
    github.com/intel/multus-cni is declared outside the repository; the
    three fields the controller touches, as the data model lists them. *)
Record NetworkSelectionElement : Type := mkNSE {
  Namespace : string;
  Name : string;
  InterfaceRequest : string
}.

(** Modelled from the spec: [types.NetworkStatus], the tuple
    [{Name, Interface, IPs[]}] reported per pod. *)
Record NetworkStatus : Type := mkStatus {
  statusName : string;
  statusInterface : string;
  statusIPs : list string
}.

(** ** utils.go: the network selection parser *)

Definition quoted (s : string) : string :=
  String.append "'" (String.append s "'").

(** The loop over [[]string{namespace, name, netInterface}]: the first unit
    that is non-empty and does not match the pattern. *)
Fixpoint firstInvalidUnit (units : list string) : option string :=
  match units with
  | [] => None
  | unit :: rest =>
      if negb (regexp.MatchString unit) && (0 <? String.length unit)%nat
      then Some unit
      else firstInvalidUnit rest
  end.

(** [parsePodNetworkSelectionElement]: the klog lines it writes and what it
    returns. *)
Definition parsePodNetworkSelectionElement (selection defaultNamespace : string)
  : list LogEntry * result NetworkSelectionElement :=
  let fail (err : error) := ([klog_Error err], Err err) in
  let afterSlash (namespace name : string) :=
    let afterAt (name netInterface : string) :=
      match firstInvalidUnit [namespace; name; netInterface] with
      | Some unit =>
          fail (errors_New (String.append
            "at least one of the network selection units is invalid: error found at "
            (quoted unit)))
      | None => ([], Ok (mkNSE namespace name netInterface))
      end in
    match strings.Split name "@" with
    | [u0] => afterAt u0 ""
    | [u0; u1] => afterAt u0 u1
    | _ =>
        fail (errors_New (String.append
          "invalid network selection element - more than one '@' rune in: "
          (quoted selection)))
    end in
  match strings.Split selection "/" with
  | [u0] => afterSlash defaultNamespace u0
  | [u0; u1] => afterSlash u0 u1
  | _ =>
      fail (errors_New (String.append
        "invalid network selection element - more than one '/' rune in: "
        (quoted selection)))
  end.


(** ** encoding/json on the annotations *)

(** [json.Unmarshal] is a library function; the controller's functions
    below take it as a parameter. This module is an executable decoder for
    the annotation formats of the external interface (a JSON array of
    [{name, namespace, interface}] objects, a JSON array of
    [{name, interface, ips}] objects); it is what the closed examples run
    on. It follows the library on: the JSON grammar, [null] at the top
    (destination left nil, no error), [null] as an element of a slice of
    pointers (a nil pointer), keys matched without regard to ASCII case,
    unknown keys skipped, and a value of the wrong type (the error is kept
    and decoding goes on, so the destination is partly filled). It does not
    reproduce the library's error texts, and it rejects [\u] escapes. *)
Module json.

#[warnings="-register-all"]
Inductive value : Type :=
| Null
| Bool (b : bool)
| Number (literal : string)
| Str (s : string)
| Array (elements : list value)
| Object (members : list (string * value)).

Definition isSpace (c : ascii) : bool :=
  match nat_of_ascii c with
  | 32 | 9 | 10 | 13 => true
  | _ => false
  end.

Fixpoint skipSpace (s : list ascii) : list ascii :=
  match s with
  | c :: rest => if isSpace c then skipSpace rest else s
  | [] => []
  end.

Definition isDigit (c : ascii) : bool := regexp.inRange "0" "9" c.

Fixpoint digits (s : list ascii) : list ascii * list ascii :=
  match s with
  | c :: rest =>
      if isDigit c then let (d, r) := digits rest in (c :: d, r) else ([], s)
  | [] => ([], [])
  end.

(** A number literal: an optional minus sign, an integer part without a
    leading zero, an optional fraction, an optional exponent. *)
Definition scanNumber (s : list ascii) : option (list ascii * list ascii) :=
  let (sign, s1) :=
    match s with
    | "-"%char :: r => (["-"%char], r)
    | _ => ([], s)
    end in
  let intPart :=
    match s1 with
    | "0"%char :: r => Some (["0"%char], r)
    | _ => match digits s1 with
           | ([], _) => None
           | (d, r) => Some (d, r)
           end
    end in
  match intPart with
  | None => None
  | Some (ip, s2) =>
      let fracPart :=
        match s2 with
        | "."%char :: r =>
            match digits r with
            | ([], _) => None
            | (d, r') => Some ("."%char :: d, r')
            end
        | _ => Some ([], s2)
        end in
      match fracPart with
      | None => None
      | Some (fp, s3) =>
          let expPart :=
            match s3 with
            | e :: r =>
                if Ascii.eqb e "e" || Ascii.eqb e "E" then
                  let (sg, r1) :=
                    match r with
                    | c :: r' =>
                        if Ascii.eqb c "+" || Ascii.eqb c "-"
                        then ([c], r') else ([], r)
                    | [] => ([], r)
                    end in
                  match digits r1 with
                  | ([], _) => None
                  | (d, r2) => Some (e :: sg ++ d, r2)
                  end
                else Some ([], s3)
            | [] => Some ([], s3)
            end in
          match expPart with
          | None => None
          | Some (ep, s4) => Some (sign ++ ip ++ fp ++ ep, s4)
          end
      end
  end.

Definition quote : ascii := ascii_of_nat 34.

(** The bytes of a string literal after its opening quote, up to the
    closing quote. *)
Fixpoint scanString (s : list ascii) : option (list ascii * list ascii) :=
  match s with
  | [] => None
  | c :: rest =>
      if Ascii.eqb c quote then Some ([], rest)
      else if Ascii.eqb c "\" then
        match rest with
        | e :: rest' =>
            let esc :=
              match nat_of_ascii e with
              | 34 => Some quote
              | 92 => Some "\"%char
              | 47 => Some "/"%char
              | 98 => Some (ascii_of_nat 8)
              | 102 => Some (ascii_of_nat 12)
              | 110 => Some (ascii_of_nat 10)
              | 114 => Some (ascii_of_nat 13)
              | 116 => Some (ascii_of_nat 9)
              | _ => None
              end in
            match esc, scanString rest' with
            | Some d, Some (str, r) => Some (d :: str, r)
            | _, _ => None
            end
        | [] => None
        end
      else if (nat_of_ascii c <? 32)%nat then None
      else match scanString rest with
           | Some (str, r) => Some (c :: str, r)
           | None => None
           end
  end.

Fixpoint parseValue (fuel : nat) (s : list ascii) : option (value * list ascii) :=
  match fuel with
  | O => None
  | S fuel' =>
      match skipSpace s with
      | "n"%char :: "u"%char :: "l"%char :: "l"%char :: r => Some (Null, r)
      | "t"%char :: "r"%char :: "u"%char :: "e"%char :: r => Some (Bool true, r)
      | "f"%char :: "a"%char :: "l"%char :: "s"%char :: "e"%char :: r =>
          Some (Bool false, r)
      | "["%char :: r =>
          match skipSpace r with
          | "]"%char :: r' => Some (Array [], r')
          | _ =>
              match parseElements fuel' r with
              | Some (vs, r') => Some (Array vs, r')
              | None => None
              end
          end
      | "{"%char :: r =>
          match skipSpace r with
          | "}"%char :: r' => Some (Object [], r')
          | _ =>
              match parseMembers fuel' r with
              | Some (ms, r') => Some (Object ms, r')
              | None => None
              end
          end
      | c :: r =>
          if Ascii.eqb c quote then
            match scanString r with
            | Some (str, r') => Some (Str (string_of_list_ascii str), r')
            | None => None
            end
          else
            match scanNumber (c :: r) with
            | Some (lit, r') => Some (Number (string_of_list_ascii lit), r')
            | None => None
            end
      | [] => None
      end
  end
with parseElements (fuel : nat) (s : list ascii) : option (list value * list ascii) :=
  match fuel with
  | O => None
  | S fuel' =>
      match parseValue fuel' s with
      | Some (v, r) =>
          match skipSpace r with
          | ","%char :: r' =>
              match parseElements fuel' r' with
              | Some (vs, r'') => Some (v :: vs, r'')
              | None => None
              end
          | "]"%char :: r' => Some ([v], r')
          | _ => None
          end
      | None => None
      end
  end
with parseMembers (fuel : nat) (s : list ascii)
  : option (list (string * value) * list ascii) :=
  match fuel with
  | O => None
  | S fuel' =>
      match skipSpace s with
      | c :: r =>
          match (if Ascii.eqb c quote then scanString r else None) with
          | Some (k, r1) =>
              match skipSpace r1 with
              | ":"%char :: r2 =>
                  match parseValue fuel' r2 with
                  | Some (v, r3) =>
                      let m := (string_of_list_ascii k, v) in
                      match skipSpace r3 with
                      | ","%char :: r4 =>
                          match parseMembers fuel' r4 with
                          | Some (ms, r5) => Some (m :: ms, r5)
                          | None => None
                          end
                      | "}"%char :: r4 => Some ([m], r4)
                      | _ => None
                      end
                  | None => None
                  end
              | _ => None
              end
          | None => None
          end
      | [] => None
      end
  end.

(** A whole text: one value, white space around it, nothing else. *)
Definition parse (text : string) : option value :=
  let s := list_ascii_of_string text in
  match parseValue (2 * List.length s + 2) s with
  | Some (v, r) =>
      match skipSpace r with
      | [] => Some v
      | _ => None
      end
  | None => None
  end.

Definition lower (c : ascii) : ascii :=
  if regexp.inRange "A" "Z" c then ascii_of_nat (nat_of_ascii c + 32) else c.

Definition foldKey (k : string) : string :=
  string_of_list_ascii (map lower (list_ascii_of_string k)).

Definition syntaxError : error := mkError "json: syntax error".
Definition typeError : error := mkError "json: cannot unmarshal value into Go value".

Definition firstError (a b : option error) : option error :=
  match a with Some e => Some e | None => b end.

(** A string field: a string is stored, [null] leaves the field, anything
    else is a type error and leaves the field. *)
Definition stringField (old : string) (v : value) : string * option error :=
  match v with
  | Str s => (s, None)
  | Null => (old, None)
  | _ => (old, Some typeError)
  end.

Fixpoint selectionFields (ms : list (string * value)) (e : NetworkSelectionElement)
  : NetworkSelectionElement * option error :=
  match ms with
  | [] => (e, None)
  | (k, v) :: rest =>
      let key := foldKey k in
      let '(e', err) :=
        if String.eqb key "name" then
          let (s, err) := stringField (Name e) v in
          (mkNSE (Namespace e) s (InterfaceRequest e), err)
        else if String.eqb key "namespace" then
          let (s, err) := stringField (Namespace e) v in
          (mkNSE s (Name e) (InterfaceRequest e), err)
        else if String.eqb key "interface" then
          let (s, err) := stringField (InterfaceRequest e) v in
          (mkNSE (Namespace e) (Name e) s, err)
        else (e, None) in
      let (e'', err') := selectionFields rest e' in
      (e'', firstError err err')
  end.

(** One element of a [[]*types.NetworkSelectionElement]. *)
Definition selectionElement (v : value)
  : option NetworkSelectionElement * option error :=
  match v with
  | Null => (None, None)
  | Object ms =>
      let (e, err) := selectionFields ms (mkNSE "" "" "") in (Some e, err)
  | _ => (Some (mkNSE "" "" ""), Some typeError)
  end.

Fixpoint decodeList {A} (f : value -> A * option error) (vs : list value)
  : list A * option error :=
  match vs with
  | [] => ([], None)
  | v :: rest =>
      let (a, err) := f v in
      let (l, err') := decodeList f rest in
      (a :: l, firstError err err')
  end.

(** [json.Unmarshal([]byte(text), &networkSelections)] on a nil
    destination: the destination after the call and the error. *)
Definition UnmarshalSelections (text : string)
  : list (option NetworkSelectionElement) * option error :=
  match parse text with
  | None => ([], Some syntaxError)
  | Some Null => ([], None)
  | Some (Array vs) => decodeList selectionElement vs
  | Some _ => ([], Some typeError)
  end.

Definition stringElement (v : value) : string * option error :=
  stringField "" v.

Fixpoint statusFields (ms : list (string * value)) (st : NetworkStatus)
  : NetworkStatus * option error :=
  match ms with
  | [] => (st, None)
  | (k, v) :: rest =>
      let key := foldKey k in
      let '(st', err) :=
        if String.eqb key "name" then
          let (s, err) := stringField (statusName st) v in
          (mkStatus s (statusInterface st) (statusIPs st), err)
        else if String.eqb key "interface" then
          let (s, err) := stringField (statusInterface st) v in
          (mkStatus (statusName st) s (statusIPs st), err)
        else if String.eqb key "ips" then
          match v with
          | Array vs =>
              let (ips, err) := decodeList stringElement vs in
              (mkStatus (statusName st) (statusInterface st) ips, err)
          | Null => (mkStatus (statusName st) (statusInterface st) [], None)
          | _ => (st, Some typeError)
          end
        else (st, None) in
      let (st'', err') := statusFields rest st' in
      (st'', firstError err err')
  end.

(** One element of a [[]types.NetworkStatus]. *)
Definition statusElement (v : value) : NetworkStatus * option error :=
  match v with
  | Null => (mkStatus "" "" [], None)
  | Object ms => statusFields ms (mkStatus "" "" [])
  | _ => (mkStatus "" "" [], Some typeError)
  end.

(** [json.Unmarshal([]byte(text), &networksStatus)] on an empty
    destination. *)
Definition UnmarshalStatuses (text : string)
  : list NetworkStatus * option error :=
  match parse text with
  | None => ([], Some syntaxError)
  | Some Null => ([], None)
  | Some (Array vs) => decodeList statusElement vs
  | Some _ => ([], Some typeError)
  end.

End json.



(** ** Kubernetes objects, as far as the controller reads or writes them *)

Module corev1.

Inductive IntOrString : Type :=
| IntVal (i : Z)
| StrVal (s : string).

Record ServicePort : Type := mkServicePort {
  spName : string;
  spProtocol : string;
  spPort : Z;
  spTargetPort : IntOrString
}.

Record Service : Type := mkService {
  svcNamespace : string;
  svcName : string;
  svcUID : string;
  svcAnnotations : gmap string string;
  svcSelector : gmap string string;
  svcPorts : list ServicePort
}.

Record ContainerPort : Type := mkContainerPort {
  cpName : string;
  cpContainerPort : Z;
  cpProtocol : string
}.

Record Pod : Type := mkPod {
  podNamespace : string;
  podName : string;
  podUID : string;
  podResourceVersion : string;
  podLabels : gmap string string;
  podAnnotations : gmap string string;
  podNodeName : string;
  podContainers : list (list ContainerPort)
}.

Record ObjectReference : Type := mkObjectReference {
  refKind : string;
  refName : string;
  refNamespace : string;
  refResourceVersion : string;
  refUID : string
}.

Record EndpointAddress : Type := mkEndpointAddress {
  IP : string;
  NodeName : string;
  TargetRef : ObjectReference
}.

Record EndpointPort : Type := mkEndpointPort {
  Port : Z;
  Protocol : string;
  PortName : string
}.

Record EndpointSubset : Type := mkEndpointSubset {
  Addresses : list EndpointAddress;
  Ports : list EndpointPort
}.

Record OwnerReference : Type := mkOwnerReference {
  ownerAPIVersion : string;
  ownerKind : string;
  ownerName : string;
  ownerUID : string;
  ownerController : bool;
  ownerBlockOwnerDeletion : bool
}.

Record Endpoints : Type := mkEndpoints {
  epNamespace : string;
  epName : string;
  epResourceVersion : string;
  epOwnerReferences : list OwnerReference;
  epSubsets : list EndpointSubset
}.

Inductive EventType : Type := EventTypeNormal | EventTypeWarning.

#[global] Instance EndpointPort_eq_dec : EqDecision EndpointPort.
Proof. solve_decision. Defined.

End corev1.
Import corev1.

(** The custom resource: its identity, its resource version and its spec
    (opaque to the controller). *)
Record NetworkAttachmentDefinition : Type := mkNetAttachDef {
  nadNamespace : string;
  nadName : string;
  nadResourceVersion : string;
  nadConfig : string
}.

(** What a delete notification carries: the deleted object, or the
    informer's tombstone, which is no [metav1.Object]. *)
Inductive DeletedObject : Type :=
| DeletedNetAttachDef (nad : NetworkAttachmentDefinition)
| DeletedFinalStateUnknown (key : string).

(** The object an event is recorded on. *)
Inductive EventObject : Type :=
| OnService (svc : Service)
| OnEndpoints (ep : Endpoints).

(** One call [recorder.Event(object, eventtype, reason, message)]; the
    fields follow the parameters of client-go's [record.EventRecorder] in
    their order. *)
Record Event : Type := mkEvent {
  evObject : EventObject;
  evType : EventType;
  evReason : string;
  evMessage : string
}.

(** ** The collaborators of the controller and the trace of their use *)

(** The fields of the [NetworkController] struct, each as the answers it
    gives: the three listers read the informer caches, the two client sets
    talk to the live API, the work queue hands out the next item. The live
    [Get] of a net-attach-def is indexed by the number of earlier live
    [Get]s of the same run, so that the API may change under the handler. *)
Record NetworkController : Type := mkNetworkController {
  serviceLister_Get : string -> string -> result Service;
  podsLister_List : gmap string string -> result (list Pod);
  podsLister_ListAll : list Pod;
  endpointsLister_Get : string -> string -> result Endpoints;
  endpoints_Update : Endpoints -> option error;
  netAttachDefs_Get : nat -> string -> string -> option error;
  netAttachDefs_Create : NetworkAttachmentDefinition -> option error;
  workqueue_Get : string * bool
}.

Inductive Call : Type :=
| ServiceGet (namespace name : string)
| PodsList (selector : gmap string string)
| PodsListAll
| EndpointsGet (namespace name : string)
| EndpointsUpdate (ep : Endpoints)
| NetAttachDefGet (namespace name : string)
| NetAttachDefCreate (nad : NetworkAttachmentDefinition)
| RecorderEvent (ev : Event)
| Klog (entry : LogEntry)
| WorkqueueGet
| WorkqueueAddRateLimited (key : string)
| WorkqueueDone (key : string).

Definition isEndpointsGet (c : Call) : bool :=
  match c with EndpointsGet _ _ => true | _ => false end.
Definition isEndpointsUpdate (c : Call) : bool :=
  match c with EndpointsUpdate _ => true | _ => false end.
Definition isNetAttachDefGet (c : Call) : bool :=
  match c with NetAttachDefGet _ _ => true | _ => false end.
Definition isNetAttachDefCreate (c : Call) : bool :=
  match c with NetAttachDefCreate _ => true | _ => false end.
Definition isRequeue (c : Call) : bool :=
  match c with WorkqueueAddRateLimited _ => true | _ => false end.

(** The events of a trace, in order. *)
Fixpoint events (t : list Call) : list Event :=
  match t with
  | [] => []
  | RecorderEvent ev :: rest => ev :: events rest
  | _ :: rest => events rest
  end.

(** The klog lines of a trace, in order. *)
Fixpoint logLines (t : list Call) : list LogEntry :=
  match t with
  | [] => []
  | Klog l :: rest => l :: logLines rest
  | _ :: rest => logLines rest
  end.

Definition count (p : Call -> bool) (t : list Call) : nat :=
  List.length (List.filter p t).

(** The constants of controller.go. *)
Definition selectionsKey : string := "k8s.v1.cni.cncf.io/networks".
Definition statusesKey : string := "k8s.v1.cni.cncf.io/networks-status".

(** ** client-go and apimachinery helpers *)

Module cache.

(** [cache.SplitMetaNamespaceKey] of client-go: a key without ["/"] is a
    bare name, a key with one ["/"] is namespace and name, any other key is
    refused (the error text is the library's, with the key unquoted). *)
Definition SplitMetaNamespaceKey (key : string) : result (string * string) :=
  match strings.Split key "/" with
  | [name] => Ok ("", name)
  | [namespace; name] => Ok (namespace, name)
  | _ => Err (mkError ("unexpected key format: " +:+ key))
  end.

End cache.

Module metav1.

(** [metav1.NewControllerRef(svc, gvk)] for the group version kind
    [{Group: "", Version: "v1", Kind: "Service"}]. *)
Definition NewControllerRef (svc : Service) : OwnerReference :=
  mkOwnerReference "v1" "Service" (svcName svc) (svcUID svc) true true.

End metav1.

(** The conversion [int32(portNumber)] of a Go [int]. *)
Definition int32 (z : Z) : Z :=
  ((z + 2147483648) mod 4294967296 - 2147483648)%Z.

(** ** Subset repacking *)

Module endpoints.

(** Two port lists hold the same set of ports. *)
Definition samePortSet (p q : list EndpointPort) : bool :=
  forallb (fun x => existsb (fun y => bool_decide (x = y)) q) p
  && forallb (fun y => existsb (fun x => bool_decide (x = y)) p) q.

(** The subset folded into the subsets packed so far: its addresses join
    the subset that has its port set, or it becomes a subset of its
    own. *)
Fixpoint addSubset (packed : list EndpointSubset) (s : EndpointSubset)
  : list EndpointSubset :=
  match packed with
  | [] => [s]
  | g :: rest =>
      if samePortSet (Ports g) (Ports s)
      then mkEndpointSubset (Addresses g ++ Addresses s) (Ports g) :: rest
      else g :: addSubset rest s
  end.

(** Modelled from the spec: [endpoints.RepackSubsets] of
    k8s.io/kubernetes is a dependency that is not part of the repository;
    this is step 9 of the sync algorithm in the spec's words: subsets
    sharing an identical port set are merged so their addresses are
    combined into one subset, subsets with differing port sets remain
    distinct. *)
Definition RepackSubsets (subsets : list EndpointSubset) : list EndpointSubset :=
  fold_left addSubset subsets [].

End endpoints.

Module podutil.

Fixpoint findNamed (name protocol : string) (ports : list ContainerPort) : option Z :=
  match ports with
  | [] => None
  | p :: rest =>
      if String.eqb (cpName p) name && String.eqb (cpProtocol p) protocol
      then Some (cpContainerPort p)
      else findNamed name protocol rest
  end.

(** An executable stand-in for [podutil.FindPort], used by the closed
    examples: a numeric target port is returned as it is, a named one is
    looked up by name and protocol among the container ports. The
    controller's functions take [FindPort] as a parameter. *)
Definition FindPort (pod : Pod) (svcPort : ServicePort) : Z * option error :=
  match spTargetPort svcPort with
  | IntVal i => (i, None)
  | StrVal name =>
      match findNamed name (spProtocol svcPort) (concat (podContainers pod)) with
      | Some p => (p, None)
      | None => (0%Z, Some (mkError ("no suitable port for manifest: " +:+ podUID pod)))
      end
  end.

End podutil.

(** ** A cluster to run the controller on *)

(** Test inputs are written with ['] where the JSON text has a double
    quote. *)
Definition dq (s : string) : string :=
  string_of_list_ascii
    (map (fun c => if Ascii.eqb c "'" then json.quote else c)
       (list_ascii_of_string s)).

Module fake.

Definition notFound (kind name : string) : error :=
  mkError (kind +:+ " " +:+ name +:+ " not found").

Fixpoint getService (svcs : list Service) (namespace name : string) : result Service :=
  match svcs with
  | [] => Err (notFound "service" name)
  | svc :: rest =>
      if String.eqb (svcNamespace svc) namespace && String.eqb (svcName svc) name
      then Ok svc else getService rest namespace name
  end.

Fixpoint getEndpoints (eps : list Endpoints) (namespace name : string) : result Endpoints :=
  match eps with
  | [] => Err (notFound "endpoints" name)
  | ep :: rest =>
      if String.eqb (epNamespace ep) namespace && String.eqb (epName ep) name
      then Ok ep else getEndpoints rest namespace name
  end.

(** A selector made from a label set selects the pods that carry each of
    its labels. *)
Definition selects (selector : gmap string string) (pod : Pod) : bool :=
  forallb (fun kv => bool_decide (podLabels pod !! fst kv = Some (snd kv)))
    (map_to_list selector).

(** A controller over a cache holding the given objects; every update and
    create call succeeds, and the [n]-th live [Get] of a net-attach-def
    finds the object when [live n] holds. The queue hands out [key]. *)
Definition controller (svcs : list Service) (pods : list Pod) (eps : list Endpoints)
  (live : nat -> bool) (key : string) : NetworkController :=
  {| serviceLister_Get := getService svcs;
     podsLister_List := fun selector => Ok (List.filter (selects selector) pods);
     podsLister_ListAll := pods;
     endpointsLister_Get := getEndpoints eps;
     endpoints_Update := fun _ => None;
     netAttachDefs_Get :=
       fun n _ name => if live n then None else Some (notFound "net-attach-def" name);
     netAttachDefs_Create := fun _ => None;
     workqueue_Get := (key, false) |}.

Definition Sprint_NetAttachDef (nad : NetworkAttachmentDefinition) : string :=
  nadNamespace nad +:+ "/" +:+ nadName nad.

End fake.

(** The objects of the closed examples. *)
Module cluster.

Definition httpPort : ServicePort := mkServicePort "http" "TCP" 80 (IntVal 8080).

(** A Service that selects one network. *)
Definition web : Service :=
  mkService "default" "web" "uid-web"
    {[ selectionsKey := "net-a" ]} {[ "app" := "web" ]} [httpPort].

(** A Service that selects two networks. *)
Definition dual : Service :=
  mkService "default" "dual" "uid-dual"
    {[ selectionsKey := "net-a,net-b" ]} {[ "app" := "web" ]} [httpPort].

(** A Service that selects a network of another namespace. *)
Definition remote : Service :=
  mkService "default" "remote" "uid-remote"
    {[ selectionsKey := "other/net-a" ]} {[ "app" := "web" ]} [httpPort].

(** A pod attached to net-a of its own namespace. *)
Definition pod1 : Pod :=
  mkPod "default" "web-1" "uid-1" "7" {[ "app" := "web" ]}
    {[ selectionsKey := "default/net-a";
       statusesKey :=
         dq "[{'name':'net-a','interface':'net1','ips':['10.0.0.1']}]" ]}
    "node-a" [].

(** A pod without a network-status annotation. *)
Definition pod2 : Pod :=
  mkPod "default" "web-2" "uid-2" "4" {[ "app" := "web" ]}
    {[ selectionsKey := "net-a" ]} "node-b" [].

(** A pod whose network-status annotation is no JSON. *)
Definition pod3 : Pod :=
  mkPod "default" "web-3" "uid-3" "9" {[ "app" := "web" ]}
    {[ selectionsKey := "net-a"; statusesKey := dq "[{'name':" ]} "node-b" [].

Definition webEndpoints : Endpoints := mkEndpoints "default" "web" "3" [] [].
Definition dualEndpoints : Endpoints := mkEndpoints "default" "dual" "5" [] [].

Definition address1 (ip : string) : EndpointAddress :=
  mkEndpointAddress ip "node-a"
    (mkObjectReference "Pod" "web-1" "default" "7" "uid-1").

(** The Endpoints of [web] as a sync over [pod1], [pod2] and [pod3]
    writes them. *)
Definition webEndpoints' : Endpoints :=
  mkEndpoints "default" "web" "3"
    [mkOwnerReference "v1" "Service" "web" "uid-web" true true]
    [mkEndpointSubset [address1 "10.0.0.1"] [mkEndpointPort 8080 "TCP" "http"]].

Definition fooNetwork : NetworkAttachmentDefinition :=
  mkNetAttachDef "default" "foo-network" "12" "{ }".

(** Two pods that use [fooNetwork]. *)
Definition podA : Pod :=
  mkPod "default" "demo-a" "uid-a" "1" ∅
    {[ selectionsKey := "foo-network" ]} "node-a" [].
Definition podB : Pod :=
  mkPod "default" "demo-b" "uid-b" "1" ∅
    {[ selectionsKey := "default/foo-network@eth1" ]} "node-a" [].

Definition always (b : bool) (n : nat) : bool := b.

End cluster.

(** More objects for the closed examples. *)
Module cluster2.

(** A Service without the selection annotation. *)
Definition plain : Service :=
  mkService "default" "plain" "uid-plain" ∅ {[ "app" := "web" ]} [cluster.httpPort].

(** A Service whose selection is the empty JSON array. *)
Definition none : Service :=
  mkService "default" "none" "uid-none"
    {[ selectionsKey := "[]" ]} {[ "app" := "web" ]} [cluster.httpPort].

Definition noneEndpoints : Endpoints := mkEndpoints "default" "none" "8" [] [].

Definition refused : error := mkError "the object has been modified".

(** The controller of [fake.controller] with an API that refuses every
    update. *)
Definition refusing (c : NetworkController) : NetworkController :=
  {| serviceLister_Get := serviceLister_Get c;
     podsLister_List := podsLister_List c;
     podsLister_ListAll := podsLister_ListAll c;
     endpointsLister_Get := endpointsLister_Get c;
     endpoints_Update := fun _ => Some refused;
     netAttachDefs_Get := netAttachDefs_Get c;
     netAttachDefs_Create := netAttachDefs_Create c;
     workqueue_Get := workqueue_Get c |}.

(** The same controller with a queue that has shut down. *)
Definition shutDown (c : NetworkController) : NetworkController :=
  {| serviceLister_Get := serviceLister_Get c;
     podsLister_List := podsLister_List c;
     podsLister_ListAll := podsLister_ListAll c;
     endpointsLister_Get := endpointsLister_Get c;
     endpoints_Update := endpoints_Update c;
     netAttachDefs_Get := netAttachDefs_Get c;
     netAttachDefs_Create := netAttachDefs_Create c;
     workqueue_Get := ("", true) |}.

(** The reverse lookup over a list of services: those of the pod's
    namespace whose selector selects the pod. *)
Definition getPodServices (svcs : list Service) (pod : Pod) : result (list Service) :=
  Ok (List.filter (fun svc => String.eqb (svcNamespace svc) (podNamespace pod)
                              && fake.selects (svcSelector svc) pod) svcs).

(** A pod that uses a network of another name. *)
Definition podC : Pod :=
  mkPod "default" "demo-c" "uid-c" "1" ∅
    {[ selectionsKey := "bar-network" ]} "node-a" [].

(** A pod of another namespace that names foo-network without a
    namespace. *)
Definition podD : Pod :=
  mkPod "other" "demo-d" "uid-d" "1" ∅
    {[ selectionsKey := "foo-network" ]} "node-a" [].

End cluster2.

(** [contains s sub]: [sub] occurs in [s]. *)
Fixpoint contains (s sub : string) : bool :=
  String.prefix sub s
  || match s with
     | EmptyString => false
     | String _ rest => contains rest sub
     end.

(** ** Notifications of the informers *)

(** What an informer hands to a handler as [interface{}]: the object, or,
    on a delete it has missed, the tombstone
    [cache.DeletedFinalStateUnknown], which is neither a typed object nor a
    [metav1.Object]. *)
Inductive Notified (A : Type) : Type :=
| Live (a : A)
| Tombstone (key : string).
Arguments Live {A} a.
Arguments Tombstone {A} key.

(** A Service as the informer delivers it: the record that [sync] reads,
    with the resource version that only the update filter reads. *)
Record ServiceObject : Type := mkServiceObject {
  soResourceVersion : string;
  soService : Service
}.

(** The notifications the four informers deliver to the handlers that
    [NewNetworkController] registers. Add and update notifications carry
    objects; a delete notification may carry a tombstone. *)
Inductive Notification : Type :=
| ServiceAdded (obj : ServiceObject)
| ServiceUpdated (old updated : ServiceObject)
| ServiceDeleted (obj : Notified ServiceObject)
| PodAdded (obj : Pod)
| PodUpdated (old updated : Pod)
| PodDeleted (obj : Notified Pod)
| EndpointsAdded (obj : Endpoints)
| EndpointsUpdated (old updated : Endpoints)
| EndpointsDeleted (obj : Notified Endpoints)
| NetAttachDefAdded (obj : NetworkAttachmentDefinition)
| NetAttachDefUpdated (old updated : NetworkAttachmentDefinition)
| NetAttachDefDeleted (obj : DeletedObject).

(** The calls of a handler: the calls of the controller's trace, the
    reverse lookup [serviceLister.GetPodServices] and
    [utilruntime.HandleError]. *)
Inductive HandlerCall : Type :=
| Controller (c : Call)
| GetPodServices (pod : Pod)
| HandleError (err : error).

(** The keys a handler adds to the work queue, in order. *)
Fixpoint enqueued (t : list HandlerCall) : list string :=
  match t with
  | [] => []
  | Controller (WorkqueueAddRateLimited key) :: rest => key :: enqueued rest
  | _ :: rest => enqueued rest
  end.

(** A handler call that is harmless to the cluster: a cache read, a queue
    add, a klog line or a reported error. *)
Definition isDispatchOnly (c : HandlerCall) : bool :=
  match c with
  | Controller (ServiceGet _ _) => true
  | Controller (WorkqueueAddRateLimited _) => true
  | Controller (Klog _) => true
  | GetPodServices _ => true
  | HandleError _ => true
  | _ => false
  end.

Definition isDone (c : Call) : bool :=
  match c with WorkqueueDone _ => true | _ => false end.
Definition isWorkqueueGet (c : Call) : bool :=
  match c with WorkqueueGet => true | _ => false end.

(** [cache.MetaNamespaceKeyFunc] of client-go, on what the service handler
    receives: [namespace/name], the bare name for an empty namespace, and
    an error for an object without metadata such as the tombstone. *)
Definition MetaNamespaceKeyFunc (obj : Notified Service) : result string :=
  match obj with
  | Live svc =>
      if (0 <? String.length (svcNamespace svc))%nat
      then Ok (svcNamespace svc +:+ "/" +:+ svcName svc)
      else Ok (svcName svc)
  | Tombstone _ => Err (mkError "object has no meta")
  end.

(** How the worker loop ends on a finite run of queue answers: the queue
    has shut down, the queue has no further item (the worker waits in
    [Get]), or a sync has panicked. *)
Inductive WorkerEnd : Type :=
| WorkerStopped
| WorkerWaiting
| WorkerPanicked.

(** ** Functions that return a result and leave a trace *)

Definition M (A : Type) : Type := list Call * result A.

Definition ret {A} (a : A) : M A := ([], Ok a).

(** [return err] out of the enclosing function. *)
Definition fail {A} (e : error) : M A := ([], Err e).

Definition bind {A B} (m : M A) (f : A -> M B) : M B :=
  match m with
  | (t, Ok a) => let (t', r) := f a in (t ++ t', r)
  | (t, Err e) => (t, Err e)
  | (t, Panic) => (t, Panic)
  end.

Definition call (c : Call) : M unit := ([c], Ok tt).

Definition klog (l : LogEntry) : M unit := call (Klog l).

(** A function that only writes klog lines, run inside a traced one. *)
Definition klogs {A} (m : list LogEntry * result A) : M A :=
  (map Klog (fst m), snd m).

(** A result without a call. *)
Definition lift {A} (r : result A) : M A := ([], r).

#[global] Instance M_ret : MRet M := @ret.
#[global] Instance M_bind : MBind M := fun A B f m => bind m f.

(** ** utils.go and controller.go *)

Section Controller.

(** [json.Unmarshal] into a nil [[]*types.NetworkSelectionElement] and
    into an empty [[]types.NetworkStatus]: the destination after the call
    and the error. An element [None] is a nil pointer. *)
Variable json_Unmarshal_selections :
  string -> list (option NetworkSelectionElement) * option error.
Variable json_Unmarshal_statuses :
  string -> list NetworkStatus * option error.

(** [podutil.FindPort(pod, &svc.Spec.Ports[i])]: the port number and the
    error. *)
Variable FindPort : Pod -> ServicePort -> Z * option error.

(** How [%v] prints the recovered object. *)
Variable Sprint_NetAttachDef : NetworkAttachmentDefinition -> string.

(** *** utils.go *)

Definition getNetworkAnnotations (svc : Service) : string :=
  match svcAnnotations svc !! selectionsKey with
  | Some annotations => annotations
  | None => ""
  end.

Fixpoint isInNetworkSelectionElementsArray
  (name : string) (networks : list NetworkSelectionElement) : bool :=
  match networks with
  | [] => false
  | n :: rest =>
      if String.eqb name (Name n) then true
      else isInNetworkSelectionElementsArray name rest
  end.

(** The body of the loop that fills missing namespaces. *)
Definition fillNamespace (defaultNamespace : string) (e : NetworkSelectionElement)
  : NetworkSelectionElement :=
  if String.eqb (Namespace e) ""
  then mkNSE defaultNamespace (Name e) (InterfaceRequest e)
  else e.

(** The loop that fills missing namespaces; reading the namespace of a
    nil element panics. *)
Fixpoint fillNamespaces (defaultNamespace : string)
  (networkSelections : list (option NetworkSelectionElement))
  : result (list NetworkSelectionElement) :=
  match networkSelections with
  | [] => Ok []
  | None :: _ => Panic
  | Some e :: rest =>
      match fillNamespaces defaultNamespace rest with
      | Ok l => Ok (fillNamespace defaultNamespace e :: l)
      | r => r
      end
  end.

(** The loop over [strings.Split(podNetworks, ",")], appending to
    [networkSelections]. *)
Fixpoint parseUnits (units : list string) (defaultNamespace : string)
  (networkSelections : list (option NetworkSelectionElement))
  : list LogEntry * result (list (option NetworkSelectionElement)) :=
  match units with
  | [] => ([], Ok networkSelections)
  | networkSelection :: rest =>
      let networkSelection := strings.TrimSpace networkSelection in
      match parsePodNetworkSelectionElement networkSelection defaultNamespace with
      | (logs, Ok networkSelectionElement) =>
          let (logs', r) :=
            parseUnits rest defaultNamespace
              (networkSelections ++ [Some networkSelectionElement]) in
          (logs ++ logs', r)
      | (logs, Err err) =>
          let err := errors_Wrap err "error parsing network selection element" in
          (logs ++ [klog_Error err], Err err)
      | (logs, Panic) => (logs, Panic)
      end
  end.

Definition notJSON (podNetworks : string) (err : error) : LogEntry :=
  klog_V 4 ("'" +:+ podNetworks +:+ "' is not in JSON format: " +:+ Error err
            +:+ "... trying to parse as comma separated network selections list").

(** [parsePodNetworkSelections]: the klog lines it writes and what it
    returns. When the decoder fails, [networkSelections] still holds what
    the decoder stored before, and the loop over the units appends to
    it. *)
Definition parsePodNetworkSelections (podNetworks defaultNamespace : string)
  : list LogEntry * result (list NetworkSelectionElement) :=
  if (String.length podNetworks =? 0)%nat then
    let err := errors_New "empty string passed as network selection elements list" in
    ([klog_Error err], Err err)
  else
    match json_Unmarshal_selections podNetworks with
    | (networkSelections, None) =>
        ([], fillNamespaces defaultNamespace networkSelections)
    | (networkSelections, Some err) =>
        match parseUnits (strings.Split podNetworks ",") defaultNamespace
                networkSelections with
        | (logs, Ok networkSelections) =>
            (notJSON podNetworks err :: logs,
             fillNamespaces defaultNamespace networkSelections)
        | (logs, Err e) => (notJSON podNetworks err :: logs, Err e)
        | (logs, Panic) => (notJSON podNetworks err :: logs, Panic)
        end
    end.

(** The contract of the spec's section 4.1: what the parser returns. *)
Definition parseSelections (raw defaultNamespace : string)
  : result (list NetworkSelectionElement) :=
  snd (parsePodNetworkSelections raw defaultNamespace).

(** *** controller.go: sync *)

Definition joinSpace (l : list string) : string :=
  match l with
  | [] => ""
  | x :: rest => fold_left (fun acc y => acc +:+ " " +:+ y) rest x
  end.

(** How [%s] prints a [[]string]. *)
Definition Sprint_strings (l : list string) : string :=
  "[" +:+ joinSpace l +:+ "]".

Definition epAddress (pod : Pod) (ip : string) : EndpointAddress :=
  mkEndpointAddress ip (podNodeName pod)
    (mkObjectReference "Pod" (podName pod) (podNamespace pod)
       (podResourceVersion pod) (podUID pod)).

(** The loop over [networksStatus] of one pod. *)
Fixpoint podAddresses (pod : Pod) (annotations : string)
  (networks : list NetworkSelectionElement) (networksStatus : list NetworkStatus)
  : list LogEntry * list EndpointAddress :=
  match networksStatus with
  | [] => ([], [])
  | status :: rest =>
      let (logs, addresses) := podAddresses pod annotations networks rest in
      if isInNetworkSelectionElementsArray (statusName status) networks then
        (klog_V 3 ("processing pod " +:+ podNamespace pod +:+ "/" +:+ podName pod
                   +:+ ": found network " +:+ annotations
                   +:+ " interface " +:+ statusInterface status
                   +:+ " with IP addresses " +:+ Sprint_strings (statusIPs status))
           :: logs,
         map (epAddress pod) (statusIPs status) ++ addresses)
      else (logs, addresses)
  end.

(** The loop over [svc.Spec.Ports] for one pod. *)
Fixpoint podPorts (svc : Service) (pod : Pod) (svcPorts : list ServicePort)
  : list LogEntry * list EndpointPort :=
  match svcPorts with
  | [] => ([], [])
  | svcPort :: rest =>
      let (logs, ports) := podPorts svc pod rest in
      match FindPort pod svcPort with
      | (_, Some err) =>
          (klog_V 4 ("Could not find pod port for service " +:+ svcNamespace svc
                     +:+ "/" +:+ svcName svc +:+ ": " +:+ Error err
                     +:+ ", skipping...") :: logs,
           ports)
      | (portNumber, None) =>
          (logs,
           mkEndpointPort (int32 portNumber) (spProtocol svcPort) (spName svcPort)
             :: ports)
      end
  end.

(** The loop over the pods: the klog lines and the subsets appended. *)
Fixpoint podSubsets (svc : Service) (annotations : string)
  (networks : list NetworkSelectionElement) (pods : list Pod)
  : list LogEntry * list EndpointSubset :=
  match pods with
  | [] => ([], [])
  | pod :: rest =>
      let (logs', subsets) := podSubsets svc annotations networks rest in
      match json_Unmarshal_statuses (default "" (podAnnotations pod !! statusesKey)) with
      | (_, Some err) =>
          (klog_Warningf ("error reading pod networks status: " +:+ Error err) :: logs',
           subsets)
      | (networksStatus, None) =>
          let (alogs, addresses) := podAddresses pod annotations networks networksStatus in
          let (plogs, ports) := podPorts svc pod (svcPorts svc) in
          (alogs ++ plogs ++ logs', mkEndpointSubset addresses ports :: subsets)
      end
  end.

Definition multipleSelections : string :=
  "multiple network selections in the service spec are not supported".

(** A lister or client call: the call is traced, its answer is the
    result. *)
Definition ask {A} (c : Call) (answer : result A) : M A := ([c], answer).

(** [if err != nil { log; return err }] after a call. *)
Definition orLog {A} (m : M A) (line : error -> LogEntry) : M A :=
  match m with
  | (t, Err e) => (t ++ [Klog (line e)], Err e)
  | _ => m
  end.

Definition sync (c : NetworkController) (key : string) : M unit :=
  '(namespace, name) ← lift (cache.SplitMetaNamespaceKey key);
  svc ← ask (ServiceGet namespace name) (serviceLister_Get c namespace name);
  let annotations := getNetworkAnnotations svc in
  if (String.length annotations =? 0)%nat then
    fail (errors_New "no network annotations")
  else
    klog (klog_V 3 ("service network annotation found: " +:+ annotations));;
    networks ← klogs (parsePodNetworkSelections annotations namespace);
    if (1 <? List.length networks)%nat then
      let msg := multipleSelections in
      klog (klog_Warningf msg);;
      call (RecorderEvent
              (mkEvent (OnService svc) EventTypeWarning msg "Endpoints update aborted"));;
      fail (errors_New msg)
    else
      pods ← orLog (ask (PodsList (svcSelector svc))
                      (podsLister_List c (svcSelector svc)))
               (fun err => klog_V 4 ("error listing pods matching service selector: %s"
                                      +:+ Error err));
      ep ← orLog (ask (EndpointsGet namespace name)
                    (endpointsLister_Get c namespace name))
             (fun err => klog_V 4 ("error getting service endpoints: %s"
                                    +:+ Error err));
      subsets ← klogs (let (logs, subsets) := podSubsets svc annotations networks pods in
                       (logs, Ok subsets));
      let ep := mkEndpoints (epNamespace ep) (epName ep) (epResourceVersion ep)
                  [metav1.NewControllerRef svc]
                  (endpoints.RepackSubsets subsets) in
      orLog (ask (EndpointsUpdate ep)
               (match endpoints_Update c ep with
                | Some err => Err err
                | None => Ok tt
                end))
        (fun err => klog_Errorf ("error updating endpoint: " +:+ Error err));;
      klog (klog_Infof "endpoint updated successfully");;
      let msg := "Updated to use network " +:+ annotations in
      call (RecorderEvent
              (mkEvent (OnEndpoints ep) EventTypeNormal msg "Endpoints update successful"));;
      call (RecorderEvent
              (mkEvent (OnService svc) EventTypeNormal msg "Endpoints update successful"));;
      ret tt.

(** [processNextWorkItem]: [Ok false] stops the worker, [Ok true] lets it
    go on; the deferred [Done] runs on every way out of [sync]. *)
Definition processNextWorkItem (c : NetworkController) : M bool :=
  let (key, shouldQuit) := workqueue_Get c in
  if shouldQuit then ([WorkqueueGet], Ok false)
  else
    match sync c key with
    | (t, Ok _) => (WorkqueueGet :: t ++ [WorkqueueDone key], Ok true)
    | (t, Err err) =>
        (WorkqueueGet :: t ++ [Klog (klog_V 4 ("sync aborted: " +:+ Error err));
                               WorkqueueDone key],
         Ok true)
    | (t, Panic) => (WorkqueueGet :: t ++ [WorkqueueDone key], Panic)
    end.

(** *** controller.go: handleNetAttachDefDeleteEvent *)

(** Where the pod scan stands: it goes on, having made [gets] live [Get]
    calls so far, or the handler has returned, or it has panicked. *)
Inductive scan : Type :=
| Next (gets : nat)
| Returned
| Panicked.

Definition newline : string := String (ascii_of_nat 10) "".

Definition clearResourceVersion (nad : NetworkAttachmentDefinition)
  : NetworkAttachmentDefinition :=
  mkNetAttachDef (nadNamespace nad) (nadName nad) "" (nadConfig nad).

(** The loop over [podNetworks] of one pod. *)
Fixpoint scanNetworks (c : NetworkController) (nad : NetworkAttachmentDefinition)
  (pod : Pod) (podNetworks : list NetworkSelectionElement) (gets : nat)
  : list Call * scan :=
  let namespace := nadNamespace nad in
  let name := nadName nad in
  match podNetworks with
  | [] => ([], Next gets)
  | net :: rest =>
      if String.eqb (Namespace net) namespace && String.eqb (Name net) name then
        let uses :=
          Klog (klog_Infof ("pod " +:+ podName pod +:+ " uses net-attach-def "
                            +:+ namespace +:+ "/" +:+ name
                            +:+ " which needs to be recreated" +:+ newline)) in
        match netAttachDefs_Get c gets namespace name with
        | Some _ =>
            let recovered := clearResourceVersion nad in
            ([uses; NetAttachDefGet namespace name; NetAttachDefCreate recovered]
             ++ match netAttachDefs_Create c recovered with
                | Some err =>
                    [Klog (klog_Errorf ("error recreating recovered object: "
                                        +:+ Error err))]
                | None => []
                end
             ++ [Klog (klog_V 4 ("net-attach-def recovered: "
                                 +:+ Sprint_NetAttachDef recovered))],
             Returned)
        | None =>
            let (t, f) := scanNetworks c nad pod rest (S gets) in
            (uses :: NetAttachDefGet namespace name :: t, f)
        end
      else scanNetworks c nad pod rest gets
  end.

(** The loop over the pods. *)
Fixpoint scanPods (c : NetworkController) (nad : NetworkAttachmentDefinition)
  (pods : list Pod) (gets : nat) : list Call * scan :=
  match pods with
  | [] => ([], Next gets)
  | pod :: rest =>
      match podAnnotations pod !! selectionsKey with
      | None => scanPods c nad rest gets
      | Some netAnnotations =>
          match parsePodNetworkSelections netAnnotations (podNamespace pod) with
          | (logs, Err _) =>
              let (t, f) := scanPods c nad rest gets in (map Klog logs ++ t, f)
          | (logs, Panic) => (map Klog logs, Panicked)
          | (logs, Ok podNetworks) =>
              match scanNetworks c nad pod podNetworks gets with
              | (t, Next gets') =>
                  let (t', f) := scanPods c nad rest gets' in
                  (map Klog logs ++ t ++ t', f)
              | (t, f) => (map Klog logs ++ t, f)
              end
          end
      end
  end.

Definition handleNetAttachDefDeleteEvent (c : NetworkController) (obj : DeletedObject)
  : M unit :=
  let received := Klog (klog_V 3 "net-attach-def delete event received") in
  match obj with
  | DeletedFinalStateUnknown _ => ([received], Ok tt)
  | DeletedNetAttachDef nad =>
      let (t, f) := scanPods c nad (podsLister_ListAll c) 0 in
      (received
         :: Klog (klog_Infof ("handling deletion of " +:+ nadNamespace nad
                              +:+ "/" +:+ nadName nad))
         :: PodsListAll :: t,
       match f with Panicked => Panic | _ => Ok tt end)
  end.


(** *** utils.go: change filters *)

(** [objectChanged], on the resource versions [GetResourceVersion] gives
    for the two objects. *)
Definition objectChanged (previous current : string) : bool :=
  negb (String.eqb previous current).

Definition networkAnnotationsChanged (previous current : Service) : bool :=
  negb (String.eqb (getNetworkAnnotations previous) (getNetworkAnnotations current)).

(** The placeholder of utils.go, which no handler calls. *)
Definition networkStatusChanged (previous current : Pod) : bool := true.

(** *** controller.go: the event handlers *)

(** [serviceLister.GetPodServices(pod)], the services whose selector
    matches the pod. *)
Variable serviceLister_GetPodServices : Pod -> result (list Service).

Definition handleServiceEvent (obj : Notified Service) : list HandlerCall * result unit :=
  match MetaNamespaceKeyFunc obj with
  | Ok key => ([Controller (WorkqueueAddRateLimited key)], Ok tt)
  | Err err => ([HandleError err], Ok tt)
  | Panic => ([], Panic)
  end.

(** The loop over the services of a pod. *)
Fixpoint handleServiceEvents (services : list Service) : list HandlerCall :=
  match services with
  | [] => []
  | svc :: rest => fst (handleServiceEvent (Live svc)) ++ handleServiceEvents rest
  end.

Definition handlePodEvent (obj : Notified Pod) : list HandlerCall * result unit :=
  match obj with
  | Tombstone _ => ([], Ok tt)
  | Live pod =>
      match podAnnotations pod !! selectionsKey with
      | None =>
          ([Controller (Klog (klog_V 4 "skipping pod event: network annotations missing"))],
           Ok tt)
      | Some _ =>
          match serviceLister_GetPodServices pod with
          | Ok services => (GetPodServices pod :: handleServiceEvents services, Ok tt)
          | Err err =>
              ([GetPodServices pod;
                Controller (Klog (klog_V 4 ("skipping pod event: %s" +:+ Error err)))],
               Ok tt)
          | Panic => ([GetPodServices pod], Panic)
          end
      end
  end.

(** [handleEndpointEvent]: the type assertion on the object is unchecked,
    so a tombstone panics. *)
Definition handleEndpointEvent (c : NetworkController) (obj : Notified Endpoints)
  : list HandlerCall * result unit :=
  match obj with
  | Tombstone _ => ([], Panic)
  | Live ep =>
      match serviceLister_Get c (epNamespace ep) (epName ep) with
      | Ok svc =>
          let (t, r) := handleServiceEvent (Live svc) in
          (Controller (ServiceGet (epNamespace ep) (epName ep)) :: t, r)
      | Err _ => ([Controller (ServiceGet (epNamespace ep) (epName ep))], Ok tt)
      | Panic => ([Controller (ServiceGet (epNamespace ep) (epName ep))], Panic)
      end
  end.

Definition serviceOf (obj : Notified ServiceObject) : Notified Service :=
  match obj with
  | Live o => Live (soService o)
  | Tombstone key => Tombstone key
  end.

(** The handlers as [NewNetworkController] registers them with the four
    informers. *)
Definition dispatch (c : NetworkController) (n : Notification)
  : list HandlerCall * result unit :=
  match n with
  | ServiceAdded obj => handleServiceEvent (Live (soService obj))
  | ServiceUpdated old updated =>
      if objectChanged (soResourceVersion old) (soResourceVersion updated)
         || networkAnnotationsChanged (soService old) (soService updated)
      then handleServiceEvent (Live (soService updated))
      else ([], Ok tt)
  | ServiceDeleted obj => handleServiceEvent (serviceOf obj)
  | PodAdded obj => handlePodEvent (Live obj)
  | PodUpdated old updated =>
      if objectChanged (podResourceVersion old) (podResourceVersion updated)
      then handlePodEvent (Live updated)
      else ([], Ok tt)
  | PodDeleted obj => handlePodEvent obj
  | EndpointsAdded obj => handleEndpointEvent c (Live obj)
  | EndpointsUpdated old updated =>
      if objectChanged (epResourceVersion old) (epResourceVersion updated)
      then handleEndpointEvent c (Live updated)
      else ([], Ok tt)
  | EndpointsDeleted obj => handleEndpointEvent c obj
  | NetAttachDefAdded _ => ([], Ok tt)
  | NetAttachDefUpdated _ _ => ([], Ok tt)
  | NetAttachDefDeleted obj =>
      let (t, r) := handleNetAttachDefDeleteEvent c obj in (map Controller t, r)
  end.

(** *** controller.go: worker *)

(** [worker] over the answers the collaborators give at each turn of the
    loop [for c.processNextWorkItem() {}]. *)
Fixpoint worker (turns : list NetworkController) : list Call * WorkerEnd :=
  match turns with
  | [] => ([], WorkerWaiting)
  | c :: rest =>
      match processNextWorkItem c with
      | (t, Ok true) => let (t', e) := worker rest in (t ++ t', e)
      | (t, Ok false) => (t, WorkerStopped)
      | (t, _) => (t, WorkerPanicked)
      end
  end.

(** The calls on the live API in a trace. *)
Definition liveCalls (t : list Call) : list Call :=
  List.filter (fun c => isNetAttachDefGet c || isNetAttachDefCreate c) t.

Definition refersTo (nad : NetworkAttachmentDefinition)
  (net : NetworkSelectionElement) : bool :=
  String.eqb (Namespace net) (nadNamespace nad)
  && String.eqb (Name net) (nadName nad).

(** The number of selection elements that refer to the deleted object,
    over the pods in scan order: a pod without the annotation or with an
    annotation the parser refuses has none, and nothing is scanned after a
    pod on which the parser panics. *)
Fixpoint references (nad : NetworkAttachmentDefinition) (pods : list Pod) : nat :=
  match pods with
  | [] => 0
  | pod :: rest =>
      match podAnnotations pod !! selectionsKey with
      | None => references nad rest
      | Some netAnnotations =>
          match snd (parsePodNetworkSelections netAnnotations (podNamespace pod)) with
          | Ok podNetworks =>
              List.length (List.filter (refersTo nad) podNetworks)
              + references nad rest
          | Err _ => references nad rest
          | Panic => 0
          end
      end
  end.

(** The live calls for [k] references in a row, the first of them being
    live [Get] number [gets]: each reference is rechecked; a recheck that
    finds the object goes on to the next reference, a recheck that does
    not is followed by one [Create], and nothing more. *)
Fixpoint rechecks (c : NetworkController) (nad : NetworkAttachmentDefinition)
  (k gets : nat) : list Call :=
  match k with
  | O => []
  | S k' =>
      NetAttachDefGet (nadNamespace nad) (nadName nad)
        :: match netAttachDefs_Get c gets (nadNamespace nad) (nadName nad) with
           | Some _ => [NetAttachDefCreate (clearResourceVersion nad)]
           | None => rechecks c nad k' (S gets)
           end
  end.

(** *** The vocabulary of the statements *)

(** The three strings [parsePodNetworkSelectionElement] derives from a
    unit [[namespace "/"] name ["@" interface]], when the unit has at most
    one ["/"] and its name part at most one ["@"]. *)
Definition components (defaultNamespace selection : string)
  : option (string * string * string) :=
  let split (namespace name : string) :=
    match strings.Split name "@" with
    | [u0] => Some (namespace, u0, "")
    | [u0; u1] => Some (namespace, u0, u1)
    | _ => None
    end in
  match strings.Split selection "/" with
  | [u0] => split defaultNamespace u0
  | [u0; u1] => split u0 u1
  | _ => None
  end.

(** A unit the comma-separated path refuses. *)
Definition badUnit (defaultNamespace unit : string) : Prop :=
  1 < strings.Count unit "/"
  \/ 1 < strings.Count unit "@"
  \/ exists namespace name netInterface c,
       components defaultNamespace unit = Some (namespace, name, netInterface)
       /\ In c [namespace; name; netInterface]
       /\ c <> "" /\ regexp.MatchString c = false.

(** How the returned element [e] relates to the element [parsed] it was
    before the namespace fill. *)
Definition namespaceFilled (defaultNamespace : string)
  (parsed e : NetworkSelectionElement) : Prop :=
  Name e = Name parsed
  /\ InterfaceRequest e = InterfaceRequest parsed
  /\ (Namespace parsed = "" -> Namespace e = defaultNamespace)
  /\ (Namespace parsed <> "" -> Namespace e = Namespace parsed).

(** An event holds the two texts [a] and [b], one as its reason and the
    other as its message. *)
Definition carries (ev : Event) (a b : string) : Prop :=
  (evReason ev = a /\ evMessage ev = b) \/ (evReason ev = b /\ evMessage ev = a).

(** The network-status annotation of the pod is missing, or the decoder
    refuses its text. *)
Definition statusUnreadable (pod : Pod) : Prop :=
  podAnnotations pod !! statusesKey = None
  \/ exists text,
       podAnnotations pod !! statusesKey = Some text
       /\ snd (json_Unmarshal_statuses text) <> None.

(** What is left to do after a part of the scan. *)
Definition rest (c : NetworkController) (nad : NetworkAttachmentDefinition)
  (f : scan) (k : nat) : list Call :=
  match f with
  | Next gets => rechecks c nad k gets
  | _ => []
  end.

(** The port sets of a list of subsets are pairwise different, each
    compared with the ones after it. *)
Fixpoint distinct (ps : list (list EndpointPort)) : bool :=
  match ps with
  | [] => true
  | p :: ps' =>
      forallb (fun q => negb (endpoints.samePortSet p q)) ps' && distinct ps'
  end.

Definition addPorts (ps : list (list EndpointPort)) (p : list EndpointPort)
  : list (list EndpointPort) :=
  if existsb (fun q => endpoints.samePortSet q p) ps then ps else ps ++ [p].

(** A string that is empty or matches the label pattern. *)
Definition labelOrEmpty (s : string) : Prop :=
  s = "" \/ regexp.MatchString s = true.

(** The Endpoints objects a trace sends to the API, in order. *)
Fixpoint updates (t : list Call) : list Endpoints :=
  match t with
  | [] => []
  | EndpointsUpdate ep :: rest => ep :: updates rest
  | _ :: rest => updates rest
  end.

Definition isQueueCall (c : Call) : bool :=
  isWorkqueueGet c || isRequeue c || isDone c.

(** The status annotation of the pod is one the decoder accepts. *)
Definition statusReadable (pod : Pod) : bool :=
  match snd (json_Unmarshal_statuses (default "" (podAnnotations pod !! statusesKey))) with
  | None => true
  | Some _ => false
  end.

(** The subset the pod loop appends for a pod with a readable status. *)
Definition podSubset (svc : Service) (annotations : string)
  (networks : list NetworkSelectionElement) (pod : Pod) : EndpointSubset :=
  mkEndpointSubset
    (snd (podAddresses pod annotations networks
            (fst (json_Unmarshal_statuses
                    (default "" (podAnnotations pod !! statusesKey))))))
    (snd (podPorts svc pod (svcPorts svc))).

(** A turn on a queue that has not shut down, with a sync that does not
    panic. *)
Definition healthy (c : NetworkController) : Prop :=
  snd (workqueue_Get c) = false
  /\ snd (sync c (fst (workqueue_Get c))) <> Panic.

(** The key of a Service in the work queue. *)
Definition keyOf (svc : Service) : string :=
  if (0 <? String.length (svcNamespace svc))%nat
  then svcNamespace svc +:+ "/" +:+ svcName svc
  else svcName svc.

(** ** Facts about the string functions *)

Lemma Split_length s sep :
  List.length (strings.Split s sep) = S (strings.Count s sep).
Proof.
  induction s as [|c s IH]; simpl; [reflexivity|].
  destruct (Ascii.eqb c sep); simpl; [now rewrite IH|].
  destruct (strings.Split s sep); simpl in *; lia.
Qed.

Lemma Split_single s sep u : strings.Split s sep = [u] -> u = s.
Proof.
  revert u. induction s as [|c s IH]; simpl; intros u H.
  - now inversion H.
  - destruct (Ascii.eqb c sep).
    + pose proof (Split_length s sep) as L. inversion H as [[H1 H2]].
      rewrite H2 in L. simpl in L. lia.
    + destruct (strings.Split s sep) as [|v vs] eqn:E.
      * pose proof (Split_length s sep) as L. rewrite E in L. simpl in L. lia.
      * inversion H; subst. f_equal. now apply IH.
Qed.

(** A byte other than the separator occurs in the parts as often as in
    the whole. *)
Lemma Split_pair_Count s sep a b c :
  c <> sep -> strings.Split s sep = [a; b] ->
  strings.Count s c = strings.Count a c + strings.Count b c.
Proof.
  intros Hc. revert a b. induction s as [|d s IH]; simpl; intros a b H.
  - inversion H.
  - destruct (Ascii.eqb d sep) eqn:E.
    + apply Ascii.eqb_eq in E. subst d.
      inversion H as [[Ha Hb]]. apply Split_single in Hb. subst.
      simpl. destruct (Ascii.eqb sep c) eqn:E'; [|reflexivity].
      apply Ascii.eqb_eq in E'. congruence.
    + destruct (strings.Split s sep) as [|v vs] eqn:E'; [inversion H|].
      inversion H; subst. simpl. rewrite (IH v b eq_refl). lia.
Qed.

Lemma Count_pos_nonempty s c : 0 < strings.Count s c -> s <> "".
Proof. destruct s; simpl; [lia|discriminate]. Qed.

Lemma body_class s c :
  regexp.body s = true -> regexp.alnumDash c = false -> strings.Count s c = 0.
Proof.
  intros Hb Hc. induction s as [|d s IH]; [reflexivity|].
  simpl in Hb. simpl.
  assert (Hd : regexp.alnumDash d = true /\ (s = "" \/ regexp.body s = true)).
  { destruct s.
    - split; [|now left]. unfold regexp.alnumDash. rewrite Hb. apply orb_true_r.
    - apply andb_true_iff in Hb. destruct Hb. split; [assumption|now right]. }
  destruct Hd as [Hd Hs].
  destruct (Ascii.eqb d c) eqn:E.
  - apply Ascii.eqb_eq in E. congruence.
  - destruct Hs as [->|Hs]; [reflexivity|]. now rewrite IH.
Qed.

(** A string that matches the pattern holds bytes of [[-a-z0-9]] only. *)
Lemma MatchString_class s c :
  regexp.MatchString s = true -> regexp.alnumDash c = false ->
  strings.Count s c = 0.
Proof.
  intros Hm Hc. destruct s as [|d s]; [reflexivity|].
  simpl in Hm. apply andb_true_iff in Hm. destruct Hm as [Hd Hs].
  simpl. destruct (Ascii.eqb d c) eqn:E.
  - apply Ascii.eqb_eq in E. subst.
    unfold regexp.alnumDash in Hc. rewrite Hd in Hc.
    rewrite orb_true_r in Hc. discriminate.
  - destruct s; [reflexivity|]. now apply body_class.
Qed.

(** ** The parser *)

Lemma firstInvalidUnit_some units c :
  In c units -> c <> "" -> regexp.MatchString c = false ->
  firstInvalidUnit units <> None.
Proof.
  intros Hin Hne Hm. induction units as [|u units IH]; [inversion Hin|].
  simpl. destruct (negb (regexp.MatchString u) && (0 <? String.length u)%nat) eqn:E;
    [discriminate|].
  destruct Hin as [->|Hin]; [|now apply IH].
  rewrite Hm in E. destruct c; [congruence|discriminate].
Qed.

Lemma firstInvalidUnit_none units c :
  firstInvalidUnit units = None -> In c units ->
  c = "" \/ regexp.MatchString c = true.
Proof.
  intros Hn Hin. destruct c as [|a c]; [now left|right].
  destruct (regexp.MatchString (String a c)) eqn:E; [reflexivity|].
  exfalso.
  apply (firstInvalidUnit_some units (String a c) Hin); [discriminate|exact E|exact Hn].
Qed.

(** What [parsePodNetworkSelectionElement] returns, by the grammar. *)
Lemma parseElement_components selection defaultNamespace namespace name netInterface :
  components defaultNamespace selection = Some (namespace, name, netInterface) ->
  snd (parsePodNetworkSelectionElement selection defaultNamespace) =
    match firstInvalidUnit [namespace; name; netInterface] with
    | Some unit =>
        Err (errors_New
               ("at least one of the network selection units is invalid: error found at "
                +:+ quoted unit))
    | None => Ok (mkNSE namespace name netInterface)
    end.
Proof.
  unfold components, parsePodNetworkSelectionElement.
  destruct (strings.Split selection "/") as [|u0 [|u1 [|u2 us]]]; try discriminate.
  - destruct (strings.Split u0 "@") as [|v0 [|v1 [|v2 vs]]]; try discriminate;
      intros [= <- <- <-]; destruct (firstInvalidUnit _); reflexivity.
  - destruct (strings.Split u1 "@") as [|v0 [|v1 [|v2 vs]]]; try discriminate;
      intros [= <- <- <-]; destruct (firstInvalidUnit _); reflexivity.
Qed.

Lemma parseElement_no_components selection defaultNamespace :
  components defaultNamespace selection = None ->
  exists err, snd (parsePodNetworkSelectionElement selection defaultNamespace) = Err err.
Proof.
  unfold components, parsePodNetworkSelectionElement.
  destruct (strings.Split selection "/") as [|u0 [|u1 [|u2 us]]]; eauto.
  - destruct (strings.Split u0 "@") as [|v0 [|v1 [|v2 vs]]]; eauto; discriminate.
  - destruct (strings.Split u1 "@") as [|v0 [|v1 [|v2 vs]]]; eauto; discriminate.
Qed.

Lemma parseElement_no_panic selection defaultNamespace :
  snd (parsePodNetworkSelectionElement selection defaultNamespace) <> Panic.
Proof.
  destruct (components defaultNamespace selection) as [[[a b] c]|] eqn:E.
  - rewrite (parseElement_components _ _ _ _ _ E).
    destruct (firstInvalidUnit _); discriminate.
  - destruct (parseElement_no_components _ _ E) as [err ->]. discriminate.
Qed.

(** An element that is returned was built from the unit's components,
    each of them empty or matching the pattern. *)
Lemma parseElement_ok selection defaultNamespace e :
  snd (parsePodNetworkSelectionElement selection defaultNamespace) = Ok e ->
  components defaultNamespace selection
    = Some (Namespace e, Name e, InterfaceRequest e)
  /\ forall c, In c [Namespace e; Name e; InterfaceRequest e] ->
       c = "" \/ regexp.MatchString c = true.
Proof.
  intros H.
  destruct (components defaultNamespace selection) as [[[a b] c]|] eqn:E.
  - rewrite (parseElement_components _ _ _ _ _ E) in H.
    destruct (firstInvalidUnit [a; b; c]) eqn:F; [discriminate|].
    inversion H; subst; simpl. split; [reflexivity|].
    intros x Hx. eapply firstInvalidUnit_none; eauto.
  - destruct (parseElement_no_components _ _ E) as [err Herr]. congruence.
Qed.

(** A parser-level view of the three ways a unit is refused. *)
Lemma parseElement_badUnit defaultNamespace unit :
  badUnit defaultNamespace unit ->
  exists err, snd (parsePodNetworkSelectionElement unit defaultNamespace) = Err err.
Proof.
  intros Hbad.
  destruct (components defaultNamespace unit) as [[[namespace name] netInterface]|] eqn:E;
    [|now apply parseElement_no_components].
  rewrite (parseElement_components _ _ _ _ _ E).
  assert (Hinv : firstInvalidUnit [namespace; name; netInterface] <> None);
    [|destruct (firstInvalidUnit _); [eauto|congruence]].
  destruct Hbad as [Hslash|[Hat|(ns & n & i & c & Hc & Hin & Hne & Hm)]].
  - (* more than one "/" leaves no components *)
    exfalso. unfold components in E.
    pose proof (Split_length unit "/") as L.
    destruct (strings.Split unit "/") as [|u0 [|u1 [|u2 us]]];
      simpl in L; try discriminate; lia.
  - unfold components in E.
    destruct (strings.Split unit "/") as [|u0 [|u1 [|u2 us]]] eqn:S1; try discriminate.
    + (* no "/": the name part is the unit, with its "@"s *)
      apply Split_single in S1. subst u0. exfalso.
      pose proof (Split_length unit "@") as L.
      destruct (strings.Split unit "@") as [|v0 [|v1 [|v2 vs]]];
        simpl in L; try discriminate; lia.
    + (* one "/": an "@" too many sits in the namespace part *)
      pose proof (Split_pair_Count unit "/" u0 u1 "@" ltac:(discriminate) S1) as C.
      pose proof (Split_length u1 "@") as L.
      assert (Hu0 : 0 < strings.Count u0 "@").
      { destruct (strings.Split u1 "@") as [|v0 [|v1 [|v2 vs]]];
          simpl in L; try discriminate; lia. }
      assert (namespace = u0) as ->.
      { destruct (strings.Split u1 "@") as [|v0 [|v1 [|v2 vs]]];
          try discriminate; now inversion E. }
      apply (firstInvalidUnit_some _ u0); [now left|now apply (Count_pos_nonempty _ "@")|].
      destruct (regexp.MatchString u0) eqn:M; [|reflexivity].
      apply (MatchString_class _ "@") in M; [lia|reflexivity].
  - rewrite E in Hc. inversion Hc; subst.
    now apply (firstInvalidUnit_some _ c).
Qed.

(** The loop over the units stops with an error at the first unit that
    is refused. *)
Lemma parseUnits_error units defaultNamespace networkSelections unit :
  In unit (map strings.TrimSpace units) ->
  (exists err, snd (parsePodNetworkSelectionElement unit defaultNamespace) = Err err) ->
  exists err, snd (parseUnits units defaultNamespace networkSelections) = Err err.
Proof.
  intros Hin [err Herr]. revert networkSelections.
  induction units as [|u units IH]; intros acc; [inversion Hin|].
  simpl.
  destruct (parsePodNetworkSelectionElement (strings.TrimSpace u) defaultNamespace)
    as [logs [e|e|]] eqn:P.
  - destruct Hin as [Hu|Hin].
    + rewrite Hu in P. rewrite P in Herr. discriminate.
    + destruct (IH Hin (acc ++ [Some e])) as [err' Herr'].
      destruct (parseUnits units defaultNamespace (acc ++ [Some e])) as [logs' r].
      simpl in *. eauto.
  - simpl. eauto.
  - exfalso. apply (parseElement_no_panic (strings.TrimSpace u) defaultNamespace).
    now rewrite P.
Qed.

(** The elements the loop over the units appends. *)
Lemma parseUnits_ok units defaultNamespace networkSelections l :
  snd (parseUnits units defaultNamespace networkSelections) = Ok l ->
  exists es,
    l = networkSelections ++ map Some es
    /\ Forall2 (fun u e =>
                  snd (parsePodNetworkSelectionElement (strings.TrimSpace u)
                         defaultNamespace) = Ok e) units es.
Proof.
  revert networkSelections l.
  induction units as [|u units IH]; intros acc l; simpl.
  - intros [= <-]. exists []. simpl. rewrite app_nil_r. split; constructor.
  - destruct (parsePodNetworkSelectionElement (strings.TrimSpace u) defaultNamespace)
      as [logs [e|e|]] eqn:P; try discriminate.
    destruct (parseUnits units defaultNamespace (acc ++ [Some e])) as [logs' r] eqn:R.
    simpl. intros ->.
    destruct (IH (acc ++ [Some e]) l) as (es & -> & Hes); [now rewrite R|].
    exists (e :: es). split.
    + now rewrite <- app_assoc.
    + constructor; [now rewrite P|assumption].
Qed.

Lemma fillNamespaces_ok defaultNamespace elems :
  fillNamespaces defaultNamespace (map Some elems)
    = Ok (map (fillNamespace defaultNamespace) elems).
Proof.
  induction elems as [|e elems IH]; simpl; [reflexivity|]. now rewrite IH.
Qed.

Lemma fillNamespaces_inv defaultNamespace networkSelections l :
  fillNamespaces defaultNamespace networkSelections = Ok l ->
  exists elems,
    networkSelections = map Some elems
    /\ l = map (fillNamespace defaultNamespace) elems.
Proof.
  revert l. induction networkSelections as [|[e|] rest IH]; simpl; intros l H.
  - inversion H. now exists [].
  - destruct (fillNamespaces defaultNamespace rest) as [l'| |]; try discriminate.
    inversion H; subst. destruct (IH l' eq_refl) as (elems & -> & ->).
    now exists (e :: elems).
  - discriminate.
Qed.

Lemma length_zero_empty s : (String.length s =? 0)%nat = true <-> s = "".
Proof. destruct s; simpl; split; congruence. Qed.

(** C5: on the comma-separated path (the decoder has refused the input)
    a trimmed unit with more than one ["/"], with more than one ["@"], or
    with a non-empty component that does not match the label pattern
    makes the whole call return an error, and with it no list. *)
Theorem comma_path_bad_unit_is_error raw defaultNamespace decodeErr unit :
  snd (json_Unmarshal_selections raw) = Some decodeErr ->
  In unit (map strings.TrimSpace (strings.Split raw ",")) ->
  badUnit defaultNamespace unit ->
  exists err, parseSelections raw defaultNamespace = Err err.
Proof.
  intros Hjson Hin Hbad.
  unfold parseSelections, parsePodNetworkSelections.
  destruct (String.length raw =? 0)%nat; [simpl; eauto|].
  destruct (json_Unmarshal_selections raw) as [pre [e|]]; [|discriminate].
  destruct (parseUnits_error (strings.Split raw ",") defaultNamespace pre unit Hin
              (parseElement_badUnit _ _ Hbad)) as [err Herr].
  destruct (parseUnits _ _ _) as [logs r]. simpl in Herr. subst r.
  simpl. eauto.
Qed.

Lemma fillNamespace_filled defaultNamespace e :
  namespaceFilled defaultNamespace e (fillNamespace defaultNamespace e).
Proof.
  unfold namespaceFilled, fillNamespace.
  destruct (String.eqb (Namespace e) "") eqn:E; simpl.
  - apply String.eqb_eq in E. repeat split; congruence.
  - apply String.eqb_neq in E. repeat split; congruence.
Qed.

Lemma fillNamespace_explicit defaultNamespace e :
  Namespace e <> "" -> fillNamespace defaultNamespace e = e.
Proof.
  intros H. unfold fillNamespace.
  apply String.eqb_neq in H. now rewrite H.
Qed.

Lemma map_Some_app {A} (elems : list A) pre es :
  map Some elems = pre ++ map Some es ->
  exists pre', pre = map Some pre' /\ elems = pre' ++ es.
Proof.
  revert elems. induction pre as [|x pre IH]; intros elems H; simpl in H.
  - exists []. split; [reflexivity|]. simpl.
    revert es H. induction elems as [|a elems IHe]; intros [|b es] H;
      simpl in H; try discriminate; [reflexivity|].
    inversion H; subst. f_equal. now apply IHe.
  - destruct elems as [|a elems]; [discriminate|]. simpl in H.
    inversion H; subst.
    destruct (IH elems) as (pre' & -> & ->); [assumption|].
    now exists (a :: pre').
Qed.

(** C3, as amended: when the default namespace is not empty, every
    element of a returned list has a non-empty namespace; an element
    parsed with an empty namespace gets the default namespace, an element
    parsed with a namespace keeps it, and name and interface are left
    alone, in the same way for the elements the JSON decoder produced and
    for the elements parsed from comma-separated units. *)
Theorem parseSelections_fills_namespaces raw defaultNamespace l :
  defaultNamespace <> "" ->
  parseSelections raw defaultNamespace = Ok l ->
  Forall (fun e => Namespace e <> "") l
  /\ exists parsed,
       Forall2 (namespaceFilled defaultNamespace) parsed l
       /\ match json_Unmarshal_selections raw with
          | (decoded, None) => decoded = map Some parsed
          | (decoded, Some _) =>
              exists pre es,
                decoded = map Some pre /\ parsed = pre ++ es
                /\ Forall2 (fun unit e =>
                              snd (parsePodNetworkSelectionElement
                                     (strings.TrimSpace unit) defaultNamespace) = Ok e)
                     (strings.Split raw ",") es
          end.
Proof.
  intros Hns H.
  assert (Hfill : forall elems,
             Forall (fun e => Namespace e <> "")
               (map (fillNamespace defaultNamespace) elems)
             /\ Forall2 (namespaceFilled defaultNamespace) elems
                  (map (fillNamespace defaultNamespace) elems)).
  { induction elems as [|e elems [IH1 IH2]]; simpl; split; constructor; auto.
    - destruct (fillNamespace_filled defaultNamespace e) as (_ & _ & H1 & H2).
      destruct (String.eqb (Namespace e) "") eqn:E.
      + apply String.eqb_eq in E. now rewrite (H1 E).
      + apply String.eqb_neq in E. now rewrite (H2 E).
    - apply fillNamespace_filled. }
  unfold parseSelections, parsePodNetworkSelections in H.
  destruct (String.length raw =? 0)%nat; [discriminate|].
  destruct (json_Unmarshal_selections raw) as [decoded [e|]].
  - destruct (parseUnits (strings.Split raw ",") defaultNamespace decoded)
      as [logs [l0|e0|]] eqn:P; simpl in H; try discriminate.
    destruct (fillNamespaces_inv _ _ _ H) as (elems & -> & ->).
    destruct (parseUnits_ok (strings.Split raw ",") defaultNamespace decoded
                (map Some elems)) as (es & Happ & Hes); [now rewrite P|].
    destruct (map_Some_app _ _ _ Happ) as (pre & -> & ->).
    split; [apply Hfill|].
    exists (pre ++ es). split; [apply Hfill|]. now exists pre, es.
  - simpl in H. destruct (fillNamespaces_inv _ _ _ H) as (elems & -> & ->).
    split; [apply Hfill|]. exists elems. split; [apply Hfill|reflexivity].
Qed.

(** C9: elements that come out of the JSON decoder are returned without
    any check against the label pattern: whatever their names, the call
    succeeds and returns them, only with empty namespaces filled. A
    component [c] that is not empty and does not match the pattern thus
    passes on the JSON path, while every comma-separated input with a
    unit that has [c] as a component is refused. *)
Theorem json_path_skips_validation raw defaultNamespace elems e c :
  raw <> "" ->
  json_Unmarshal_selections raw = (map Some elems, None) ->
  In e elems ->
  In c [Namespace e; Name e; InterfaceRequest e] ->
  c <> "" -> regexp.MatchString c = false ->
  parseSelections raw defaultNamespace
    = Ok (map (fillNamespace defaultNamespace) elems)
  /\ (exists e', In e' (map (fillNamespace defaultNamespace) elems)
                 /\ In c [Namespace e'; Name e'; InterfaceRequest e'])
  /\ forall raw' defaultNamespace' decodeErr unit namespace name netInterface,
       snd (json_Unmarshal_selections raw') = Some decodeErr ->
       In unit (map strings.TrimSpace (strings.Split raw' ",")) ->
       components defaultNamespace' unit = Some (namespace, name, netInterface) ->
       In c [namespace; name; netInterface] ->
       exists err, parseSelections raw' defaultNamespace' = Err err.
Proof.
  intros Hraw Hjson He Hc Hne Hm. split; [|split].
  - unfold parseSelections, parsePodNetworkSelections.
    destruct (String.length raw =? 0)%nat eqn:L;
      [apply length_zero_empty in L; contradiction|].
    rewrite Hjson. simpl. apply fillNamespaces_ok.
  - exists (fillNamespace defaultNamespace e). split; [now apply in_map|].
    destruct (fillNamespace_filled defaultNamespace e) as (H1 & H2 & H3 & H4).
    rewrite H1, H2.
    destruct Hc as [<-|[<-|[<-|[]]]].
    + left. now apply H4.
    + right. now left.
    + right. right. now left.
  - intros raw' ns' decodeErr unit namespace name netInterface Hjson' Hin Hcomp Hcin.
    unfold parseSelections, parsePodNetworkSelections.
    destruct (String.length raw' =? 0)%nat; [simpl; eauto|].
    destruct (json_Unmarshal_selections raw') as [pre [e0|]]; [|discriminate].
    assert (Hbad : badUnit ns' unit).
    { right. right. exists namespace, name, netInterface, c. auto. }
    destruct (parseUnits_error (strings.Split raw' ",") ns' pre unit Hin
                (parseElement_badUnit _ _ Hbad)) as [err Herr].
    destruct (parseUnits _ _ _) as [logs r]. simpl in Herr. subst r.
    simpl. eauto.
Qed.

(** ** Traces *)

Lemma events_app t t' : events (t ++ t') = events t ++ events t'.
Proof.
  induction t as [|c t IH]; [reflexivity|].
  destruct c; simpl; rewrite ?IH; reflexivity.
Qed.

Lemma events_logs logs : events (map Klog logs) = [].
Proof. induction logs; simpl; auto. Qed.

Lemma count_app p t t' : count p (t ++ t') = count p t + count p t'.
Proof. unfold count. now rewrite List.filter_app, List.length_app. Qed.

Lemma count_logs p logs :
  (forall l, p (Klog l) = false) -> count p (map Klog logs) = 0.
Proof.
  intros Hp. unfold count. induction logs as [|l logs IH]; [reflexivity|].
  simpl. now rewrite Hp.
Qed.

Lemma filter_logs p logs :
  (forall l, p (Klog l) = false) -> List.filter p (map Klog logs) = [].
Proof.
  intros Hp. induction logs as [|l logs IH]; [reflexivity|].
  simpl. now rewrite Hp.
Qed.

Lemma parse_ok_nonempty podNetworks defaultNamespace logs networks :
  parsePodNetworkSelections podNetworks defaultNamespace = (logs, Ok networks) ->
  (String.length podNetworks =? 0)%nat = false.
Proof.
  unfold parsePodNetworkSelections.
  destruct (String.length podNetworks =? 0)%nat; [discriminate|reflexivity].
Qed.

(** ** The reconciler *)

(** [sync] as nested matches on the answers of its collaborators. *)
Ltac unfold_sync :=
  unfold sync, mbind, M_bind, bind, lift, ask, klog, call, klogs, fail, orLog,
    mret, M_ret, ret.

(** C1: a sync of a Service whose selection annotation parses to more
    than one element makes no call on the Endpoints lister or the
    Endpoints client, records one event, a Warning on the Service, and
    returns an error. *)
Theorem sync_multiple_selections_aborts c key namespace name svc logs networks :
  cache.SplitMetaNamespaceKey key = Ok (namespace, name) ->
  serviceLister_Get c namespace name = Ok svc ->
  parsePodNetworkSelections (getNetworkAnnotations svc) namespace
    = (logs, Ok networks) ->
  1 < List.length networks ->
  exists t,
    sync c key = (t, Err (errors_New multipleSelections))
    /\ count isEndpointsGet t = 0
    /\ count isEndpointsUpdate t = 0
    /\ events t = [mkEvent (OnService svc) EventTypeWarning multipleSelections
                     "Endpoints update aborted"].
Proof.
  intros Hkey Hsvc Hparse Hlen.
  unfold_sync.
  rewrite Hkey, Hsvc.
  rewrite (parse_ok_nonempty _ _ _ _ Hparse), Hparse. simpl.
  destruct (1 <? List.length networks)%nat eqn:L;
    [|apply Nat.ltb_ge in L; lia].
  eexists. split; [reflexivity|].
  unfold count. simpl.
  rewrite !List.filter_app, !List.length_app, events_app, events_logs.
  rewrite !filter_logs by reflexivity. auto.
Qed.

(** A sync in which every step succeeds: its trace and its result. *)
Lemma sync_success c key namespace name svc logs networks pods ep :
  cache.SplitMetaNamespaceKey key = Ok (namespace, name) ->
  serviceLister_Get c namespace name = Ok svc ->
  parsePodNetworkSelections (getNetworkAnnotations svc) namespace
    = (logs, Ok networks) ->
  List.length networks <= 1 ->
  podsLister_List c (svcSelector svc) = Ok pods ->
  endpointsLister_Get c namespace name = Ok ep ->
  let annotations := getNetworkAnnotations svc in
  let built := podSubsets svc annotations networks pods in
  let ep' := mkEndpoints (epNamespace ep) (epName ep) (epResourceVersion ep)
               [metav1.NewControllerRef svc]
               (endpoints.RepackSubsets (snd built)) in
  let msg := "Updated to use network " +:+ annotations in
  endpoints_Update c ep' = None ->
  sync c key =
    (ServiceGet namespace name
       :: Klog (klog_V 3 ("service network annotation found: " +:+ annotations))
       :: map Klog logs
       ++ PodsList (svcSelector svc) :: EndpointsGet namespace name
       :: map Klog (fst built)
       ++ [EndpointsUpdate ep';
           Klog (klog_Infof "endpoint updated successfully");
           RecorderEvent (mkEvent (OnEndpoints ep') EventTypeNormal msg
                            "Endpoints update successful");
           RecorderEvent (mkEvent (OnService svc) EventTypeNormal msg
                            "Endpoints update successful")],
     Ok tt).
Proof.
  intros Hkey Hsvc Hparse Hlen Hpods Hep annotations built ep' msg Hupd.
  subst annotations built ep' msg.
  unfold_sync.
  rewrite Hkey, Hsvc.
  rewrite (parse_ok_nonempty _ _ _ _ Hparse), Hparse. simpl.
  destruct (1 <? List.length networks)%nat eqn:L; [apply Nat.ltb_lt in L; lia|].
  rewrite Hpods, Hep.
  destruct (podSubsets svc (getNetworkAnnotations svc) networks pods)
    as [plogs subsets] eqn:B.
  simpl in *. rewrite Hupd. simpl.
  reflexivity.
Qed.

(** C4, as amended: when the Service of the key is not in the cache,
    [sync] makes no other call (no Endpoints read or write, no event, no
    klog line) and returns the lister's error; [processNextWorkItem]
    writes that error as one info line at verbosity 4, nothing at error
    or warning severity, marks the key done, does not add it to the
    queue again and lets the worker go on. *)
Theorem absent_service_aborts_sync c key namespace name err :
  cache.SplitMetaNamespaceKey key = Ok (namespace, name) ->
  serviceLister_Get c namespace name = Err err ->
  workqueue_Get c = (key, false) ->
  sync c key = ([ServiceGet namespace name], Err err)
  /\ exists t,
       processNextWorkItem c = (t, Ok true)
       /\ logLines t = [mkLog Info (Some 4) ("sync aborted: " +:+ Error err)]
       /\ events t = []
       /\ count isEndpointsGet t = 0
       /\ count isEndpointsUpdate t = 0
       /\ count isRequeue t = 0
       /\ In (WorkqueueDone key) t.
Proof.
  intros Hkey Hsvc Hget.
  assert (Hsync : sync c key = ([ServiceGet namespace name], Err err)).
  { unfold_sync. now rewrite Hkey, Hsvc. }
  split; [assumption|].
  unfold processNextWorkItem. rewrite Hget, Hsync.
  eexists. split; [reflexivity|]. simpl. repeat split; auto.
Qed.

(** The events of a sync, by the way it ends. *)
Lemma sync_events c key :
  let t := fst (sync c key) in
  let r := snd (sync c key) in
  (events t = [] /\ r <> Ok tt)
  \/ (exists namespace name svc,
        cache.SplitMetaNamespaceKey key = Ok (namespace, name)
        /\ serviceLister_Get c namespace name = Ok svc
        /\ r = Err (errors_New multipleSelections)
        /\ events t = [mkEvent (OnService svc) EventTypeWarning multipleSelections
                         "Endpoints update aborted"])
  \/ (exists namespace name svc ep,
        cache.SplitMetaNamespaceKey key = Ok (namespace, name)
        /\ serviceLister_Get c namespace name = Ok svc
        /\ r = Ok tt
        /\ In (EndpointsUpdate ep) t
        /\ let msg := "Updated to use network " +:+ getNetworkAnnotations svc in
           events t = [mkEvent (OnEndpoints ep) EventTypeNormal msg
                         "Endpoints update successful";
                       mkEvent (OnService svc) EventTypeNormal msg
                         "Endpoints update successful"]).
Proof.
  unfold_sync.
  destruct (cache.SplitMetaNamespaceKey key) as [[namespace name]|e|] eqn:Hkey;
    [|left; split; [reflexivity|discriminate]..].
  destruct (serviceLister_Get c namespace name) as [svc|e|] eqn:Hsvc;
    [|left; split; [reflexivity|discriminate]..].
  destruct (String.length (getNetworkAnnotations svc) =? 0)%nat;
    [left; split; [reflexivity|discriminate]|].
  destruct (parsePodNetworkSelections (getNetworkAnnotations svc) namespace)
    as [logs [networks|e|]]; simpl;
    [|left; rewrite events_logs; split; [reflexivity|discriminate]..].
  destruct (1 <? List.length networks)%nat.
  { right. left. exists namespace, name, svc. simpl.
    rewrite events_app, events_logs.
    split; [first [reflexivity|assumption]|].
    split; [first [reflexivity|assumption]|]. auto. }
  destruct (podsLister_List c (svcSelector svc)) as [pods|e|]; simpl;
    [|left; rewrite ?events_app, events_logs; split; [reflexivity|discriminate]..].
  destruct (endpointsLister_Get c namespace name) as [ep|e|]; simpl;
    [|left; rewrite ?events_app, events_logs; split; [reflexivity|discriminate]..].
  destruct (podSubsets svc (getNetworkAnnotations svc) networks pods)
    as [plogs subsets]. simpl.
  destruct (endpoints_Update c _) as [e|] eqn:Hupd; simpl.
  - left. rewrite !events_app, !events_logs. simpl.
    rewrite events_app, events_logs. split; [reflexivity|discriminate].
  - right. right. eexists namespace, name, svc, _.
    split; [first [reflexivity|assumption]|].
    split; [first [reflexivity|assumption]|].
    split; [reflexivity|]. split.
    + right. right. apply in_or_app. right. right. right.
      apply in_or_app. right. left. reflexivity.
    + rewrite !events_app, !events_logs. simpl.
      rewrite events_app, events_logs. reflexivity.
Qed.

(** C7, as amended: a sync records events in two cases only. When it
    aborts on a multiple selection it records one Warning on the Service
    that carries the fixed texts "Endpoints update aborted" and "multiple
    network selections in the service spec are not supported". When it
    succeeds it records a Normal event on the updated Endpoints and then
    one on the Service, each carrying the fixed text "Endpoints update
    successful" and the text "Updated to use network " followed by the
    selection annotation. *)
Theorem sync_event_texts c key :
  let t := fst (sync c key) in
  let r := snd (sync c key) in
  (events t = [] /\ r <> Ok tt)
  \/ (exists namespace name svc w,
        cache.SplitMetaNamespaceKey key = Ok (namespace, name)
        /\ serviceLister_Get c namespace name = Ok svc
        /\ r = Err (errors_New multipleSelections)
        /\ events t = [w]
        /\ evObject w = OnService svc
        /\ evType w = EventTypeWarning
        /\ carries w "Endpoints update aborted"
             "multiple network selections in the service spec are not supported")
  \/ (exists namespace name svc ep e1 e2,
        cache.SplitMetaNamespaceKey key = Ok (namespace, name)
        /\ serviceLister_Get c namespace name = Ok svc
        /\ r = Ok tt
        /\ In (EndpointsUpdate ep) t
        /\ events t = [e1; e2]
        /\ evObject e1 = OnEndpoints ep /\ evObject e2 = OnService svc
        /\ evType e1 = EventTypeNormal /\ evType e2 = EventTypeNormal
        /\ let msg := "Updated to use network " +:+ getNetworkAnnotations svc in
           carries e1 "Endpoints update successful" msg
           /\ carries e2 "Endpoints update successful" msg).
Proof.
  intros t r. subst t r.
  destruct (sync_events c key)
    as [H|[(namespace & name & svc & Hkey & Hsvc & Hr & Hev)
          |(namespace & name & svc & ep & Hkey & Hsvc & Hr & Hin & Hev)]].
  - now left.
  - right. left. eexists namespace, name, svc, _.
    repeat (split; [eassumption|]). simpl.
    repeat (split; [reflexivity|]). right. split; reflexivity.
  - right. right. eexists namespace, name, svc, ep, _, _.
    repeat (split; [eassumption|]). simpl.
    repeat (split; [reflexivity|]). split; right; split; reflexivity.
Qed.

(** The pod loop drops a pod whose status the decoder refuses. *)
Lemma podSubsets_skip svc annotations networks pods1 pod pods2 :
  snd (json_Unmarshal_statuses (default "" (podAnnotations pod !! statusesKey)))
    <> None ->
  snd (podSubsets svc annotations networks (pods1 ++ pod :: pods2))
    = snd (podSubsets svc annotations networks (pods1 ++ pods2)).
Proof.
  intros Hbad. induction pods1 as [|p pods1 IH]; simpl.
  - destruct (podSubsets svc annotations networks pods2) as [logs subsets].
    destruct (json_Unmarshal_statuses _) as [statuses [err|]]; [reflexivity|].
    now contradiction Hbad.
  - destruct (podSubsets svc annotations networks (pods1 ++ pod :: pods2))
      as [logs subsets].
    destruct (podSubsets svc annotations networks (pods1 ++ pods2))
      as [logs' subsets'].
    simpl in IH. subst subsets'.
    destruct (json_Unmarshal_statuses (default "" (podAnnotations p !! statusesKey)))
      as [statuses [err|]]; [reflexivity|].
    destruct (podAddresses p annotations networks statuses).
    destruct (podPorts svc p (svcPorts svc)). reflexivity.
Qed.

(** C8: a pod whose network-status annotation is missing or is refused
    by the JSON decoder adds nothing to the subsets (the decoder refuses
    the empty text a missing annotation reads as, like encoding/json
    does); the loop goes on with the other pods, and when the remaining
    steps succeed the sync writes the Endpoints computed from the other
    pods and returns without error. *)
Theorem sync_skips_pod_without_status
  c key namespace name svc logs networks pods1 pod pods2 ep :
  snd (json_Unmarshal_statuses "") <> None ->
  statusUnreadable pod ->
  cache.SplitMetaNamespaceKey key = Ok (namespace, name) ->
  serviceLister_Get c namespace name = Ok svc ->
  parsePodNetworkSelections (getNetworkAnnotations svc) namespace
    = (logs, Ok networks) ->
  List.length networks <= 1 ->
  podsLister_List c (svcSelector svc) = Ok (pods1 ++ pod :: pods2) ->
  endpointsLister_Get c namespace name = Ok ep ->
  let annotations := getNetworkAnnotations svc in
  let others := snd (podSubsets svc annotations networks (pods1 ++ pods2)) in
  let ep' := mkEndpoints (epNamespace ep) (epName ep) (epResourceVersion ep)
               [metav1.NewControllerRef svc] (endpoints.RepackSubsets others) in
  snd (podSubsets svc annotations networks (pods1 ++ pod :: pods2)) = others
  /\ (endpoints_Update c ep' = None ->
      snd (sync c key) = Ok tt /\ In (EndpointsUpdate ep') (fst (sync c key))).
Proof.
  intros Hempty Hbad Hkey Hsvc Hparse Hlen Hpods Hep annotations others ep'.
  assert (Hdec : snd (json_Unmarshal_statuses
                        (default "" (podAnnotations pod !! statusesKey))) <> None).
  { destruct Hbad as [Hnone|(text & Hsome & Htext)].
    - now rewrite Hnone.
    - now rewrite Hsome. }
  pose proof (podSubsets_skip svc annotations networks pods1 pod pods2 Hdec) as Hskip.
  split; [exact Hskip|].
  intros Hupd.
  pose proof (sync_success c key namespace name svc logs networks
                (pods1 ++ pod :: pods2) ep Hkey Hsvc Hparse Hlen Hpods Hep) as Hs.
  simpl in Hs. fold annotations in Hs. rewrite Hskip in Hs.
  fold others in Hs. fold ep' in Hs. rewrite (Hs Hupd). simpl.
  split; [reflexivity|].
  right. right. apply in_or_app. right. right. right.
  apply in_or_app. right. left. reflexivity.
Qed.

(** Only the names of the selection elements enter the match. *)
Lemma isIn_names name networks networks' :
  map Name networks = map Name networks' ->
  isInNetworkSelectionElementsArray name networks
    = isInNetworkSelectionElementsArray name networks'.
Proof.
  revert networks'. induction networks as [|n networks IH];
    intros [|n' networks'] H; try discriminate; [reflexivity|].
  simpl in *. inversion H as [[Hn Hrest]]. rewrite Hn.
  destruct (String.eqb name (Name n')); [reflexivity|]. now apply IH.
Qed.

Lemma podAddresses_names pod annotations networks networks' statuses :
  map Name networks = map Name networks' ->
  podAddresses pod annotations networks statuses
    = podAddresses pod annotations networks' statuses.
Proof.
  intros H. induction statuses as [|status statuses IH]; [reflexivity|].
  simpl. now rewrite IH, (isIn_names _ _ _ H).
Qed.

Lemma podAddresses_In pod annotations networks statuses status ip :
  In status statuses ->
  isInNetworkSelectionElementsArray (statusName status) networks = true ->
  In ip (statusIPs status) ->
  In (epAddress pod ip) (snd (podAddresses pod annotations networks statuses)).
Proof.
  intros Hin Hmatch Hip. induction statuses as [|st statuses IH]; [inversion Hin|].
  simpl. destruct (podAddresses pod annotations networks statuses) as [logs addrs].
  destruct Hin as [->|Hin].
  - rewrite Hmatch. simpl. apply in_or_app. left. now apply in_map.
  - specialize (IH Hin). simpl in IH.
    destruct (isInNetworkSelectionElementsArray (statusName st) networks); simpl;
      [apply in_or_app; now right|assumption].
Qed.

Lemma podSubsets_names svc annotations networks networks' pods :
  map Name networks = map Name networks' ->
  podSubsets svc annotations networks pods
    = podSubsets svc annotations networks' pods.
Proof.
  intros H. induction pods as [|p pods IH]; [reflexivity|].
  simpl. rewrite IH.
  destruct (podSubsets svc annotations networks' pods) as [logs subsets].
  destruct (json_Unmarshal_statuses (default "" (podAnnotations p !! statusesKey)))
    as [sts [err|]]; [reflexivity|].
  now rewrite (podAddresses_names _ _ _ _ _ H).
Qed.

(** C10: the match of a pod's status entries against the selected
    network compares names only. The subsets computed for two selections
    with the same names are the same whatever their namespaces, and a
    status entry named like the selected element gives its IPs as
    addresses of the pod's subset for every namespace the element may
    carry. *)
Theorem status_match_ignores_namespace
  svc annotations pod statuses status ip namespace netInterface :
  json_Unmarshal_statuses (default "" (podAnnotations pod !! statusesKey))
    = (statuses, None) ->
  In status statuses ->
  In ip (statusIPs status) ->
  (forall networks networks' pods,
      map Name networks = map Name networks' ->
      podSubsets svc annotations networks pods
        = podSubsets svc annotations networks' pods)
  /\ exists addresses ports,
       snd (podSubsets svc annotations
              [mkNSE namespace (statusName status) netInterface] [pod])
         = [mkEndpointSubset addresses ports]
       /\ In (epAddress pod ip) addresses.
Proof.
  intros Hdec Hin Hip. split; [apply podSubsets_names|].
  - simpl. rewrite Hdec.
    pose proof (podAddresses_In pod annotations
                  [mkNSE namespace (statusName status) netInterface]
                  statuses status ip Hin) as Haddr.
    destruct (podAddresses pod annotations _ statuses) as [alogs addresses].
    destruct (podPorts svc pod (svcPorts svc)) as [plogs ports].
    exists addresses, ports. split; [reflexivity|].
    apply Haddr; [|assumption]. simpl. now rewrite String.eqb_refl.
Qed.

(** ** The deletion recovery handler *)

Lemma liveCalls_app t t' : liveCalls (t ++ t') = liveCalls t ++ liveCalls t'.
Proof. apply List.filter_app. Qed.

Lemma liveCalls_logs logs : liveCalls (map Klog logs) = [].
Proof. now apply filter_logs. Qed.

Lemma scanNetworks_calls c nad pod podNetworks gets k :
  let (t, f) := scanNetworks c nad pod podNetworks gets in
  f <> Panicked
  /\ rechecks c nad (List.length (List.filter (refersTo nad) podNetworks) + k) gets
     = liveCalls t ++ rest c nad f k.
Proof.
  revert gets. induction podNetworks as [|net nets IH]; intros gets; simpl.
  - split; [discriminate|reflexivity].
  - unfold refersTo at 1.
    destruct (String.eqb (Namespace net) (nadNamespace nad)
              && String.eqb (Name net) (nadName nad)); [|apply IH].
    simpl.
    destruct (netAttachDefs_Get c gets (nadNamespace nad) (nadName nad)) as [err|].
    + split; [discriminate|].
      destruct (netAttachDefs_Create c (clearResourceVersion nad)); reflexivity.
    + specialize (IH (S gets)).
      destruct (scanNetworks c nad pod nets (S gets)) as [t f].
      destruct IH as [Hf IH]. split; [assumption|].
      simpl. now rewrite IH.
Qed.

Lemma scanPods_calls c nad pods gets :
  let (t, f) := scanPods c nad pods gets in
  match f with
  | Panicked => liveCalls t = rechecks c nad (references nad pods) gets
  | _ => forall k,
      rechecks c nad (references nad pods + k) gets = liveCalls t ++ rest c nad f k
  end.
Proof.
  revert gets. induction pods as [|pod pods IH]; intros gets; simpl.
  - intros k. reflexivity.
  - destruct (podAnnotations pod !! selectionsKey) as [netAnnotations|]; [|apply IH].
    destruct (parsePodNetworkSelections netAnnotations (podNamespace pod))
      as [logs [podNetworks|e|]]; simpl.
    + pose proof (scanNetworks_calls c nad pod podNetworks gets) as Hn.
      destruct (scanNetworks c nad pod podNetworks gets) as [t [gets'| |]].
      * specialize (IH gets').
        destruct (scanPods c nad pods gets') as [t' f'].
        destruct f' as [g| |].
        -- intros k. rewrite <- Nat.add_assoc.
           destruct (Hn (references nad pods + k)) as [_ ->].
           rewrite !liveCalls_app, liveCalls_logs. simpl.
           rewrite (IH k). now rewrite app_assoc.
        -- intros k. rewrite <- Nat.add_assoc.
           destruct (Hn (references nad pods + k)) as [_ ->].
           rewrite !liveCalls_app, liveCalls_logs. simpl.
           rewrite (IH k). now rewrite app_assoc.
        -- destruct (Hn (references nad pods)) as [_ ->].
           rewrite !liveCalls_app, liveCalls_logs. simpl. now rewrite IH.
      * intros k. rewrite <- Nat.add_assoc.
        destruct (Hn (references nad pods + k)) as [_ ->].
        now rewrite liveCalls_app, liveCalls_logs.
      * destruct (Hn 0) as [Hf _]. now contradiction Hf.
    + specialize (IH gets).
      destruct (scanPods c nad pods gets) as [t f].
      rewrite liveCalls_app, liveCalls_logs. exact IH.
    + now rewrite liveCalls_logs.
Qed.

Lemma rechecks_creates c nad k gets :
  count isNetAttachDefCreate (rechecks c nad k gets) <= 1.
Proof.
  revert gets. induction k as [|k IH]; intros gets; simpl; [unfold count; simpl; lia|].
  destruct (netAttachDefs_Get c gets (nadNamespace nad) (nadName nad)).
  - unfold count. simpl. lia.
  - apply IH.
Qed.

Lemma rechecks_found c nad k gets :
  (forall n, netAttachDefs_Get c n (nadNamespace nad) (nadName nad) = None) ->
  rechecks c nad k gets
    = repeat (NetAttachDefGet (nadNamespace nad) (nadName nad)) k.
Proof.
  intros Hlive. revert gets. induction k as [|k IH]; intros gets; simpl;
    [reflexivity|].
  now rewrite Hlive, IH.
Qed.

Lemma count_liveCalls t :
  count isNetAttachDefCreate (liveCalls t) = count isNetAttachDefCreate t.
Proof.
  unfold count, liveCalls. induction t as [|c t IH]; [reflexivity|].
  destruct c; simpl; auto.
Qed.

(** C2, as amended: over the pods in scan order, every selection element
    that refers to the deleted object is rechecked against the live API.
    The scan ends at the first recheck that does not find the object:
    one create call follows it and the handler returns. A recheck that
    finds the object is followed by no create call, and the scan goes on
    with the remaining elements and pods. At most one create call is
    made in a run. *)
Theorem deletion_recovery_calls c nad :
  let t := fst (handleNetAttachDefDeleteEvent c (DeletedNetAttachDef nad)) in
  let k := references nad (podsLister_ListAll c) in
  let get := NetAttachDefGet (nadNamespace nad) (nadName nad) in
  liveCalls t = rechecks c nad k 0
  /\ count isNetAttachDefCreate t <= 1
  /\ ((forall n, netAttachDefs_Get c n (nadNamespace nad) (nadName nad) = None) ->
      liveCalls t = repeat get k)
  /\ (0 < k ->
      netAttachDefs_Get c 0 (nadNamespace nad) (nadName nad) <> None ->
      liveCalls t = [get; NetAttachDefCreate (clearResourceVersion nad)]).
Proof.
  intros t k get.
  assert (Hcalls : liveCalls t = rechecks c nad k 0).
  { subst t k. unfold handleNetAttachDefDeleteEvent.
    pose proof (scanPods_calls c nad (podsLister_ListAll c) 0) as H.
    destruct (scanPods c nad (podsLister_ListAll c) 0) as [t f]. simpl.
    destruct f as [g| |].
    - specialize (H 0). rewrite Nat.add_0_r in H. rewrite H. simpl.
      now rewrite app_nil_r.
    - specialize (H 0). rewrite Nat.add_0_r in H. rewrite H. simpl.
      now rewrite app_nil_r.
    - exact H. }
  split; [exact Hcalls|]. split; [|split].
  - rewrite <- count_liveCalls, Hcalls. apply rechecks_creates.
  - intros Hlive. rewrite Hcalls. now apply rechecks_found.
  - intros Hk Habsent. rewrite Hcalls.
    destruct k as [|k']; [lia|]. simpl.
    destruct (netAttachDefs_Get c 0 (nadNamespace nad) (nadName nad));
      [reflexivity|congruence].
Qed.

(** ** Repacking *)

Lemma addSubset_ports packed s :
  map Ports (endpoints.addSubset packed s) = addPorts (map Ports packed) (Ports s).
Proof.
  unfold addPorts. induction packed as [|g packed IH]; [reflexivity|].
  simpl. destruct (endpoints.samePortSet (Ports g) (Ports s)); [reflexivity|].
  simpl. rewrite IH.
  destruct (existsb _ (map Ports packed)); reflexivity.
Qed.

Lemma distinct_snoc ps p :
  distinct ps = true ->
  existsb (fun q => endpoints.samePortSet q p) ps = false ->
  distinct (ps ++ [p]) = true.
Proof.
  induction ps as [|q ps IH]; simpl; [reflexivity|].
  intros Hd Hex. apply andb_true_iff in Hd. destruct Hd as [Hq Hd].
  apply orb_false_iff in Hex. destruct Hex as [Hqp Hex].
  rewrite forallb_app, Hq, (IH Hd Hex). simpl. now rewrite Hqp.
Qed.

Lemma distinct_addPorts ps p : distinct ps = true -> distinct (addPorts ps p) = true.
Proof.
  intros Hd. unfold addPorts.
  destruct (existsb _ ps) eqn:E; [assumption|now apply distinct_snoc].
Qed.

Lemma distinct_fold subsets packed :
  distinct (map Ports packed) = true ->
  distinct (map Ports (fold_left endpoints.addSubset subsets packed)) = true.
Proof.
  revert packed. induction subsets as [|s subsets IH]; intros packed Hd;
    [assumption|].
  simpl. apply IH. rewrite addSubset_ports. now apply distinct_addPorts.
Qed.

Lemma distinct_app_fresh ps p qs :
  distinct (ps ++ p :: qs) = true ->
  existsb (fun q => endpoints.samePortSet q p) ps = false.
Proof.
  induction ps as [|q ps IH]; simpl; [reflexivity|].
  intros Hd. apply andb_true_iff in Hd. destruct Hd as [Hq Hd].
  rewrite (IH Hd), orb_false_r.
  rewrite forallb_app in Hq. apply andb_true_iff in Hq. destruct Hq as [_ Hq].
  simpl in Hq. apply andb_true_iff in Hq. destruct Hq as [Hq _].
  now apply negb_true_iff in Hq.
Qed.

Lemma addSubset_fresh packed s :
  existsb (fun q => endpoints.samePortSet q (Ports s)) (map Ports packed) = false ->
  endpoints.addSubset packed s = packed ++ [s].
Proof.
  induction packed as [|g packed IH]; simpl; [reflexivity|].
  intros H. apply orb_false_iff in H. destruct H as [Hg H].
  now rewrite Hg, (IH H).
Qed.

(** Subsets with pairwise different port sets are packed already. *)
Lemma fold_distinct subsets packed :
  distinct (map Ports (packed ++ subsets)) = true ->
  fold_left endpoints.addSubset subsets packed = packed ++ subsets.
Proof.
  revert packed. induction subsets as [|s subsets IH]; intros packed Hd; simpl.
  - now rewrite app_nil_r.
  - rewrite addSubset_fresh.
    + rewrite IH; rewrite <- app_assoc; [reflexivity|exact Hd].
    + rewrite map_app in Hd. simpl in Hd. now apply distinct_app_fresh in Hd.
Qed.

(** C6: repacking is idempotent: repacking a repacked list of subsets
    gives the same list. *)
Theorem RepackSubsets_idempotent subsets :
  endpoints.RepackSubsets (endpoints.RepackSubsets subsets)
    = endpoints.RepackSubsets subsets.
Proof.
  unfold endpoints.RepackSubsets.
  apply (fold_distinct (fold_left endpoints.addSubset subsets []) []).
  simpl. now apply distinct_fold.
Qed.

(** ** More on the parser *)

Lemma Count_append a b c :
  strings.Count (a +:+ b) c = strings.Count a c + strings.Count b c.
Proof.
  induction a as [|d a IH]; [reflexivity|].
  change (String d a +:+ b) with (String d (a +:+ b)). simpl. rewrite IH. lia.
Qed.

Lemma Split_no_sep s sep : strings.Count s sep = 0 -> strings.Split s sep = [s].
Proof.
  induction s as [|c s IH]; simpl; [reflexivity|].
  destruct (Ascii.eqb c sep); [discriminate|].
  simpl. intros H. now rewrite (IH H).
Qed.

Lemma Split_at_sep a b sep :
  strings.Count a sep = 0 ->
  strings.Split (a +:+ String sep b) sep = a :: strings.Split b sep.
Proof.
  induction a as [|c a IH]; intros H.
  - change ("" +:+ String sep b) with (String sep b). simpl.
    now rewrite Ascii.eqb_refl.
  - change (String c a +:+ String sep b) with (String c (a +:+ String sep b)).
    simpl in *. destruct (Ascii.eqb c sep); [discriminate|].
    simpl in H. now rewrite (IH H).
Qed.

Lemma labelOrEmpty_class s c :
  labelOrEmpty s -> regexp.alnumDash c = false -> strings.Count s c = 0.
Proof.
  intros [->|H] Hc; [reflexivity|now apply MatchString_class].
Qed.

Lemma firstInvalidUnit_labels units :
  Forall labelOrEmpty units -> firstInvalidUnit units = None.
Proof.
  induction 1 as [|u units Hu _ IH]; [reflexivity|].
  simpl. destruct Hu as [->|Hu]; [exact IH|]. now rewrite Hu.
Qed.

Lemma firstInvalidUnit_inv units u :
  firstInvalidUnit units = Some u ->
  In u units /\ u <> "" /\ regexp.MatchString u = false.
Proof.
  induction units as [|v units IH]; [discriminate|]. simpl.
  destruct (negb (regexp.MatchString v) && (0 <? String.length v)%nat) eqn:E.
  - intros [= <-]. apply andb_true_iff in E. destruct E as [E1 E2].
    split; [now left|]. split.
    + intros ->. discriminate.
    + now apply negb_true_iff in E1.
  - intros H. destruct (IH H) as (H1 & H2 & H3). split; [now right|auto].
Qed.

(** The element parser writes one error line per error it returns and
    nothing else. *)
Lemma parseElement_logs selection defaultNamespace :
  let (logs, r) := parsePodNetworkSelectionElement selection defaultNamespace in
  match r with
  | Ok _ => logs = []
  | Err err => logs = [klog_Error err]
  | Panic => False
  end.
Proof.
  unfold parsePodNetworkSelectionElement.
  destruct (strings.Split selection "/") as [|u0 [|u1 [|u2 us]]]; try reflexivity.
  - destruct (strings.Split u0 "@") as [|v0 [|v1 [|v2 vs]]]; try reflexivity;
      destruct (firstInvalidUnit _); reflexivity.
  - destruct (strings.Split u1 "@") as [|v0 [|v1 [|v2 vs]]]; try reflexivity;
      destruct (firstInvalidUnit _); reflexivity.
Qed.

(** X1: writing and parsing a unit is a round trip. For a namespace, a
    name and an interface that are each empty or a label, the unit
    namespace/name@interface parses to exactly these three fields; and a
    bare name that is empty or a label parses to that name in the default
    namespace, provided the default namespace is empty or a label. No klog
    line is written. *)
Theorem parseElement_roundtrip namespace name netInterface defaultNamespace :
  labelOrEmpty namespace -> labelOrEmpty name -> labelOrEmpty netInterface ->
  parsePodNetworkSelectionElement
    (namespace +:+ "/" +:+ name +:+ "@" +:+ netInterface) defaultNamespace
    = ([], Ok (mkNSE namespace name netInterface))
  /\ (labelOrEmpty defaultNamespace ->
      parsePodNetworkSelectionElement name defaultNamespace
        = ([], Ok (mkNSE defaultNamespace name ""))).
Proof.
  intros Hns Hname Hif.
  assert (Hc : forall s c, labelOrEmpty s -> regexp.alnumDash c = false ->
                           strings.Count s c = 0)
    by (intros; now apply labelOrEmpty_class).
  split.
  - unfold parsePodNetworkSelectionElement.
    change (namespace +:+ "/" +:+ name +:+ "@" +:+ netInterface)
      with (namespace +:+ String "/" (name +:+ String "@" netInterface)).
    rewrite Split_at_sep by (now apply Hc).
    rewrite (Split_no_sep (name +:+ String "@" netInterface) "/").
    + rewrite Split_at_sep by (now apply Hc).
      rewrite Split_no_sep by (now apply Hc).
      rewrite firstInvalidUnit_labels; [reflexivity|].
      repeat (constructor; [assumption|]). constructor.
    + rewrite Count_append. simpl.
      rewrite (Hc name "/"%char), (Hc netInterface "/"%char); auto.
  - intros Hd. unfold parsePodNetworkSelectionElement.
    rewrite Split_no_sep by (now apply Hc).
    rewrite Split_no_sep by (now apply Hc).
    rewrite firstInvalidUnit_labels; [reflexivity|].
    repeat (constructor; [assumption|]).
    constructor; [now left|constructor].
Qed.

Lemma components_none defaultNamespace unit :
  components defaultNamespace unit = None ->
  1 < strings.Count unit "/" \/ 1 < strings.Count unit "@".
Proof.
  unfold components. pose proof (Split_length unit "/") as L.
  destruct (strings.Split unit "/") as [|u0 [|u1 [|u2 us]]] eqn:S1; simpl in L.
  - lia.
  - apply Split_single in S1. subst u0.
    pose proof (Split_length unit "@") as L'.
    destruct (strings.Split unit "@") as [|v0 [|v1 [|v2 vs]]];
      simpl in L'; try discriminate; intros _; right; lia.
  - pose proof (Split_pair_Count unit "/" u0 u1 "@" ltac:(discriminate) S1) as C.
    pose proof (Split_length u1 "@") as L'.
    destruct (strings.Split u1 "@") as [|v0 [|v1 [|v2 vs]]];
      simpl in L'; try discriminate; intros _; right; lia.
  - intros _. left. lia.
Qed.

(** The element parser refuses the bad units only. *)
Lemma parseElement_error_badUnit defaultNamespace unit err :
  snd (parsePodNetworkSelectionElement unit defaultNamespace) = Err err ->
  badUnit defaultNamespace unit.
Proof.
  intros H.
  destruct (components defaultNamespace unit) as [[[a b] c]|] eqn:E.
  - rewrite (parseElement_components _ _ _ _ _ E) in H.
    destruct (firstInvalidUnit [a; b; c]) as [u|] eqn:F; [|discriminate].
    destruct (firstInvalidUnit_inv _ _ F) as (H1 & H2 & H3).
    right. right. exists a, b, c, u. auto.
  - destruct (components_none _ _ E); [now left|right; now left].
Qed.

Lemma parseUnits_error_inv units defaultNamespace networkSelections err :
  snd (parseUnits units defaultNamespace networkSelections) = Err err ->
  exists unit err',
    In unit (map strings.TrimSpace units)
    /\ snd (parsePodNetworkSelectionElement unit defaultNamespace) = Err err'.
Proof.
  revert networkSelections. induction units as [|u units IH]; intros acc; simpl;
    [discriminate|].
  destruct (parsePodNetworkSelectionElement (strings.TrimSpace u) defaultNamespace)
    as [logs [e|e|]] eqn:P; simpl; try discriminate.
  - destruct (parseUnits units defaultNamespace (acc ++ [Some e])) as [logs' r] eqn:R.
    simpl. intros ->.
    destruct (IH (acc ++ [Some e])) as (unit & err' & Hin & Herr); [now rewrite R|].
    exists unit, err'. split; [now right|assumption].
  - intros _. exists (strings.TrimSpace u), e. split; [now left|now rewrite P].
Qed.

Lemma parseUnits_no_panic units defaultNamespace networkSelections :
  snd (parseUnits units defaultNamespace networkSelections) <> Panic.
Proof.
  revert networkSelections. induction units as [|u units IH]; intros acc; simpl;
    [discriminate|].
  pose proof (parseElement_no_panic (strings.TrimSpace u) defaultNamespace) as Hp.
  destruct (parsePodNetworkSelectionElement (strings.TrimSpace u) defaultNamespace)
    as [logs [e|e|]]; simpl in *; [|discriminate|congruence].
  specialize (IH (acc ++ [Some e])).
  destruct (parseUnits units defaultNamespace (acc ++ [Some e])). exact IH.
Qed.

(** X2: the comma-separated path, exactly. When the decoder refuses a
    non-empty input and has stored nothing, the call returns an error if
    and only if some trimmed unit is bad; otherwise it returns one element
    per unit, that is one more than the input has commas, and it never
    panics. *)
Theorem comma_path_exact raw defaultNamespace decodeErr :
  raw <> "" ->
  json_Unmarshal_selections raw = ([], Some decodeErr) ->
  (isErr (parseSelections raw defaultNamespace) = true <->
   exists unit,
     In unit (map strings.TrimSpace (strings.Split raw ","))
     /\ badUnit defaultNamespace unit)
  /\ (isErr (parseSelections raw defaultNamespace) = false ->
      exists l,
        parseSelections raw defaultNamespace = Ok l
        /\ List.length l = S (strings.Count raw ",")).
Proof.
  intros Hraw Hjson.
  unfold parseSelections, parsePodNetworkSelections.
  destruct (String.length raw =? 0)%nat eqn:L;
    [apply length_zero_empty in L; contradiction|].
  rewrite Hjson.
  pose proof (parseUnits_no_panic (strings.Split raw ",") defaultNamespace []) as Hnp.
  destruct (parseUnits (strings.Split raw ",") defaultNamespace [])
    as [logs [l0|e|]] eqn:P; simpl in *; [| |congruence].
  - destruct (parseUnits_ok (strings.Split raw ",") defaultNamespace [] l0)
      as (es & -> & Hes); [now rewrite P|].
    simpl. rewrite fillNamespaces_ok. simpl. split.
    + split; [discriminate|].
      intros (unit & Hin & Hbad).
      destruct (parseUnits_error (strings.Split raw ",") defaultNamespace [] unit Hin
                  (parseElement_badUnit _ _ Hbad)) as [err Herr].
      rewrite P in Herr. discriminate.
    + intros _. eexists. split; [reflexivity|].
      rewrite List.length_map, <- (Forall2_length _ _ _ Hes). apply Split_length.
  - split; [|discriminate]. split; [|reflexivity].
    intros _.
    destruct (parseUnits_error_inv (strings.Split raw ",") defaultNamespace [] e)
      as (unit & err' & Hin & Herr); [now rewrite P|].
    exists unit. split; [assumption|]. eapply parseElement_error_badUnit; eauto.
Qed.

(** X3: what the comma-separated path lets through. When the decoder
    refuses the input and has stored nothing, every element of a returned
    list has a name and an interface that are each empty or a label, and a
    namespace that is a label or the default namespace as it was passed. *)
Theorem comma_path_validated raw defaultNamespace decodeErr l :
  json_Unmarshal_selections raw = ([], Some decodeErr) ->
  parseSelections raw defaultNamespace = Ok l ->
  Forall (fun e =>
            labelOrEmpty (Name e) /\ labelOrEmpty (InterfaceRequest e)
            /\ (Namespace e = defaultNamespace
                \/ regexp.MatchString (Namespace e) = true)) l.
Proof.
  intros Hjson H.
  unfold parseSelections, parsePodNetworkSelections in H.
  destruct (String.length raw =? 0)%nat; [discriminate|].
  rewrite Hjson in H.
  destruct (parseUnits (strings.Split raw ",") defaultNamespace [])
    as [logs [l0|e|]] eqn:P; simpl in H; try discriminate.
  destruct (parseUnits_ok (strings.Split raw ",") defaultNamespace [] l0)
    as (es & -> & Hes); [now rewrite P|].
  simpl in H. rewrite fillNamespaces_ok in H. inversion H; subst l. clear H P.
  induction Hes as [|u e units es Hu _ IH]; simpl; constructor; [|exact IH].
  destruct (parseElement_ok _ _ _ Hu) as [_ Hc].
  destruct (fillNamespace_filled defaultNamespace e) as (H1 & H2 & H3 & H4).
  rewrite H1, H2.
  split; [apply Hc; right; now left|].
  split; [apply Hc; right; right; now left|].
  destruct (Hc (Namespace e) ltac:(now left)) as [He|He].
  - left. now apply H3.
  - right. rewrite H4; [assumption|]. intros E. rewrite E in He. discriminate.
Qed.

Lemma parseUnits_logs units defaultNamespace networkSelections :
  let (logs, r) := parseUnits units defaultNamespace networkSelections in
  match r with
  | Err err => In (klog_Error err) logs
  | _ => logs = []
  end.
Proof.
  revert networkSelections. induction units as [|u units IH]; intros acc; simpl;
    [reflexivity|].
  pose proof (parseElement_logs (strings.TrimSpace u) defaultNamespace) as Hl.
  destruct (parsePodNetworkSelectionElement (strings.TrimSpace u) defaultNamespace)
    as [logs [e|e|]]; [|apply in_or_app; right; now left|contradiction].
  subst logs. specialize (IH (acc ++ [Some e])).
  destruct (parseUnits units defaultNamespace (acc ++ [Some e])) as [logs' r].
  exact IH.
Qed.

Lemma fillNamespaces_no_error defaultNamespace networkSelections err :
  fillNamespaces defaultNamespace networkSelections <> Err err.
Proof.
  induction networkSelections as [|[x|] l IH]; simpl; try discriminate.
  destruct (fillNamespaces defaultNamespace l); try discriminate.
  intros [= ->]. now apply IH.
Qed.

(** The klog lines of the parser, by the way it ends. *)
Lemma parser_logs podNetworks defaultNamespace :
  let (logs, r) := parsePodNetworkSelections podNetworks defaultNamespace in
  match r with
  | Err err => In (mkLog ErrorLevel None (Error err)) logs
  | _ => Forall (fun l => logSeverity l = Info) logs /\ List.length logs <= 1
  end.
Proof.
  unfold parsePodNetworkSelections.
  destruct (String.length podNetworks =? 0)%nat; [now left|].
  destruct (json_Unmarshal_selections podNetworks) as [pre [e|]].
  - pose proof (parseUnits_logs (strings.Split podNetworks ",") defaultNamespace pre)
      as Hl.
    destruct (parseUnits (strings.Split podNetworks ",") defaultNamespace pre)
      as [logs [l0|e0|]].
    + subst logs.
      pose proof (fillNamespaces_no_error defaultNamespace l0) as Hf.
      destruct (fillNamespaces defaultNamespace l0);
        [|now contradiction (Hf e0)|];
        (split; [repeat constructor|simpl; lia]).
    + now right.
    + subst logs. split; [repeat constructor|simpl; lia].
  - pose proof (fillNamespaces_no_error defaultNamespace pre) as Hf.
    destruct (fillNamespaces defaultNamespace pre);
      [|now contradiction (Hf e)|]; (split; [constructor|simpl; lia]).
Qed.

(** X4: the parser logs what it returns. An error it returns has been
    written to klog at error severity, and a call that returns no error
    writes at most the one info line that announces the comma-separated
    path, and no error line. *)
Theorem parser_logs_its_errors podNetworks defaultNamespace :
  let logs := fst (parsePodNetworkSelections podNetworks defaultNamespace) in
  let r := snd (parsePodNetworkSelections podNetworks defaultNamespace) in
  (forall err, r = Err err -> In (mkLog ErrorLevel None (Error err)) logs)
  /\ (isErr r = false ->
      Forall (fun l => logSeverity l = Info) logs /\ List.length logs <= 1).
Proof.
  intros logs r. subst logs r.
  pose proof (parser_logs podNetworks defaultNamespace) as H.
  destruct (parsePodNetworkSelections podNetworks defaultNamespace) as [logs r].
  simpl. split.
  - intros err ->. exact H.
  - intros Hr. destruct r; [exact H|discriminate|exact H].
Qed.

(** ** More on the reconciler *)

Lemma updates_app t t' : updates (t ++ t') = updates t ++ updates t'.
Proof.
  induction t as [|c t IH]; [reflexivity|].
  destruct c; simpl; rewrite ?IH; reflexivity.
Qed.

Lemma updates_logs logs : updates (map Klog logs) = [].
Proof. induction logs; simpl; auto. Qed.

Lemma updates_In t ep : In (EndpointsUpdate ep) t <-> In ep (updates t).
Proof.
  induction t as [|c t IH]; [reflexivity|].
  destruct c; simpl; rewrite <- IH; split;
    try (intros [H|H]; [discriminate|exact H]); try (intros H; right; exact H).
  - intros [[= ->]|H]; [now left|now right].
  - intros [->|H]; [now left|now right].
Qed.

Lemma logLines_app t t' : logLines (t ++ t') = logLines t ++ logLines t'.
Proof.
  induction t as [|c t IH]; [reflexivity|].
  destruct c; simpl; rewrite ?IH; reflexivity.
Qed.

(** The one write of a sync, and how the sync ends on it. *)
Lemma sync_updates c key :
  let t := fst (sync c key) in
  let r := snd (sync c key) in
  (updates t = [] /\ r <> Ok tt)
  \/ exists namespace name svc ep0 subsets,
       cache.SplitMetaNamespaceKey key = Ok (namespace, name)
       /\ serviceLister_Get c namespace name = Ok svc
       /\ endpointsLister_Get c namespace name = Ok ep0
       /\ let ep := mkEndpoints (epNamespace ep0) (epName ep0) (epResourceVersion ep0)
                      [metav1.NewControllerRef svc] subsets in
          updates t = [ep]
          /\ ((r = Ok tt /\ endpoints_Update c ep = None)
              \/ exists err,
                   r = Err err /\ endpoints_Update c ep = Some err
                   /\ events t = []
                   /\ In (mkLog ErrorLevel None ("error updating endpoint: " +:+ Error err))
                        (logLines t)).
Proof.
  unfold_sync.
  destruct (cache.SplitMetaNamespaceKey key) as [[namespace name]|e|] eqn:Hkey;
    [|left; split; [reflexivity|discriminate]..].
  destruct (serviceLister_Get c namespace name) as [svc|e|] eqn:Hsvc;
    [|left; split; [reflexivity|discriminate]..].
  destruct (String.length (getNetworkAnnotations svc) =? 0)%nat;
    [left; split; [reflexivity|discriminate]|].
  destruct (parsePodNetworkSelections (getNetworkAnnotations svc) namespace)
    as [logs [networks|e|]]; simpl;
    [|left; rewrite updates_logs; split; [reflexivity|discriminate]..].
  destruct (1 <? List.length networks)%nat.
  { left. simpl. rewrite updates_app, updates_logs. split; [reflexivity|discriminate]. }
  destruct (podsLister_List c (svcSelector svc)) as [pods|e|]; simpl;
    [|left; rewrite ?updates_app, updates_logs; split; [reflexivity|discriminate]..].
  destruct (endpointsLister_Get c namespace name) as [ep|e|] eqn:Hep; simpl;
    [|left; rewrite ?updates_app, updates_logs; split; [reflexivity|discriminate]..].
  destruct (podSubsets svc (getNetworkAnnotations svc) networks pods)
    as [plogs subsets]. simpl.
  right. exists namespace, name, svc, ep, (endpoints.RepackSubsets subsets).
  split; [first [reflexivity|assumption]|].
  split; [first [reflexivity|assumption]|].
  split; [first [reflexivity|assumption]|].
  destruct (endpoints_Update c _) as [e|] eqn:Hupd; simpl.
  - rewrite !updates_app, !updates_logs. simpl. rewrite updates_app, updates_logs.
    split; [reflexivity|]. right. exists e.
    split; [reflexivity|]. split; [reflexivity|].
    rewrite !events_app, !events_logs. simpl. rewrite events_app, events_logs.
    split; [reflexivity|].
    rewrite !logLines_app. simpl. rewrite logLines_app.
    right. apply in_or_app. right. apply in_or_app. right. simpl. now left.
  - rewrite !updates_app, !updates_logs. simpl. rewrite updates_app, updates_logs.
    split; [reflexivity|]. left. split; reflexivity.
Qed.

Lemma count_updates t : count isEndpointsUpdate t = List.length (updates t).
Proof.
  unfold count. induction t as [|c t IH]; [reflexivity|].
  destruct c; simpl; auto.
Qed.

(** X5: a sync sends at most one update to the API, and it returns
    without error exactly when it has sent an update that the API
    accepted. *)
Theorem sync_ok_iff_update_accepted c key :
  let t := fst (sync c key) in
  count isEndpointsUpdate t <= 1
  /\ (snd (sync c key) = Ok tt <->
      exists ep, In (EndpointsUpdate ep) t /\ endpoints_Update c ep = None).
Proof.
  intros t. subst t. rewrite count_updates.
  destruct (sync_updates c key)
    as [[Hu Hr]|(ns & n & svc & ep0 & subsets & _ & _ & _ & Hu & Hend)].
  - rewrite Hu. split; [simpl; lia|]. split; [intros H; contradiction|].
    intros (ep & Hin & _). apply updates_In in Hin. rewrite Hu in Hin. inversion Hin.
  - simpl in Hu, Hend. rewrite Hu. split; [simpl; lia|]. split.
    + intros Hok. destruct Hend as [[_ Hacc]|(err & Hr & _)]; [|congruence].
      eexists. split; [apply updates_In; rewrite Hu; now left|exact Hacc].
    + intros (ep & Hin & Hacc). apply updates_In in Hin. rewrite Hu in Hin.
      destruct Hin as [<-|[]].
      destruct Hend as [[Hr _]|(err & _ & Hrej & _)]; [exact Hr|congruence].
Qed.

(** X6: what a sync writes. The object sent to the API is the cached
    Endpoints of the key's namespace and name, with its namespace, name and
    resource version unchanged and with its owner references replaced by
    one controller reference to the Service (version v1, kind Service, the
    Service's name and UID). *)
Theorem sync_written_endpoints c key ep :
  In (EndpointsUpdate ep) (fst (sync c key)) ->
  exists namespace name svc ep0,
    cache.SplitMetaNamespaceKey key = Ok (namespace, name)
    /\ serviceLister_Get c namespace name = Ok svc
    /\ endpointsLister_Get c namespace name = Ok ep0
    /\ epNamespace ep = epNamespace ep0
    /\ epName ep = epName ep0
    /\ epResourceVersion ep = epResourceVersion ep0
    /\ epOwnerReferences ep
       = [mkOwnerReference "v1" "Service" (svcName svc) (svcUID svc) true true].
Proof.
  intros Hin. apply updates_In in Hin.
  destruct (sync_updates c key)
    as [[Hu _]|(ns & n & svc & ep0 & subsets & Hkey & Hsvc & Hep & Hu & _)].
  - rewrite Hu in Hin. inversion Hin.
  - simpl in Hu. rewrite Hu in Hin. destruct Hin as [<-|[]].
    exists ns, n, svc, ep0. repeat (split; [assumption|]).
    repeat split; reflexivity.
Qed.

(** X7: an update the API refuses. The sync returns the API's error,
    writes it to klog at error severity and records no event. *)
Theorem sync_update_refused c key ep err :
  In (EndpointsUpdate ep) (fst (sync c key)) ->
  endpoints_Update c ep = Some err ->
  snd (sync c key) = Err err
  /\ events (fst (sync c key)) = []
  /\ In (mkLog ErrorLevel None ("error updating endpoint: " +:+ Error err))
       (logLines (fst (sync c key))).
Proof.
  intros Hin Hrej. apply updates_In in Hin.
  destruct (sync_updates c key)
    as [[Hu _]|(ns & n & svc & ep0 & subsets & _ & _ & _ & Hu & Hend)].
  - rewrite Hu in Hin. inversion Hin.
  - simpl in Hu, Hend. rewrite Hu in Hin. destruct Hin as [<-|[]].
    destruct Hend as [[_ Hacc]|(err' & Hr & Hrej' & Hev & Hlog)]; [congruence|].
    assert (err' = err) by congruence. subst err'. auto.
Qed.

(** X8: a Service without selection. When the Service of the key has no
    network selection annotation, or an empty one, the sync returns the
    error "no network annotations" right after the Service lookup: it
    lists no pods, reads no Endpoints, and writes no klog line. *)
Theorem sync_without_annotation c key namespace name svc :
  cache.SplitMetaNamespaceKey key = Ok (namespace, name) ->
  serviceLister_Get c namespace name = Ok svc ->
  svcAnnotations svc !! selectionsKey = None
  \/ svcAnnotations svc !! selectionsKey = Some "" ->
  sync c key = ([ServiceGet namespace name], Err (errors_New "no network annotations")).
Proof.
  intros Hkey Hsvc Hann. unfold_sync. rewrite Hkey, Hsvc.
  unfold getNetworkAnnotations. destruct Hann as [->| ->]; reflexivity.
Qed.

(** X9: a lookup that fails after the selection is parsed. When the pod
    lister fails, the sync returns its error without reading Endpoints;
    when the Endpoints of the Service are not in the cache, the sync
    returns the lister's error. In both cases nothing is sent to the API,
    no event is recorded, and klog gets info lines only. *)
Theorem sync_lookup_failure c key namespace name svc logs networks err :
  cache.SplitMetaNamespaceKey key = Ok (namespace, name) ->
  serviceLister_Get c namespace name = Ok svc ->
  parsePodNetworkSelections (getNetworkAnnotations svc) namespace
    = (logs, Ok networks) ->
  List.length networks <= 1 ->
  podsLister_List c (svcSelector svc) = Err err
  \/ ((exists pods, podsLister_List c (svcSelector svc) = Ok pods)
      /\ endpointsLister_Get c namespace name = Err err) ->
  let t := fst (sync c key) in
  snd (sync c key) = Err err
  /\ updates t = []
  /\ events t = []
  /\ Forall (fun l => logSeverity l = Info) (logLines t)
  /\ (podsLister_List c (svcSelector svc) = Err err -> count isEndpointsGet t = 0).
Proof.
  intros Hkey Hsvc Hparse Hlen Hfail.
  pose proof (parser_logs (getNetworkAnnotations svc) namespace) as Hlogs.
  rewrite Hparse in Hlogs. destruct Hlogs as [Hinfo _].
  assert (Hl : Forall (fun l => logSeverity l = Info) (logLines (map Klog logs))).
  { clear -Hinfo. induction Hinfo; simpl; constructor; auto. }
  unfold_sync. rewrite Hkey, Hsvc.
  rewrite (parse_ok_nonempty _ _ _ _ Hparse), Hparse. simpl.
  destruct (1 <? List.length networks)%nat eqn:L; [apply Nat.ltb_lt in L; lia|].
  destruct Hfail as [Hpods|[[pods Hpods] Hep]]; rewrite Hpods; simpl.
  - rewrite !updates_app, !events_app, !logLines_app, updates_logs, events_logs.
    simpl. split; [reflexivity|]. split; [reflexivity|]. split; [reflexivity|].
    split.
    + constructor; [reflexivity|]. apply Forall_app. split; [exact Hl|].
      constructor; [reflexivity|constructor].
    + intros _. unfold count. simpl. rewrite List.filter_app, filter_logs by reflexivity.
      reflexivity.
  - rewrite Hep. simpl.
    rewrite !updates_app, !events_app, !logLines_app, updates_logs, events_logs.
    simpl. split; [reflexivity|]. split; [reflexivity|]. split; [reflexivity|].
    split; [|intros H; congruence].
    constructor; [reflexivity|]. apply Forall_app. split; [exact Hl|].
    constructor; [reflexivity|constructor].
Qed.

(** The pod loop as a map over the readable pods. *)
Lemma podSubsets_map svc annotations networks pods :
  snd (podSubsets svc annotations networks pods)
    = map (podSubset svc annotations networks) (List.filter statusReadable pods).
Proof.
  induction pods as [|pod pods IH]; [reflexivity|].
  simpl. destruct (podSubsets svc annotations networks pods) as [logs subsets].
  simpl in IH. unfold statusReadable at 1.
  destruct (json_Unmarshal_statuses (default "" (podAnnotations pod !! statusesKey)))
    as [statuses [err|]] eqn:E; simpl; [exact IH|].
  unfold podSubset at 1. rewrite E. simpl.
  destruct (podAddresses pod annotations networks statuses) as [alogs addresses].
  destruct (podPorts svc pod (svcPorts svc)) as [plogs ports].
  simpl. now rewrite IH.
Qed.

(** X10: one subset per readable pod. The pod loop appends, in pod order,
    exactly one subset for every pod whose status the decoder accepts,
    also when the pod has no matching address or no port, and nothing for
    the other pods; it writes one warning line for each of those. *)
Theorem podSubsets_per_pod svc annotations networks pods :
  snd (podSubsets svc annotations networks pods)
    = map (podSubset svc annotations networks) (List.filter statusReadable pods)
  /\ List.length (List.filter (fun l => match logSeverity l with
                                        | Warning => true
                                        | _ => false
                                        end)
                    (fst (podSubsets svc annotations networks pods)))
     + List.length (List.filter statusReadable pods)
     = List.length pods.
Proof.
  split; [apply podSubsets_map|].
  induction pods as [|pod pods IH]; [reflexivity|].
  simpl. destruct (podSubsets svc annotations networks pods) as [logs subsets].
  simpl in IH. unfold statusReadable at 1 3.
  destruct (json_Unmarshal_statuses (default "" (podAnnotations pod !! statusesKey)))
    as [statuses [err|]]; simpl.
  - rewrite <- IH. reflexivity.
  - assert (Ha : forall sts,
               List.filter (fun l => match logSeverity l with
                                     | Warning => true | _ => false end)
                 (fst (podAddresses pod annotations networks sts)) = []).
    { induction sts as [|st sts IHs]; [reflexivity|]. simpl.
      destruct (podAddresses pod annotations networks sts) as [l a]. simpl in IHs.
      destruct (isInNetworkSelectionElementsArray (statusName st) networks);
        simpl; exact IHs. }
    assert (Hp : forall sps,
               List.filter (fun l => match logSeverity l with
                                     | Warning => true | _ => false end)
                 (fst (podPorts svc pod sps)) = []).
    { induction sps as [|sp sps IHs]; [reflexivity|]. simpl.
      destruct (podPorts svc pod sps) as [l a]. simpl in IHs.
      destruct (FindPort pod sp) as [n [e|]]; simpl; exact IHs. }
    specialize (Ha statuses). specialize (Hp (svcPorts svc)).
    destruct (podAddresses pod annotations networks statuses) as [alogs addresses].
    destruct (podPorts svc pod (svcPorts svc)) as [plogs ports].
    simpl in *. rewrite !List.filter_app, Ha, Hp. simpl. rewrite <- IH. lia.
Qed.

Lemma isIn_spec name networks :
  isInNetworkSelectionElementsArray name networks = true
  <-> In name (map Name networks).
Proof.
  induction networks as [|n networks IH]; simpl; [split; [discriminate|tauto]|].
  destruct (String.eqb name (Name n)) eqn:E.
  - apply String.eqb_eq in E. split; auto.
  - apply String.eqb_neq in E. rewrite IH. split; [auto|].
    intros [H|H]; [congruence|exact H].
Qed.

(** X11: the addresses of a pod, exactly. An address is in the pod's
    subset if and only if it is built from an IP of a status entry whose
    name is the name of a selected network; it then carries the pod's node
    name and a reference of kind Pod to the pod's name, namespace, resource
    version and UID. *)
Theorem podAddresses_exact pod annotations networks statuses address :
  In address (snd (podAddresses pod annotations networks statuses))
  <-> exists status ip,
        In status statuses
        /\ In (statusName status) (map Name networks)
        /\ In ip (statusIPs status)
        /\ address = mkEndpointAddress ip (podNodeName pod)
                       (mkObjectReference "Pod" (podName pod) (podNamespace pod)
                          (podResourceVersion pod) (podUID pod)).
Proof.
  induction statuses as [|st statuses IH]; simpl.
  - split; [tauto|]. intros (status & ip & [] & _).
  - destruct (podAddresses pod annotations networks statuses) as [logs addrs].
    simpl in IH.
    destruct (isInNetworkSelectionElementsArray (statusName st) networks) eqn:E; simpl.
    + rewrite in_app_iff, IH, in_map_iff. split.
      * intros [(ip & <- & Hip)|(status & ip & H1 & H2 & H3 & H4)].
        -- exists st, ip. apply isIn_spec in E. auto.
        -- exists status, ip. auto.
      * intros (status & ip & [<-|H1] & H2 & H3 & H4).
        -- left. exists ip. split; [now rewrite H4|exact H3].
        -- right. exists status, ip. auto.
    + rewrite IH. split.
      * intros (status & ip & H1 & H2 & H3 & H4). exists status, ip. auto.
      * intros (status & ip & [<-|H1] & H2 & H3 & H4).
        -- apply isIn_spec in H2. congruence.
        -- exists status, ip. auto.
Qed.

Lemma int32_range z : (-2147483648 <= int32 z < 2147483648)%Z.
Proof.
  unfold int32.
  pose proof (Z.mod_pos_bound (z + 2147483648) 4294967296 ltac:(lia)). lia.
Qed.

Lemma int32_id z : (-2147483648 <= z < 2147483648)%Z -> int32 z = z.
Proof. intros H. unfold int32. rewrite Z.mod_small; lia. Qed.

(** X12: the ports of a pod, exactly. A port is in the pod's subset if
    and only if it comes from a port of the Service that [FindPort]
    resolves on the pod; it has that Service port's protocol and name, and
    the resolved number converted to 32 bits, which lies in the int32 range
    and is the resolved number itself when that one is in range. *)
Theorem podPorts_exact svc pod svcPorts port :
  (In port (snd (podPorts svc pod svcPorts))
   <-> exists svcPort portNumber,
         In svcPort svcPorts
         /\ FindPort pod svcPort = (portNumber, None)
         /\ port = mkEndpointPort (int32 portNumber) (spProtocol svcPort)
                     (spName svcPort))
  /\ (In port (snd (podPorts svc pod svcPorts)) ->
      (-2147483648 <= Port port < 2147483648)%Z)
  /\ List.length (snd (podPorts svc pod svcPorts)) <= List.length svcPorts.
Proof.
  assert (Hiff : In port (snd (podPorts svc pod svcPorts))
                 <-> exists svcPort portNumber,
                       In svcPort svcPorts
                       /\ FindPort pod svcPort = (portNumber, None)
                       /\ port = mkEndpointPort (int32 portNumber) (spProtocol svcPort)
                                   (spName svcPort)).
  { induction svcPorts as [|sp svcPorts IH]; simpl.
    - split; [tauto|]. intros (svcPort & n & [] & _).
    - destruct (podPorts svc pod svcPorts) as [logs ports]. simpl in IH.
      destruct (FindPort pod sp) as [n [err|]] eqn:F; simpl.
      + rewrite IH. split.
        * intros (svcPort & m & H1 & H2 & H3). exists svcPort, m. auto.
        * intros (svcPort & m & [<-|H1] & H2 & H3); [congruence|].
          exists svcPort, m. auto.
      + rewrite IH. split.
        * intros [<-|(svcPort & m & H1 & H2 & H3)].
          -- exists sp, n. auto.
          -- exists svcPort, m. auto.
        * intros (svcPort & m & [<-|H1] & H2 & H3).
          -- left. rewrite H3. congruence.
          -- right. exists svcPort, m. auto. }
  split; [exact Hiff|]. split.
  - intros Hin. apply Hiff in Hin. destruct Hin as (sp & n & _ & _ & ->).
    simpl. apply int32_range.
  - clear Hiff. induction svcPorts as [|sp svcPorts IH]; simpl; [lia|].
    destruct (podPorts svc pod svcPorts) as [logs ports]. simpl in IH.
    destruct (FindPort pod sp) as [n [err|]]; simpl; lia.
Qed.

Lemma podAddresses_no_network pod annotations statuses :
  snd (podAddresses pod annotations [] statuses) = [].
Proof.
  induction statuses as [|st statuses IH]; [reflexivity|].
  simpl. destruct (podAddresses pod annotations [] statuses). exact IH.
Qed.

(** X13: a selection that decodes to the empty list. When the decoder
    accepts the annotation of the Service and gives no element (as for an
    empty JSON array), the sync does not abort: with pods and Endpoints
    found it sends an update whose subsets are the repacking of one subset
    per readable pod, none of which has an address. *)
Theorem sync_empty_selection c key namespace name svc pods ep0 :
  cache.SplitMetaNamespaceKey key = Ok (namespace, name) ->
  serviceLister_Get c namespace name = Ok svc ->
  getNetworkAnnotations svc <> "" ->
  json_Unmarshal_selections (getNetworkAnnotations svc) = ([], None) ->
  podsLister_List c (svcSelector svc) = Ok pods ->
  endpointsLister_Get c namespace name = Ok ep0 ->
  exists ep subsets,
    updates (fst (sync c key)) = [ep]
    /\ epSubsets ep = endpoints.RepackSubsets subsets
    /\ List.length subsets = List.length (List.filter statusReadable pods)
    /\ Forall (fun s => Addresses s = []) subsets.
Proof.
  intros Hkey Hsvc Hne Hjson Hpods Hep.
  assert (Hparse : parsePodNetworkSelections (getNetworkAnnotations svc) namespace
                   = ([], Ok [])).
  { unfold parsePodNetworkSelections.
    destruct (String.length (getNetworkAnnotations svc) =? 0)%nat eqn:L;
      [apply length_zero_empty in L; contradiction|].
    now rewrite Hjson. }
  unfold_sync. rewrite Hkey, Hsvc.
  rewrite (parse_ok_nonempty _ _ _ _ Hparse), Hparse. simpl.
  rewrite Hpods, Hep.
  pose proof (podSubsets_map svc (getNetworkAnnotations svc) [] pods) as Hsub.
  destruct (podSubsets svc (getNetworkAnnotations svc) [] pods) as [plogs subsets].
  simpl in *.
  eexists _, subsets.
  split; [|split; [|split]].
  - destruct (endpoints_Update c _); simpl;
      rewrite !updates_app, updates_logs; reflexivity.
  - reflexivity.
  - now rewrite Hsub, List.length_map.
  - rewrite Hsub. apply List.Forall_forall. intros s Hs.
    apply in_map_iff in Hs. destruct Hs as (pod & <- & _).
    apply podAddresses_no_network.
Qed.

Lemma sync_no_queue_call c key :
  Forall (fun call => isQueueCall call = false) (fst (sync c key)).
Proof.
  assert (Hl : forall logs,
             Forall (fun call => isQueueCall call = false) (map Klog logs)).
  { induction logs; simpl; constructor; auto. }
  unfold_sync.
  destruct (cache.SplitMetaNamespaceKey key) as [[namespace name]|e|];
    [|constructor..].
  destruct (serviceLister_Get c namespace name) as [svc|e|];
    [|repeat constructor..].
  destruct (String.length (getNetworkAnnotations svc) =? 0)%nat;
    [repeat constructor|].
  destruct (parsePodNetworkSelections (getNetworkAnnotations svc) namespace)
    as [logs [networks|e|]]; simpl;
    [|repeat (constructor; [reflexivity|]); apply Hl..].
  destruct (1 <? List.length networks)%nat.
  { simpl. repeat (constructor; [reflexivity|]).
    apply Forall_app. split; [apply Hl|repeat constructor]. }
  destruct (podsLister_List c (svcSelector svc)) as [pods|e|]; simpl;
    [|repeat (constructor; [reflexivity|]);
      apply Forall_app; split; [apply Hl|repeat constructor]..].
  destruct (endpointsLister_Get c namespace name) as [ep|e|]; simpl;
    [|repeat (constructor; [reflexivity|]);
      apply Forall_app; split; [apply Hl|repeat constructor]..].
  destruct (podSubsets svc (getNetworkAnnotations svc) networks pods)
    as [plogs subsets]. simpl.
  destruct (endpoints_Update c _); simpl;
    repeat (constructor; [reflexivity|]);
    apply Forall_app; (split; [apply Hl|]);
    repeat (constructor; [reflexivity|]);
    apply Forall_app; (split; [apply Hl|repeat constructor]).
Qed.

Lemma count_none p t :
  Forall (fun call => p call = false) t -> count p t = 0.
Proof.
  unfold count. induction 1 as [|c t Hc _ IH]; [reflexivity|].
  simpl. now rewrite Hc.
Qed.

Lemma sync_queue_counts c key :
  count isWorkqueueGet (fst (sync c key)) = 0
  /\ count isRequeue (fst (sync c key)) = 0
  /\ count isDone (fst (sync c key)) = 0.
Proof.
  pose proof (sync_no_queue_call c key) as H.
  repeat split; apply count_none; eapply Forall_impl; try exact H;
    intros call Hc; unfold isQueueCall in Hc;
    apply orb_false_iff in Hc; destruct Hc as [Hc1 Hc3];
    apply orb_false_iff in Hc1; destruct Hc1; assumption.
Qed.

(** X14: one turn of the worker. [processNextWorkItem] never adds a key
    to the queue again, whatever the sync returns. On a shut-down queue it
    returns false after the [Get] alone; otherwise it runs one sync, marks
    the key done exactly once, as its last call, and returns true unless
    the sync panics. *)
Theorem processNextWorkItem_turn c :
  let key := fst (workqueue_Get c) in
  let t := fst (processNextWorkItem c) in
  let r := snd (processNextWorkItem c) in
  count isRequeue t = 0
  /\ (snd (workqueue_Get c) = true -> t = [WorkqueueGet] /\ r = Ok false)
  /\ (snd (workqueue_Get c) = false ->
      count isDone t = 1
      /\ (exists t', t = WorkqueueGet :: t' ++ [WorkqueueDone key])
      /\ (snd (sync c key) <> Panic -> r = Ok true)
      /\ (snd (sync c key) = Panic -> r = Panic)).
Proof.
  unfold processNextWorkItem.
  destruct (workqueue_Get c) as [key [|]]; simpl.
  - split; [reflexivity|]. split; [auto|discriminate].
  - destruct (sync_queue_counts c key) as (_ & Hq & Hd).
    destruct (sync c key) as [t [[]|e|]]; simpl in *;
      (split; [|split; [discriminate|intros _]]).
    + unfold count in *. simpl. rewrite List.filter_app, List.length_app.
      simpl. lia.
    + split; [|split; [eauto|split; [reflexivity|discriminate]]].
      unfold count in *. simpl. rewrite List.filter_app, List.length_app.
      simpl. lia.
    + unfold count in *. simpl. rewrite List.filter_app, List.length_app.
      simpl. lia.
    + split; [|split; [|split; [reflexivity|discriminate]]].
      * unfold count in *. simpl. rewrite List.filter_app, List.length_app.
        simpl. lia.
      * exists (t ++ [Klog (klog_V 4 ("sync aborted: " +:+ Error e))]).
        now rewrite <- app_assoc.
    + unfold count in *. simpl. rewrite List.filter_app, List.length_app.
      simpl. lia.
    + split; [|split; [eauto|split; [congruence|reflexivity]]].
      unfold count in *. simpl. rewrite List.filter_app, List.length_app.
      simpl. lia.
Qed.

Lemma turn_counts c :
  healthy c ->
  exists t,
    processNextWorkItem c = (t, Ok true)
    /\ count isWorkqueueGet t = 1 /\ count isDone t = 1 /\ count isRequeue t = 0.
Proof.
  intros [Hq Hp]. unfold processNextWorkItem.
  destruct (workqueue_Get c) as [key quit]. simpl in *. subst quit.
  destruct (sync_queue_counts c key) as (Hg & Hr & Hd).
  destruct (sync c key) as [t [[]|e|]]; simpl in *; [| |congruence];
    eexists; (split; [reflexivity|]); unfold count in *; simpl;
    rewrite !List.filter_app, !List.length_app; simpl; lia.
Qed.

(** X15: the worker loop outlives failed syncs. Over turns whose queue has
    not shut down and whose sync does not panic, whether it fails or not,
    the worker goes on to the next turn: it marks one key done per turn and
    adds no key to the queue. It stops at the first turn whose queue has
    shut down, without running a sync for it. *)
Theorem worker_outlives_failures turns stop later :
  Forall healthy turns ->
  snd (workqueue_Get stop) = true ->
  (snd (worker turns) = WorkerWaiting
   /\ count isDone (fst (worker turns)) = List.length turns
   /\ count isRequeue (fst (worker turns)) = 0)
  /\ (snd (worker (turns ++ stop :: later)) = WorkerStopped
      /\ count isDone (fst (worker (turns ++ stop :: later))) = List.length turns
      /\ count isWorkqueueGet (fst (worker (turns ++ stop :: later)))
         = S (List.length turns)).
Proof.
  intros Hturns Hstop. induction Hturns as [|c turns Hc _ IH].
  - split; [repeat split|].
    simpl. unfold processNextWorkItem.
    destruct (workqueue_Get stop) as [key quit]. simpl in Hstop. subst quit.
    repeat split.
  - destruct (turn_counts c Hc) as (t & Ht & Hg & Hd & Hr).
    destruct IH as [(E1 & D1 & R1) (E2 & D2 & G2)].
    simpl. rewrite Ht.
    destruct (worker turns) as [t1 e1].
    destruct (worker (turns ++ stop :: later)) as [t2 e2].
    simpl in *. rewrite !count_app. repeat split; auto; lia.
Qed.

(** ** The event handlers *)

Lemma handleServiceEvent_live svc :
  handleServiceEvent (Live svc) = ([Controller (WorkqueueAddRateLimited (keyOf svc))], Ok tt).
Proof.
  unfold handleServiceEvent, MetaNamespaceKeyFunc, keyOf.
  destruct (0 <? String.length (svcNamespace svc))%nat; reflexivity.
Qed.

Lemma enqueued_app t t' : enqueued (t ++ t') = enqueued t ++ enqueued t'.
Proof.
  induction t as [|c t IH]; [reflexivity|].
  destruct c as [[]| |]; simpl; rewrite ?IH; reflexivity.
Qed.

Lemma enqueued_services services :
  enqueued (handleServiceEvents services) = map keyOf services.
Proof.
  induction services as [|svc services IH]; [reflexivity|].
  simpl. rewrite handleServiceEvent_live. simpl. now rewrite IH.
Qed.

Lemma sync_first_call c key namespace name :
  cache.SplitMetaNamespaceKey key = Ok (namespace, name) ->
  exists t, fst (sync c key) = ServiceGet namespace name :: t.
Proof.
  intros Hkey. unfold_sync. rewrite Hkey.
  destruct (serviceLister_Get c namespace name) as [svc|e|]; [|simpl; eauto..].
  destruct (String.length (getNetworkAnnotations svc) =? 0)%nat; [simpl; eauto|].
  destruct (parsePodNetworkSelections (getNetworkAnnotations svc) namespace)
    as [logs [networks|e|]]; simpl; [|eauto..].
  destruct (1 <? List.length networks)%nat; [simpl; eauto|].
  destruct (podsLister_List c (svcSelector svc)) as [pods|e|]; simpl; [|eauto..].
  destruct (endpointsLister_Get c namespace name) as [ep|e|]; simpl; [|eauto..].
  destruct (podSubsets svc (getNetworkAnnotations svc) networks pods). simpl.
  destruct (endpoints_Update c _); simpl; eauto.
Qed.

Lemma keyOf_split svc :
  strings.Count (svcNamespace svc) "/" = 0 ->
  strings.Count (svcName svc) "/" = 0 ->
  cache.SplitMetaNamespaceKey (keyOf svc) = Ok (svcNamespace svc, svcName svc).
Proof.
  intros Hns Hname. unfold keyOf, cache.SplitMetaNamespaceKey.
  destruct (svcNamespace svc) as [|a ns] eqn:E.
  - simpl. now rewrite Split_no_sep.
  - change (0 <? String.length (String a ns))%nat with true. cbv iota.
    change (String a ns +:+ "/" +:+ svcName svc)
      with (String a ns +:+ String "/" (svcName svc)).
    rewrite Split_at_sep by assumption. now rewrite Split_no_sep.
Qed.

(** X16: from the queue back to the Service. For a Service whose
    namespace and name hold no slash, the key that [handleServiceEvent]
    adds to the queue splits into that namespace and name again, so the
    sync of the key starts by looking up this very Service; this also holds
    for an empty namespace, whose key is the bare name. *)
Theorem enqueued_key_finds_service c svc :
  strings.Count (svcNamespace svc) "/" = 0 ->
  strings.Count (svcName svc) "/" = 0 ->
  exists key,
    handleServiceEvent (Live svc)
      = ([Controller (WorkqueueAddRateLimited key)], Ok tt)
    /\ cache.SplitMetaNamespaceKey key = Ok (svcNamespace svc, svcName svc)
    /\ exists t,
         fst (sync c key) = ServiceGet (svcNamespace svc) (svcName svc) :: t.
Proof.
  intros Hns Hname. exists (keyOf svc).
  split; [apply handleServiceEvent_live|].
  pose proof (keyOf_split svc Hns Hname) as Hsplit.
  split; [exact Hsplit|]. now apply sync_first_call.
Qed.

(** X17: the update filters. An update notification whose old and new
    object have the same resource version adds nothing to the queue, for
    pods and Endpoints always and for Services when the value of the
    selection annotation is unchanged too, a missing annotation counting as
    an empty one. A Service update with another resource version or another
    annotation value adds the key of the updated Service. *)
Theorem update_filters c :
  (forall old updated,
      soResourceVersion old = soResourceVersion updated ->
      getNetworkAnnotations (soService old) = getNetworkAnnotations (soService updated) ->
      dispatch c (ServiceUpdated old updated) = ([], Ok tt))
  /\ (forall old updated,
         soResourceVersion old <> soResourceVersion updated
         \/ getNetworkAnnotations (soService old)
            <> getNetworkAnnotations (soService updated) ->
         dispatch c (ServiceUpdated old updated)
           = ([Controller (WorkqueueAddRateLimited (keyOf (soService updated)))], Ok tt))
  /\ (forall old updated,
         podResourceVersion old = podResourceVersion updated ->
         dispatch c (PodUpdated old updated) = ([], Ok tt))
  /\ (forall old updated,
         epResourceVersion old = epResourceVersion updated ->
         dispatch c (EndpointsUpdated old updated) = ([], Ok tt)).
Proof.
  unfold dispatch, objectChanged, networkAnnotationsChanged.
  split; [|split; [|split]].
  - intros old updated -> ->. now rewrite !String.eqb_refl.
  - intros old updated H. rewrite handleServiceEvent_live.
    destruct (String.eqb (soResourceVersion old) (soResourceVersion updated)) eqn:E1;
      [|reflexivity].
    destruct (String.eqb (getNetworkAnnotations (soService old))
                (getNetworkAnnotations (soService updated))) eqn:E2; [|reflexivity].
    apply String.eqb_eq in E1, E2. destruct H; contradiction.
  - intros old updated ->. now rewrite String.eqb_refl.
  - intros old updated ->. now rewrite String.eqb_refl.
Qed.

(** X18: what a pod notification adds to the queue. A pod without the
    selection annotation adds nothing, and the Service lister is not asked.
    A pod with the annotation, whatever its value, adds the key of every
    Service the lister returns, in the lister's order; when the lister
    fails nothing is added. The handler returns normally in each case. *)
Theorem handlePodEvent_enqueues pod :
  (podAnnotations pod !! selectionsKey = None ->
   exists line, handlePodEvent (Live pod) = ([Controller (Klog line)], Ok tt))
  /\ (forall value services,
         podAnnotations pod !! selectionsKey = Some value ->
         serviceLister_GetPodServices pod = Ok services ->
         enqueued (fst (handlePodEvent (Live pod))) = map keyOf services
         /\ snd (handlePodEvent (Live pod)) = Ok tt)
  /\ (forall value err,
         podAnnotations pod !! selectionsKey = Some value ->
         serviceLister_GetPodServices pod = Err err ->
         enqueued (fst (handlePodEvent (Live pod))) = []
         /\ snd (handlePodEvent (Live pod)) = Ok tt).
Proof.
  unfold handlePodEvent. split; [|split].
  - intros ->. eauto.
  - intros value services -> ->. simpl. split; [apply enqueued_services|reflexivity].
  - intros value err -> ->. split; reflexivity.
Qed.

(** X19: a delete notification that carries a tombstone. The pod handler
    drops it, the Service handler reports an error without adding a key,
    the net-attach-def handler writes one klog line and makes no call, and
    the Endpoints handler panics on its unchecked type assertion. *)
Theorem tombstone_handling c key :
  dispatch c (PodDeleted (Tombstone key)) = ([], Ok tt)
  /\ (exists err,
         dispatch c (ServiceDeleted (Tombstone key)) = ([HandleError err], Ok tt))
  /\ (exists line,
         dispatch c (NetAttachDefDeleted (DeletedFinalStateUnknown key))
           = ([Controller (Klog line)], Ok tt))
  /\ dispatch c (EndpointsDeleted (Tombstone key)) = ([], Panic).
Proof.
  split; [reflexivity|]. split; [eexists; reflexivity|].
  split; [eexists; reflexivity|reflexivity].
Qed.

Lemma handleServiceEvent_dispatchOnly obj :
  Forall (fun call => isDispatchOnly call = true) (fst (handleServiceEvent obj)).
Proof.
  unfold handleServiceEvent.
  destruct (MetaNamespaceKeyFunc obj); simpl; repeat constructor.
Qed.

Lemma handlePodEvent_dispatchOnly obj :
  Forall (fun call => isDispatchOnly call = true) (fst (handlePodEvent obj)).
Proof.
  unfold handlePodEvent. destruct obj as [pod|key]; [|constructor].
  destruct (podAnnotations pod !! selectionsKey); [|repeat constructor].
  destruct (serviceLister_GetPodServices pod) as [services|e|]; simpl;
    [|repeat constructor..].
  constructor; [reflexivity|].
  induction services as [|svc services IH]; simpl; [constructor|].
  apply Forall_app. split; [apply handleServiceEvent_dispatchOnly|exact IH].
Qed.

Lemma handleEndpointEvent_dispatchOnly c obj :
  Forall (fun call => isDispatchOnly call = true) (fst (handleEndpointEvent c obj)).
Proof.
  unfold handleEndpointEvent. destruct obj as [ep|key]; [|constructor].
  destruct (serviceLister_Get c (epNamespace ep) (epName ep)) as [svc|e|];
    [|repeat constructor..].
  pose proof (handleServiceEvent_dispatchOnly (Live svc)) as H.
  destruct (handleServiceEvent (Live svc)) as [t r]. simpl in *.
  constructor; [reflexivity|exact H].
Qed.

(** X20: what a notification may touch. Except for the delete of a
    net-attach-def, a notification leads to cache reads, queue adds, klog
    lines and reported errors only: no handler lists pods, reads or writes
    Endpoints, records an event or calls the net-attach-def client. *)
Theorem dispatch_touches_nothing c n :
  (forall obj, n <> NetAttachDefDeleted obj) ->
  Forall (fun call => isDispatchOnly call = true) (fst (dispatch c n)).
Proof.
  intros Hn.
  destruct n as [o|old upd|o|p|old upd|o|e|old upd|o|nad|old upd|obj];
    unfold dispatch.
  - exact (handleServiceEvent_dispatchOnly (Live (soService o))).
  - destruct (objectChanged (soResourceVersion old) (soResourceVersion upd)
              || networkAnnotationsChanged (soService old) (soService upd));
      [exact (handleServiceEvent_dispatchOnly (Live (soService upd)))|constructor].
  - exact (handleServiceEvent_dispatchOnly (serviceOf o)).
  - exact (handlePodEvent_dispatchOnly (Live p)).
  - destruct (objectChanged (podResourceVersion old) (podResourceVersion upd));
      [exact (handlePodEvent_dispatchOnly (Live upd))|constructor].
  - exact (handlePodEvent_dispatchOnly o).
  - exact (handleEndpointEvent_dispatchOnly c (Live e)).
  - destruct (objectChanged (epResourceVersion old) (epResourceVersion upd));
      [exact (handleEndpointEvent_dispatchOnly c (Live upd))|constructor].
  - exact (handleEndpointEvent_dispatchOnly c o).
  - constructor.
  - constructor.
  - now contradiction (Hn obj).
Qed.

(** ** More on the deletion recovery handler *)

Lemma handler_liveCalls c nad :
  liveCalls (fst (handleNetAttachDefDeleteEvent c (DeletedNetAttachDef nad)))
    = rechecks c nad (references nad (podsLister_ListAll c)) 0.
Proof.
  unfold handleNetAttachDefDeleteEvent.
  pose proof (scanPods_calls c nad (podsLister_ListAll c) 0) as H.
  destruct (scanPods c nad (podsLister_ListAll c) 0) as [t f]. simpl.
  destruct f as [g| |]; [| |exact H];
    specialize (H 0); rewrite Nat.add_0_r in H; rewrite H; simpl;
    now rewrite app_nil_r.
Qed.

(** The shape of the live calls: rechecks that find the object, and then
    nothing more, or one recheck that does not find it and the create
    call. *)
Lemma rechecks_shape c nad k gets :
  let get := NetAttachDefGet (nadNamespace nad) (nadName nad) in
  (rechecks c nad k gets = repeat get k
   /\ forall i, i < k ->
        netAttachDefs_Get c (gets + i) (nadNamespace nad) (nadName nad) = None)
  \/ exists j,
       j < k
       /\ rechecks c nad k gets
          = repeat get (S j) ++ [NetAttachDefCreate (clearResourceVersion nad)]
       /\ netAttachDefs_Get c (gets + j) (nadNamespace nad) (nadName nad) <> None
       /\ forall i, i < j ->
            netAttachDefs_Get c (gets + i) (nadNamespace nad) (nadName nad) = None.
Proof.
  intros get. revert gets. induction k as [|k IH]; intros gets; simpl.
  - left. split; [reflexivity|]. intros i Hi. lia.
  - destruct (netAttachDefs_Get c gets (nadNamespace nad) (nadName nad)) as [err|] eqn:G.
    + right. exists 0. rewrite Nat.add_0_r, G.
      split; [lia|]. split; [reflexivity|]. split; [discriminate|]. intros i Hi. lia.
    + destruct (IH (S gets)) as [[Hr Hall]|(j & Hj & Hr & Hfail & Hall)].
      * left. split; [now rewrite Hr|].
        intros [|i] Hi; [now rewrite Nat.add_0_r|].
        replace (gets + S i) with (S gets + i) by lia. apply Hall. lia.
      * right. exists (S j). split; [lia|]. split; [now rewrite Hr|].
        replace (gets + S j) with (S gets + j) by lia. split; [exact Hfail|].
        intros [|i] Hi; [now rewrite Nat.add_0_r|].
        replace (gets + S i) with (S gets + i) by lia. apply Hall. lia.
Qed.

(** X21: what the handler recreates, and when. Every create call carries
    the deleted object with its namespace, name and spec unchanged and its
    resource version cleared, and every live recheck asks for the deleted
    object's namespace and name. A create call is the last call on the live
    API and comes right after a recheck that did not find the object, all
    earlier rechecks of the run having found it. *)
Theorem recreate_only_after_failed_recheck c nad :
  let t := fst (handleNetAttachDefDeleteEvent c (DeletedNetAttachDef nad)) in
  let get := NetAttachDefGet (nadNamespace nad) (nadName nad) in
  let recovered := mkNetAttachDef (nadNamespace nad) (nadName nad) "" (nadConfig nad) in
  (forall x, In (NetAttachDefCreate x) t -> x = recovered)
  /\ (forall namespace name,
         In (NetAttachDefGet namespace name) t ->
         namespace = nadNamespace nad /\ name = nadName nad)
  /\ (count isNetAttachDefCreate t = 0
      \/ exists j,
           liveCalls t = repeat get (S j) ++ [NetAttachDefCreate recovered]
           /\ netAttachDefs_Get c j (nadNamespace nad) (nadName nad) <> None
           /\ forall i, i < j ->
                netAttachDefs_Get c i (nadNamespace nad) (nadName nad) = None).
Proof.
  intros t get recovered.
  pose proof (handler_liveCalls c nad) as Hlive. fold t in Hlive.
  assert (Hin : forall call,
             In call t ->
             isNetAttachDefGet call || isNetAttachDefCreate call = true ->
             In call (liveCalls t)).
  { intros call H1 H2. apply List.filter_In. auto. }
  destruct (rechecks_shape c nad (references nad (podsLister_ListAll c)) 0)
    as [[Hr _]|(j & _ & Hr & Hfail & Hall)]; rewrite Hr in Hlive.
  - split; [|split].
    + intros x Hx. apply Hin in Hx; [|reflexivity]. rewrite Hlive in Hx.
      apply repeat_spec in Hx. discriminate.
    + intros ns n Hx. apply Hin in Hx; [|reflexivity]. rewrite Hlive in Hx.
      apply repeat_spec in Hx. inversion Hx. auto.
    + left. rewrite <- count_liveCalls, Hlive. unfold count.
      clear. induction (references nad (podsLister_ListAll c)); simpl; auto.
  - split; [|split].
    + intros x Hx. apply Hin in Hx; [|reflexivity]. rewrite Hlive in Hx.
      apply in_app_or in Hx. destruct Hx as [Hx|[Hx|[]]].
      * apply repeat_spec in Hx. discriminate.
      * now inversion Hx.
    + intros ns n Hx. apply Hin in Hx; [|reflexivity]. rewrite Hlive in Hx.
      apply in_app_or in Hx. destruct Hx as [Hx|[Hx|[]]].
      * apply repeat_spec in Hx. inversion Hx. auto.
      * discriminate.
    + right. exists j. split; [exact Hlive|]. split; [exact Hfail|exact Hall].
Qed.

Lemma references_none nad pods :
  (forall pod value nets,
      In pod pods ->
      podAnnotations pod !! selectionsKey = Some value ->
      parseSelections value (podNamespace pod) = Ok nets ->
      List.filter (refersTo nad) nets = []) ->
  references nad pods = 0.
Proof.
  induction pods as [|pod pods IH]; intros H; [reflexivity|].
  simpl. assert (IH' : references nad pods = 0).
  { apply IH. intros p v nets Hp. apply H. now right. }
  destruct (podAnnotations pod !! selectionsKey) as [value|] eqn:A; [|exact IH'].
  destruct (snd (parsePodNetworkSelections value (podNamespace pod)))
    as [nets|e|] eqn:P; [|exact IH'|reflexivity].
  rewrite (H pod value nets (or_introl eq_refl) A P). exact IH'.
Qed.

(** X22: an object no pod uses. When no selection element of any cached
    pod that parses refers to the deleted object's namespace and name
    (pods without the annotation and pods whose annotation is refused
    included), the handler makes no call on the live API: it neither
    rechecks nor recreates the object. *)
Theorem unreferenced_object_is_left_deleted c nad :
  (forall pod value nets,
      In pod (podsLister_ListAll c) ->
      podAnnotations pod !! selectionsKey = Some value ->
      parseSelections value (podNamespace pod) = Ok nets ->
      List.filter (refersTo nad) nets = []) ->
  let t := fst (handleNetAttachDefDeleteEvent c (DeletedNetAttachDef nad)) in
  liveCalls t = []
  /\ count isNetAttachDefGet t = 0
  /\ count isNetAttachDefCreate t = 0.
Proof.
  intros H t.
  pose proof (handler_liveCalls c nad) as Hlive. fold t in Hlive.
  rewrite (references_none nad _ H) in Hlive. simpl in Hlive.
  split; [exact Hlive|].
  assert (Hnone : forall call, In call t ->
                    isNetAttachDefGet call || isNetAttachDefCreate call = false).
  { intros call Hc.
    destruct (isNetAttachDefGet call || isNetAttachDefCreate call) eqn:E; [|reflexivity].
    assert (Hin : In call (liveCalls t)) by (apply List.filter_In; auto).
    rewrite Hlive in Hin. inversion Hin. }
  split; apply count_none; apply List.Forall_forall; intros call Hc;
    specialize (Hnone call Hc); apply orb_false_iff in Hnone; tauto.
Qed.

End Controller.

(** ** Closed examples *)

(** The controller run on the executable decoder and port lookup. *)
Abbreviation parseSelections' := (parseSelections json.UnmarshalSelections).
Abbreviation parsePodNetworkSelections' :=
  (parsePodNetworkSelections json.UnmarshalSelections).
Abbreviation sync' :=
  (sync json.UnmarshalSelections json.UnmarshalStatuses podutil.FindPort).
Abbreviation processNextWorkItem' :=
  (processNextWorkItem json.UnmarshalSelections json.UnmarshalStatuses podutil.FindPort).
Abbreviation podSubsets' := (podSubsets json.UnmarshalStatuses podutil.FindPort).
Abbreviation handleNetAttachDefDeleteEvent' :=
  (handleNetAttachDefDeleteEvent json.UnmarshalSelections fake.Sprint_NetAttachDef).

(** The examples of the spec's testable properties. *)
Example parse_br0 :
  parseSelections' "br0" "default" = Ok [mkNSE "default" "br0" ""].
Proof. reflexivity. Qed.

Example parse_namespace_interface :
  parseSelections' "foo/bar@eth1" "default" = Ok [mkNSE "foo" "bar" "eth1"].
Proof. reflexivity. Qed.

Example parse_empty : isErr (parseSelections' "" "default") = true.
Proof. reflexivity. Qed.

Example parse_json :
  parseSelections' (dq "[{'name':'br0','namespace':'default'}]") "x"
    = Ok [mkNSE "default" "br0" ""]
  /\ fst (parsePodNetworkSelections' (dq "[{'name':'br0','namespace':'default'}]") "x")
     = [].
Proof. split; reflexivity. Qed.

Example repack_merges_same_ports :
  let p80 := mkEndpointPort 80 "TCP" "http" in
  let p443 := mkEndpointPort 443 "TCP" "https" in
  let a := cluster.address1 "10.0.0.1" in
  let b := cluster.address1 "10.0.0.2" in
  endpoints.RepackSubsets
    [mkEndpointSubset [a] [p80]; mkEndpointSubset [b] [p80]]
    = [mkEndpointSubset [a; b] [p80]]
  /\ endpoints.RepackSubsets
       [mkEndpointSubset [a] [p80]; mkEndpointSubset [b] [p80; p443]]
     = [mkEndpointSubset [a] [p80]; mkEndpointSubset [b] [p80; p443]].
Proof. split; reflexivity. Qed.

(** C5 at the input ["a/b/c"]. *)
Lemma comma_path_bad_unit_is_error_witness :
  snd (json.UnmarshalSelections "a/b/c") = Some json.syntaxError
  /\ In "a/b/c" (map strings.TrimSpace (strings.Split "a/b/c" ","))
  /\ badUnit "default" "a/b/c"
  /\ exists err, parseSelections' "a/b/c" "default" = Err err.
Proof.
  assert (H2 : snd (json.UnmarshalSelections "a/b/c") = Some json.syntaxError)
    by reflexivity.
  assert (H3 : In "a/b/c" (map strings.TrimSpace (strings.Split "a/b/c" ",")))
    by (left; reflexivity).
  assert (H4 : badUnit "default" "a/b/c") by (left; simpl; lia).
  repeat (split; [assumption|]).
  exact (comma_path_bad_unit_is_error json.UnmarshalSelections
           "a/b/c" "default" json.syntaxError "a/b/c" H2 H3 H4).
Defined.

(** C3 as written fails for an empty default namespace. *)
Lemma parseSelections_empty_default_counterexample :
  parseSelections' "br0" "" = Ok [mkNSE "" "br0" ""]
  /\ ~ Forall (fun e => Namespace e <> "") [mkNSE "" "br0" ""].
Proof.
  split; [reflexivity|].
  intros H. inversion H as [|e l Hne _]; subst. now apply Hne.
Qed.

(** C3, as amended, on a list with and without explicit namespaces. *)
Lemma parseSelections_fills_namespaces_witness :
  "default" <> ""
  /\ parseSelections' "foo/bar@eth1, br0" "default"
     = Ok [mkNSE "foo" "bar" "eth1"; mkNSE "default" "br0" ""]
  /\ Forall (fun e => Namespace e <> "")
       [mkNSE "foo" "bar" "eth1"; mkNSE "default" "br0" ""].
Proof.
  assert (H1 : "default" <> "") by discriminate.
  assert (H2 : parseSelections' "foo/bar@eth1, br0" "default"
               = Ok [mkNSE "foo" "bar" "eth1"; mkNSE "default" "br0" ""])
    by reflexivity.
  repeat (split; [assumption|]).
  exact (proj1 (parseSelections_fills_namespaces json.UnmarshalSelections
                  "foo/bar@eth1, br0" "default" _ H1 H2)).
Defined.

(** C9 at a JSON input with upper-case names. *)
Lemma json_path_skips_validation_witness :
  let raw := dq "[{'name':'BR0','namespace':'Default'}]" in
  let e := mkNSE "Default" "BR0" "" in
  raw <> ""
  /\ json.UnmarshalSelections raw = (map Some [e], None)
  /\ regexp.MatchString "BR0" = false
  /\ parseSelections' raw "default" = Ok [e]
  /\ isErr (parseSelections' "BR0" "default") = true.
Proof.
  intros raw e.
  assert (H1 : raw <> "") by discriminate.
  assert (H2 : json.UnmarshalSelections raw = (map Some [e], None)) by reflexivity.
  assert (H3 : regexp.MatchString "BR0" = false) by reflexivity.
  repeat (split; [assumption|]).
  destruct (json_path_skips_validation json.UnmarshalSelections raw "default" [e] e "BR0"
              H1 H2 ltac:(left; reflexivity) ltac:(right; left; reflexivity)
              ltac:(discriminate) H3) as (Hok & _ & Hcomma).
  split; [exact Hok|].
  destruct (Hcomma "BR0" "default" json.syntaxError "BR0" "default" "BR0" ""
              ltac:(reflexivity) ltac:(left; reflexivity)
              ltac:(reflexivity) ltac:(right; left; reflexivity)) as [err Herr].
  now rewrite Herr.
Defined.

(** C1 on a Service that selects two networks. *)
Lemma sync_multiple_selections_aborts_witness :
  let c := fake.controller [cluster.dual] [cluster.pod1] [cluster.dualEndpoints]
             (cluster.always true) "default/dual" in
  let networks := [mkNSE "default" "net-a" ""; mkNSE "default" "net-b" ""] in
  let logs := [notJSON "net-a,net-b" json.syntaxError] in
  cache.SplitMetaNamespaceKey "default/dual" = Ok ("default", "dual")
  /\ serviceLister_Get c "default" "dual" = Ok cluster.dual
  /\ parsePodNetworkSelections' (getNetworkAnnotations cluster.dual) "default"
     = (logs, Ok networks)
  /\ 1 < List.length networks
  /\ exists t,
       sync' c "default/dual" = (t, Err (errors_New multipleSelections))
       /\ count isEndpointsGet t = 0
       /\ count isEndpointsUpdate t = 0
       /\ events t = [mkEvent (OnService cluster.dual) EventTypeWarning
                        multipleSelections "Endpoints update aborted"].
Proof.
  intros c networks logs.
  assert (H1 : cache.SplitMetaNamespaceKey "default/dual" = Ok ("default", "dual"))
    by reflexivity.
  assert (H2 : serviceLister_Get c "default" "dual" = Ok cluster.dual) by reflexivity.
  assert (H3 : parsePodNetworkSelections' (getNetworkAnnotations cluster.dual) "default"
               = (logs, Ok networks)) by (vm_compute; reflexivity).
  assert (H4 : 1 < List.length networks) by (simpl; lia).
  repeat (split; [assumption|]).
  exact (sync_multiple_selections_aborts json.UnmarshalSelections
           json.UnmarshalStatuses podutil.FindPort
           c "default/dual" "default" "dual" cluster.dual logs networks H1 H2 H3 H4).
Defined.

(** C4 as written fails: the sync of a key whose Service is not in the
    cache returns the lister's error. *)
Lemma absent_service_sync_returns_error_counterexample :
  let c := fake.controller [] [] [] (cluster.always true) "default/web" in
  serviceLister_Get c "default" "web" = Err (fake.notFound "service" "web")
  /\ snd (sync' c "default/web") = Err (fake.notFound "service" "web")
  /\ snd (sync' c "default/web") <> Ok tt.
Proof. intros c. repeat split. discriminate. Qed.

(** C4, as amended, on an empty cache. *)
Lemma absent_service_aborts_sync_witness :
  let c := fake.controller [] [] [] (cluster.always true) "default/web" in
  let err := fake.notFound "service" "web" in
  cache.SplitMetaNamespaceKey "default/web" = Ok ("default", "web")
  /\ serviceLister_Get c "default" "web" = Err err
  /\ workqueue_Get c = ("default/web", false)
  /\ sync' c "default/web" = ([ServiceGet "default" "web"], Err err)
  /\ processNextWorkItem' c
     = ([WorkqueueGet; ServiceGet "default" "web";
         Klog (mkLog Info (Some 4) "sync aborted: service web not found");
         WorkqueueDone "default/web"],
        Ok true).
Proof.
  intros c err.
  assert (H1 : cache.SplitMetaNamespaceKey "default/web" = Ok ("default", "web"))
    by reflexivity.
  assert (H2 : serviceLister_Get c "default" "web" = Err err) by reflexivity.
  assert (H3 : workqueue_Get c = ("default/web", false)) by reflexivity.
  repeat (split; [assumption|]).
  destruct (absent_service_aborts_sync json.UnmarshalSelections
              json.UnmarshalStatuses podutil.FindPort
              c "default/web" "default" "web" err H1 H2 H3) as [Hsync _].
  split; [exact Hsync|reflexivity].
Defined.

(** C7 as written fails on the abort: the event has the fixed text
    "Endpoints update aborted" as its message and not as its reason, and
    neither of its texts names the selection. *)
Lemma abort_event_texts_counterexample :
  let c := fake.controller [cluster.dual] [cluster.pod1] [cluster.dualEndpoints]
             (cluster.always true) "default/dual" in
  getNetworkAnnotations cluster.dual = "net-a,net-b"
  /\ exists ev,
       events (fst (sync' c "default/dual")) = [ev]
       /\ evReason ev = "multiple network selections in the service spec are not supported"
       /\ evMessage ev = "Endpoints update aborted"
       /\ evReason ev <> "Endpoints update aborted"
       /\ contains (evMessage ev) "net-a,net-b" = false
       /\ contains (evReason ev) "net-a,net-b" = false.
Proof.
  intros c. split; [reflexivity|].
  eexists. split; [vm_compute; reflexivity|].
  simpl. repeat split. discriminate.
Qed.

(** C7, as amended, on a sync that succeeds. *)
Lemma sync_event_texts_witness :
  let c := fake.controller [cluster.web] [cluster.pod1; cluster.pod2; cluster.pod3]
             [cluster.webEndpoints] (cluster.always true) "default/web" in
  let msg := "Updated to use network net-a" in
  snd (sync' c "default/web") = Ok tt
  /\ exists e1 e2,
       events (fst (sync' c "default/web")) = [e1; e2]
       /\ evObject e1 = OnEndpoints cluster.webEndpoints'
       /\ evObject e2 = OnService cluster.web
       /\ carries e1 "Endpoints update successful" msg
       /\ carries e2 "Endpoints update successful" msg.
Proof.
  intros c msg.
  assert (Hr : snd (sync' c "default/web") = Ok tt) by (vm_compute; reflexivity).
  split; [exact Hr|].
  destruct (sync_event_texts json.UnmarshalSelections json.UnmarshalStatuses
              podutil.FindPort c "default/web")
    as [[_ Hno]|[(ns & n & svc & w & _ & _ & Hw & _)
                |(ns & n & svc & ep & e1 & e2 & Hkey & Hsvc & _ & _ & Hev
                  & Ho1 & Ho2 & _ & _ & Hc1 & Hc2)]].
  - now contradiction Hno.
  - rewrite Hr in Hw. discriminate.
  - exists e1, e2.
    assert (Hns : Ok (ns, n) = Ok ("default", "web"))
      by (rewrite <- Hkey; reflexivity).
    inversion Hns; subst ns n.
    assert (Hs : Ok svc = Ok cluster.web) by (rewrite <- Hsvc; reflexivity).
    inversion Hs; subst svc.
    assert (Hex : events (fst (sync' c "default/web"))
                  = [mkEvent (OnEndpoints cluster.webEndpoints') EventTypeNormal msg
                       "Endpoints update successful";
                     mkEvent (OnService cluster.web) EventTypeNormal msg
                       "Endpoints update successful"]) by (vm_compute; reflexivity).
    rewrite Hex in Hev. inversion Hev; subst e1 e2.
    repeat split; try reflexivity; right; split; reflexivity.
Defined.

(** C8 on three pods: [pod2] has no network-status annotation (and [pod3]
    one that is no JSON); the Endpoints written hold the addresses of
    [pod1] alone and the sync returns without error. *)
Lemma sync_skips_pod_without_status_witness :
  let c := fake.controller [cluster.web] [cluster.pod1; cluster.pod2; cluster.pod3]
             [cluster.webEndpoints] (cluster.always true) "default/web" in
  let networks := [mkNSE "default" "net-a" ""] in
  let logs := [notJSON "net-a" json.syntaxError] in
  snd (json.UnmarshalStatuses "") <> None
  /\ podAnnotations cluster.pod2 !! statusesKey = None
  /\ cache.SplitMetaNamespaceKey "default/web" = Ok ("default", "web")
  /\ serviceLister_Get c "default" "web" = Ok cluster.web
  /\ parsePodNetworkSelections' (getNetworkAnnotations cluster.web) "default"
     = (logs, Ok networks)
  /\ List.length networks <= 1
  /\ podsLister_List c (svcSelector cluster.web)
     = Ok ([cluster.pod1] ++ cluster.pod2 :: [cluster.pod3])
  /\ endpointsLister_Get c "default" "web" = Ok cluster.webEndpoints
  /\ endpoints_Update c cluster.webEndpoints' = None
  /\ snd (podSubsets' cluster.web "net-a" networks
            ([cluster.pod1] ++ cluster.pod2 :: [cluster.pod3]))
     = snd (podSubsets' cluster.web "net-a" networks ([cluster.pod1] ++ [cluster.pod3]))
  /\ snd (sync' c "default/web") = Ok tt
  /\ In (EndpointsUpdate cluster.webEndpoints') (fst (sync' c "default/web")).
Proof.
  intros c networks logs.
  assert (H0 : snd (json.UnmarshalStatuses "") <> None) by discriminate.
  assert (Hmiss : podAnnotations cluster.pod2 !! statusesKey = None)
    by (vm_compute; reflexivity).
  assert (H1 : cache.SplitMetaNamespaceKey "default/web" = Ok ("default", "web"))
    by reflexivity.
  assert (H2 : serviceLister_Get c "default" "web" = Ok cluster.web) by reflexivity.
  assert (H3 : parsePodNetworkSelections' (getNetworkAnnotations cluster.web) "default"
               = (logs, Ok networks)) by (vm_compute; reflexivity).
  assert (H4 : List.length networks <= 1) by (simpl; lia).
  assert (H5 : podsLister_List c (svcSelector cluster.web)
               = Ok ([cluster.pod1] ++ cluster.pod2 :: [cluster.pod3]))
    by (vm_compute; reflexivity).
  assert (H6 : endpointsLister_Get c "default" "web" = Ok cluster.webEndpoints)
    by reflexivity.
  assert (H7 : endpoints_Update c cluster.webEndpoints' = None) by reflexivity.
  repeat (split; [assumption|]).
  destruct (sync_skips_pod_without_status json.UnmarshalSelections
              json.UnmarshalStatuses podutil.FindPort
              c "default/web" "default" "web" cluster.web logs networks
              [cluster.pod1] cluster.pod2 [cluster.pod3] cluster.webEndpoints
              H0 (or_introl Hmiss) H1 H2 H3 H4 H5 H6) as [Hskip Hsync].
  split; [exact Hskip|].
  exact (Hsync H7).
Defined.

(** C10 on a Service that selects net-a of the namespace other, and a pod
    attached to net-a of the namespace default: the addresses of the pod
    are in the subset. *)
Lemma status_match_ignores_namespace_witness :
  let status := mkStatus "net-a" "net1" ["10.0.0.1"] in
  parseSelections' (getNetworkAnnotations cluster.remote) "default"
    = Ok [mkNSE "other" "net-a" ""]
  /\ parseSelections' "default/net-a" (podNamespace cluster.pod1)
     = Ok [mkNSE "default" "net-a" ""]
  /\ json.UnmarshalStatuses (default "" (podAnnotations cluster.pod1 !! statusesKey))
     = ([status], None)
  /\ In status [status]
  /\ In "10.0.0.1" (statusIPs status)
  /\ exists addresses ports,
       snd (podSubsets' cluster.remote "other/net-a" [mkNSE "other" "net-a" ""]
              [cluster.pod1])
         = [mkEndpointSubset addresses ports]
       /\ In (cluster.address1 "10.0.0.1") addresses.
Proof.
  intros status.
  assert (H1 : parseSelections' (getNetworkAnnotations cluster.remote) "default"
               = Ok [mkNSE "other" "net-a" ""]) by (vm_compute; reflexivity).
  assert (H2 : parseSelections' "default/net-a" (podNamespace cluster.pod1)
               = Ok [mkNSE "default" "net-a" ""]) by reflexivity.
  assert (H3 : json.UnmarshalStatuses
                 (default "" (podAnnotations cluster.pod1 !! statusesKey))
               = ([status], None)) by (vm_compute; reflexivity).
  assert (H4 : In status [status]) by (left; reflexivity).
  assert (H5 : In "10.0.0.1" (statusIPs status)) by (left; reflexivity).
  repeat (split; [assumption|]).
  exact (proj2 (status_match_ignores_namespace json.UnmarshalStatuses podutil.FindPort
                  cluster.remote "other/net-a" cluster.pod1 [status] status "10.0.0.1"
                  "other" "" H3 H4 H5)).
Defined.

(** C2 as written fails: both pods use the deleted object and every live
    recheck finds it; the scan does not stop at the first pod, it rechecks
    again for the second one. *)
Lemma deletion_scan_goes_on_counterexample :
  let c := fake.controller [] [cluster.podA; cluster.podB] []
             (cluster.always true) "" in
  let get := NetAttachDefGet "default" "foo-network" in
  netAttachDefs_Get c 0 "default" "foo-network" = None
  /\ liveCalls (fst (handleNetAttachDefDeleteEvent' c
                       (DeletedNetAttachDef cluster.fooNetwork)))
     = [get; get].
Proof. intros c get. split; [reflexivity|vm_compute; reflexivity]. Qed.

(** The same scan when the object is found by the first recheck and gone
    at the second: a create call follows the recheck made for the second
    pod. *)
Example deletion_scan_creates_later :
  let c := fake.controller [] [cluster.podA; cluster.podB] []
             (fun n => Nat.eqb n 0) "" in
  let get := NetAttachDefGet "default" "foo-network" in
  liveCalls (fst (handleNetAttachDefDeleteEvent' c
                    (DeletedNetAttachDef cluster.fooNetwork)))
    = [get; get; NetAttachDefCreate (mkNetAttachDef "default" "foo-network" "" "{ }")].
Proof. vm_compute. reflexivity. Qed.

(** C2, as amended, when the first recheck does not find the object: one
    recheck, one create call with the resource version cleared. *)
Lemma deletion_recovery_calls_witness :
  let c := fake.controller [] [cluster.podA; cluster.podB] []
             (cluster.always false) "" in
  let t := fst (handleNetAttachDefDeleteEvent' c
                  (DeletedNetAttachDef cluster.fooNetwork)) in
  references json.UnmarshalSelections cluster.fooNetwork (podsLister_ListAll c) = 2
  /\ netAttachDefs_Get c 0 "default" "foo-network" <> None
  /\ liveCalls t
     = [NetAttachDefGet "default" "foo-network";
        NetAttachDefCreate (mkNetAttachDef "default" "foo-network" "" "{ }")]
  /\ count isNetAttachDefCreate t <= 1.
Proof.
  intros c t.
  assert (H1 : references json.UnmarshalSelections cluster.fooNetwork
                 (podsLister_ListAll c) = 2) by (vm_compute; reflexivity).
  assert (H2 : netAttachDefs_Get c 0 "default" "foo-network" <> None) by discriminate.
  repeat (split; [assumption|]).
  destruct (deletion_recovery_calls json.UnmarshalSelections fake.Sprint_NetAttachDef
              c cluster.fooNetwork) as (_ & Hcount & _ & Hfirst).
  split; [|exact Hcount].
  apply Hfirst; [rewrite H1; lia|exact H2].
Defined.

(** ** Closed examples for the further properties *)

Abbreviation dispatch' :=
  (dispatch json.UnmarshalSelections fake.Sprint_NetAttachDef
     (cluster2.getPodServices [cluster.web; cluster.dual])).
Abbreviation worker' :=
  (worker json.UnmarshalSelections json.UnmarshalStatuses podutil.FindPort).
Abbreviation healthy' :=
  (healthy json.UnmarshalSelections json.UnmarshalStatuses podutil.FindPort).

(** X1 on the unit foo/bar@eth1 and on the bare name br0. *)
Lemma parseElement_roundtrip_witness :
  labelOrEmpty "foo" /\ labelOrEmpty "bar" /\ labelOrEmpty "eth1"
  /\ labelOrEmpty "default"
  /\ parsePodNetworkSelectionElement "foo/bar@eth1" "default"
     = ([], Ok (mkNSE "foo" "bar" "eth1"))
  /\ parsePodNetworkSelectionElement "bar" "default"
     = ([], Ok (mkNSE "default" "bar" "")).
Proof.
  assert (H1 : labelOrEmpty "foo") by (right; reflexivity).
  assert (H2 : labelOrEmpty "bar") by (right; reflexivity).
  assert (H3 : labelOrEmpty "eth1") by (right; reflexivity).
  assert (H4 : labelOrEmpty "default") by (right; reflexivity).
  repeat (split; [assumption|]).
  destruct (parseElement_roundtrip "foo" "bar" "eth1" "default" H1 H2 H3) as [Hfull Hbare].
  split; [exact Hfull|exact (Hbare H4)].
Defined.

(** X2 on an input with an empty unit between two commas: three
    elements. *)
Lemma comma_path_exact_witness :
  "br0,,br1" <> ""
  /\ json.UnmarshalSelections "br0,,br1" = ([], Some json.syntaxError)
  /\ isErr (parseSelections' "br0,,br1" "default") = false
  /\ exists l,
       parseSelections' "br0,,br1" "default" = Ok l
       /\ List.length l = S (strings.Count "br0,,br1" ",").
Proof.
  assert (H1 : "br0,,br1" <> "") by discriminate.
  assert (H2 : json.UnmarshalSelections "br0,,br1" = ([], Some json.syntaxError))
    by reflexivity.
  assert (H3 : isErr (parseSelections' "br0,,br1" "default") = false) by reflexivity.
  repeat (split; [assumption|]).
  exact (proj2 (comma_path_exact json.UnmarshalSelections "br0,,br1" "default"
                  json.syntaxError H1 H2) H3).
Defined.

(** X3 on a unit that starts with a slash, in a default namespace that is
    no label: the namespace returned is the default one, unchecked. *)
Lemma comma_path_validated_witness :
  let l := [mkNSE "Team_A" "br0" "eth1"] in
  json.UnmarshalSelections "/br0@eth1" = ([], Some json.syntaxError)
  /\ parseSelections' "/br0@eth1" "Team_A" = Ok l
  /\ regexp.MatchString "Team_A" = false
  /\ Forall (fun e =>
               labelOrEmpty (Name e) /\ labelOrEmpty (InterfaceRequest e)
               /\ (Namespace e = "Team_A" \/ regexp.MatchString (Namespace e) = true)) l.
Proof.
  intros l.
  assert (H1 : json.UnmarshalSelections "/br0@eth1" = ([], Some json.syntaxError))
    by reflexivity.
  assert (H2 : parseSelections' "/br0@eth1" "Team_A" = Ok l) by reflexivity.
  assert (H3 : regexp.MatchString "Team_A" = false) by reflexivity.
  repeat (split; [assumption|]).
  exact (comma_path_validated json.UnmarshalSelections "/br0@eth1" "Team_A"
           json.syntaxError l H1 H2).
Defined.

(** X6 on the sync of [cluster.web]. *)
Lemma sync_written_endpoints_witness :
  let c := fake.controller [cluster.web] [cluster.pod1; cluster.pod2; cluster.pod3]
             [cluster.webEndpoints] (cluster.always true) "default/web" in
  In (EndpointsUpdate cluster.webEndpoints') (fst (sync' c "default/web"))
  /\ exists namespace name svc ep0,
       cache.SplitMetaNamespaceKey "default/web" = Ok (namespace, name)
       /\ serviceLister_Get c namespace name = Ok svc
       /\ endpointsLister_Get c namespace name = Ok ep0
       /\ epNamespace cluster.webEndpoints' = epNamespace ep0
       /\ epName cluster.webEndpoints' = epName ep0
       /\ epResourceVersion cluster.webEndpoints' = epResourceVersion ep0
       /\ epOwnerReferences cluster.webEndpoints'
          = [mkOwnerReference "v1" "Service" (svcName svc) (svcUID svc) true true].
Proof.
  intros c.
  assert (H : In (EndpointsUpdate cluster.webEndpoints') (fst (sync' c "default/web"))).
  { vm_compute. repeat first [left; reflexivity | right]. }
  split; [exact H|].
  exact (sync_written_endpoints json.UnmarshalSelections json.UnmarshalStatuses
           podutil.FindPort c "default/web" cluster.webEndpoints' H).
Defined.

(** X7 on an API that refuses the update. *)
Lemma sync_update_refused_witness :
  let c := cluster2.refusing
             (fake.controller [cluster.web] [cluster.pod1] [cluster.webEndpoints]
                (cluster.always true) "default/web") in
  In (EndpointsUpdate cluster.webEndpoints') (fst (sync' c "default/web"))
  /\ endpoints_Update c cluster.webEndpoints' = Some cluster2.refused
  /\ snd (sync' c "default/web") = Err cluster2.refused
  /\ events (fst (sync' c "default/web")) = [].
Proof.
  intros c.
  assert (H1 : In (EndpointsUpdate cluster.webEndpoints') (fst (sync' c "default/web"))).
  { vm_compute. repeat first [left; reflexivity | right]. }
  assert (H2 : endpoints_Update c cluster.webEndpoints' = Some cluster2.refused)
    by reflexivity.
  repeat (split; [assumption|]).
  destruct (sync_update_refused json.UnmarshalSelections json.UnmarshalStatuses
              podutil.FindPort c "default/web" cluster.webEndpoints'
              cluster2.refused H1 H2) as (Hr & Hev & _).
  split; [exact Hr|exact Hev].
Defined.

(** X8 on a Service without the annotation. *)
Lemma sync_without_annotation_witness :
  let c := fake.controller [cluster2.plain] [cluster.pod1] [] (cluster.always true)
             "default/plain" in
  cache.SplitMetaNamespaceKey "default/plain" = Ok ("default", "plain")
  /\ serviceLister_Get c "default" "plain" = Ok cluster2.plain
  /\ svcAnnotations cluster2.plain !! selectionsKey = None
  /\ sync' c "default/plain"
     = ([ServiceGet "default" "plain"], Err (errors_New "no network annotations")).
Proof.
  intros c.
  assert (H1 : cache.SplitMetaNamespaceKey "default/plain" = Ok ("default", "plain"))
    by reflexivity.
  assert (H2 : serviceLister_Get c "default" "plain" = Ok cluster2.plain)
    by reflexivity.
  assert (H3 : svcAnnotations cluster2.plain !! selectionsKey = None)
    by (vm_compute; reflexivity).
  repeat (split; [assumption|]).
  exact (sync_without_annotation json.UnmarshalSelections json.UnmarshalStatuses
           podutil.FindPort c "default/plain" "default" "plain" cluster2.plain
           H1 H2 (or_introl H3)).
Defined.

(** X9 on a cache without the Endpoints of the Service. *)
Lemma sync_lookup_failure_witness :
  let c := fake.controller [cluster.web] [cluster.pod1] [] (cluster.always true)
             "default/web" in
  let err := fake.notFound "endpoints" "web" in
  cache.SplitMetaNamespaceKey "default/web" = Ok ("default", "web")
  /\ serviceLister_Get c "default" "web" = Ok cluster.web
  /\ parsePodNetworkSelections' (getNetworkAnnotations cluster.web) "default"
     = ([notJSON "net-a" json.syntaxError], Ok [mkNSE "default" "net-a" ""])
  /\ podsLister_List c (svcSelector cluster.web) = Ok [cluster.pod1]
  /\ endpointsLister_Get c "default" "web" = Err err
  /\ snd (sync' c "default/web") = Err err
  /\ updates (fst (sync' c "default/web")) = []
  /\ events (fst (sync' c "default/web")) = [].
Proof.
  intros c err.
  assert (H1 : cache.SplitMetaNamespaceKey "default/web" = Ok ("default", "web"))
    by reflexivity.
  assert (H2 : serviceLister_Get c "default" "web" = Ok cluster.web) by reflexivity.
  assert (H3 : parsePodNetworkSelections' (getNetworkAnnotations cluster.web) "default"
               = ([notJSON "net-a" json.syntaxError], Ok [mkNSE "default" "net-a" ""]))
    by (vm_compute; reflexivity).
  assert (H4 : podsLister_List c (svcSelector cluster.web) = Ok [cluster.pod1])
    by (vm_compute; reflexivity).
  assert (H5 : endpointsLister_Get c "default" "web" = Err err) by reflexivity.
  repeat (split; [assumption|]).
  destruct (sync_lookup_failure json.UnmarshalSelections json.UnmarshalStatuses
              podutil.FindPort c "default/web" "default" "web" cluster.web _ _ err
              H1 H2 H3 ltac:(simpl; lia)
              (or_intror (conj (ex_intro _ _ H4) H5))) as (Hr & Hu & He & _).
  split; [exact Hr|]. split; [exact Hu|exact He].
Defined.

(** X13 on a Service whose selection is the empty JSON array. *)
Lemma sync_empty_selection_witness :
  let c := fake.controller [cluster2.none] [cluster.pod1; cluster.pod2]
             [cluster2.noneEndpoints] (cluster.always true) "default/none" in
  cache.SplitMetaNamespaceKey "default/none" = Ok ("default", "none")
  /\ serviceLister_Get c "default" "none" = Ok cluster2.none
  /\ getNetworkAnnotations cluster2.none <> ""
  /\ json.UnmarshalSelections (getNetworkAnnotations cluster2.none) = ([], None)
  /\ podsLister_List c (svcSelector cluster2.none) = Ok [cluster.pod1; cluster.pod2]
  /\ endpointsLister_Get c "default" "none" = Ok cluster2.noneEndpoints
  /\ exists ep subsets,
       updates (fst (sync' c "default/none")) = [ep]
       /\ epSubsets ep = endpoints.RepackSubsets subsets
       /\ List.length subsets
          = List.length (List.filter (statusReadable json.UnmarshalStatuses)
                           [cluster.pod1; cluster.pod2])
       /\ Forall (fun s => Addresses s = []) subsets.
Proof.
  intros c.
  assert (H1 : cache.SplitMetaNamespaceKey "default/none" = Ok ("default", "none"))
    by reflexivity.
  assert (H2 : serviceLister_Get c "default" "none" = Ok cluster2.none) by reflexivity.
  assert (H3 : getNetworkAnnotations cluster2.none <> "") by (vm_compute; discriminate).
  assert (H4 : json.UnmarshalSelections (getNetworkAnnotations cluster2.none) = ([], None))
    by (vm_compute; reflexivity).
  assert (H5 : podsLister_List c (svcSelector cluster2.none)
               = Ok [cluster.pod1; cluster.pod2]) by (vm_compute; reflexivity).
  assert (H6 : endpointsLister_Get c "default" "none" = Ok cluster2.noneEndpoints)
    by reflexivity.
  repeat (split; [assumption|]).
  exact (sync_empty_selection json.UnmarshalSelections json.UnmarshalStatuses
           podutil.FindPort c "default/none" "default" "none" cluster2.none
           [cluster.pod1; cluster.pod2] cluster2.noneEndpoints H1 H2 H3 H4 H5 H6).
Defined.

(** X15 on three turns: a sync that fails (no such Service), a sync that
    succeeds, and a queue that has shut down. *)
Lemma worker_outlives_failures_witness :
  let good := fake.controller [cluster.web] [cluster.pod1] [cluster.webEndpoints]
                (cluster.always true) "default/web" in
  let bad := fake.controller [] [] [] (cluster.always true) "default/gone" in
  let stop := cluster2.shutDown good in
  isErr (snd (sync' bad "default/gone")) = true
  /\ Forall healthy' [bad; good]
  /\ snd (workqueue_Get stop) = true
  /\ snd (worker' [bad; good; stop; good]) = WorkerStopped
  /\ count isDone (fst (worker' [bad; good; stop; good])) = 2
  /\ count isWorkqueueGet (fst (worker' [bad; good; stop; good])) = 3.
Proof.
  intros good bad stop.
  assert (H0 : isErr (snd (sync' bad "default/gone")) = true) by reflexivity.
  assert (H1 : Forall healthy' [bad; good]).
  { repeat constructor; vm_compute; discriminate. }
  assert (H2 : snd (workqueue_Get stop) = true) by reflexivity.
  repeat (split; [assumption|]).
  exact (proj2 (worker_outlives_failures json.UnmarshalSelections
                  json.UnmarshalStatuses podutil.FindPort
                  [bad; good] stop [good] H1 H2)).
Defined.

(** X16 on [cluster.web]. *)
Lemma enqueued_key_finds_service_witness :
  let c := fake.controller [cluster.web] [] [] (cluster.always true) "" in
  strings.Count (svcNamespace cluster.web) "/" = 0
  /\ strings.Count (svcName cluster.web) "/" = 0
  /\ exists key,
       handleServiceEvent (Live cluster.web)
         = ([Controller (WorkqueueAddRateLimited key)], Ok tt)
       /\ cache.SplitMetaNamespaceKey key = Ok ("default", "web")
       /\ exists t, fst (sync' c key) = ServiceGet "default" "web" :: t.
Proof.
  intros c.
  assert (H1 : strings.Count (svcNamespace cluster.web) "/" = 0) by reflexivity.
  assert (H2 : strings.Count (svcName cluster.web) "/" = 0) by reflexivity.
  repeat (split; [assumption|]).
  exact (enqueued_key_finds_service json.UnmarshalSelections json.UnmarshalStatuses
           podutil.FindPort c cluster.web H1 H2).
Defined.

(** X20 on the notification of a new pod behind two Services. *)
Lemma dispatch_touches_nothing_witness :
  let c := fake.controller [cluster.web; cluster.dual] [] [] (cluster.always true) "" in
  (forall obj, PodAdded cluster.pod1 <> NetAttachDefDeleted obj)
  /\ enqueued (fst (dispatch' c (PodAdded cluster.pod1))) = ["default/web"; "default/dual"]
  /\ Forall (fun call => isDispatchOnly call = true)
       (fst (dispatch' c (PodAdded cluster.pod1))).
Proof.
  intros c.
  assert (H1 : forall obj, PodAdded cluster.pod1 <> NetAttachDefDeleted obj)
    by (intros obj; discriminate).
  assert (H2 : enqueued (fst (dispatch' c (PodAdded cluster.pod1)))
               = ["default/web"; "default/dual"]) by (vm_compute; reflexivity).
  repeat (split; [assumption|]).
  exact (dispatch_touches_nothing json.UnmarshalSelections fake.Sprint_NetAttachDef
           (cluster2.getPodServices [cluster.web; cluster.dual])
           c (PodAdded cluster.pod1) H1).
Defined.

(** X22 on two pods that do not use the deleted object: one names another
    network, the other names foo-network from another namespace. *)
Lemma unreferenced_object_is_left_deleted_witness :
  let c := fake.controller [] [cluster2.podC; cluster2.podD] []
             (cluster.always false) "" in
  let t := fst (handleNetAttachDefDeleteEvent' c
                  (DeletedNetAttachDef cluster.fooNetwork)) in
  parseSelections' "bar-network" "default" = Ok [mkNSE "default" "bar-network" ""]
  /\ parseSelections' "foo-network" "other" = Ok [mkNSE "other" "foo-network" ""]
  /\ liveCalls t = []
  /\ count isNetAttachDefGet t = 0
  /\ count isNetAttachDefCreate t = 0.
Proof.
  intros c t.
  assert (H1 : parseSelections' "bar-network" "default"
               = Ok [mkNSE "default" "bar-network" ""]) by reflexivity.
  assert (H2 : parseSelections' "foo-network" "other"
               = Ok [mkNSE "other" "foo-network" ""]) by reflexivity.
  repeat (split; [assumption|]).
  apply (unreferenced_object_is_left_deleted json.UnmarshalSelections
           fake.Sprint_NetAttachDef c cluster.fooNetwork).
  intros pod value nets [<-|[<-|[]]] Hv Hp.
  - assert (value = "bar-network") by (vm_compute in Hv; congruence). subst value.
    change (podNamespace cluster2.podC) with "default" in Hp.
    rewrite H1 in Hp. inversion Hp. reflexivity.
  - assert (value = "foo-network") by (vm_compute in Hv; congruence). subst value.
    change (podNamespace cluster2.podD) with "other" in Hp.
    rewrite H2 in Hp. inversion Hp. reflexivity.
Defined.
